(** * Hybrid catalog back end (backend/server.js): a shallow embedding

    The development follows the source file top-down:

    - [Text]   : the string primitives used by [readProductsFromConstant]
                 ([indexOf], [substring], [trim], [endsWith], [slice] and the
                 two regular-expression replacements);
    - [Js]     : JavaScript values as the JSON body parser produces them,
                 truthiness, property access, object spread;
    - [Json]   : [parseFloat], [JSON.stringify (v, null, 2)], [JSON.parse];
    - [Eff]    : the asynchronous calls of the handlers ([fs], the Mongoose
                 models) as operations of a program tree, one node per
                 [await], with a sequential and an interleaving semantics;
    - [Server] : the file helpers, the middleware and the route handlers;
    - [Vocabulary], [Scenario] : the notions the statements use, and sample
                 requests and worlds;
    - then the facts: the trailing-comma replacement, running programs, and
      the properties of the metadata store, the coordinator, the download
      resolution, Add, Update and the listing. *)

From Stdlib Require Import ZArith Ascii String List Lia Bool DecimalString
  DecimalPos DecimalFacts.
From stdpp Require Import base option list gmap strings.

Set Warnings "-register-all".

Local Open Scope Z_scope.
Local Open Scope nat_scope.

(* ===================================================================== *)
(** * Text primitives *)
(* ===================================================================== *)

Module Text.

(** A JavaScript string is kept as the bytes of its UTF-8 encoding. White
    space, for [trim] and for the class [\s], is ECMAScript's WhiteSpace and
    LineTerminator: TAB, LF, VT, FF, CR, SP, U+00A0, U+1680, U+2000 to
    U+200A, U+2028, U+2029, U+202F, U+205F, U+3000 and U+FEFF. The first
    six take one byte, U+00A0 two, the others three. *)
Definition ascii_space (c : ascii) : bool :=
  match c with
  | "009" | "010" | "011" | "012" | "013" | " " => true
  | _ => false
  end%char.

(** U+00A0 is C2 A0. *)
Definition space2 (c1 c2 : ascii) : bool :=
  (N_of_ascii c1 =? 194)%N && (N_of_ascii c2 =? 160)%N.

Definition space3 (c1 c2 c3 : ascii) : bool :=
  let a := N_of_ascii c1 in
  let b := N_of_ascii c2 in
  let c := N_of_ascii c3 in
  ((a =? 225) && (b =? 154) && (c =? 128)                    (* U+1680 *)
   || (a =? 226) && (b =? 128)
      && ((128 <=? c) && (c <=? 138)                         (* U+2000 to U+200A *)
          || (c =? 168) || (c =? 169)                        (* U+2028, U+2029 *)
          || (c =? 175))                                     (* U+202F *)
   || (a =? 226) && (b =? 129) && (c =? 159)                 (* U+205F *)
   || (a =? 227) && (b =? 128) && (c =? 128)                 (* U+3000 *)
   || (a =? 239) && (b =? 187) && (c =? 191))%N.             (* U+FEFF *)

(** The number of bytes of the white-space character at the head of [s];
    [0] when [s] does not start with white space. *)
Definition space_width (s : string) : nat :=
  match s with
  | EmptyString => 0
  | String c1 s1 =>
      if ascii_space c1 then 1
      else match s1 with
           | EmptyString => 0
           | String c2 s2 =>
               if space2 c1 c2 then 2
               else match s2 with
                    | EmptyString => 0
                    | String c3 _ => if space3 c1 c2 c3 then 3 else 0
                    end
           end
  end.

(** [hay.indexOf(needle)]: the first position at which [needle] occurs,
    [None] for JavaScript's [-1]. *)
Fixpoint indexOf (needle hay : string) : option nat :=
  if String.prefix needle hay then Some 0
  else match hay with
       | EmptyString => None
       | String _ h => S <$> indexOf needle h
       end.

(** [s.substring(n)] *)
Fixpoint substring_from (n : nat) (s : string) : string :=
  match n, s with
  | 0, _ => s
  | S _, EmptyString => EmptyString
  | S k, String _ s' => substring_from k s'
  end.

(** An ASCII character that is no white space: a byte that is part of no
    white-space character. *)
Definition solid (c : ascii) : bool :=
  (N_of_ascii c <? 128)%N && negb (ascii_space c).

(** [s.trimStart()]: white-space characters are passed one at a time. *)
Fixpoint trimStart (s : string) : string :=
  match s with
  | EmptyString => EmptyString
  | String c1 s1 =>
      if ascii_space c1 then trimStart s1
      else match s1 with
           | EmptyString => s
           | String c2 s2 =>
               if space2 c1 c2 then trimStart s2
               else match s2 with
                    | EmptyString => s
                    | String c3 s3 => if space3 c1 c2 c3 then trimStart s3 else s
                    end
           end
  end.

(** [s] matches [\s*]: it is white space from end to end. *)
Definition all_space (s : string) : bool :=
  match trimStart s with
  | EmptyString => true
  | String _ _ => false
  end.

(** [s.trimEnd()]: the text up to the point from which only white space
    follows. *)
Fixpoint trimEnd (s : string) : string :=
  match s with
  | EmptyString => EmptyString
  | String c s' => if all_space s then EmptyString else String c (trimEnd s')
  end.

(** [s.trim()] *)
Definition trim (s : string) : string := trimEnd (trimStart s).

(** [s.endsWith(c)] for a one-character [c] *)
Fixpoint endsWith (c : ascii) (s : string) : bool :=
  match s with
  | EmptyString => false
  | String a EmptyString => Ascii.eqb a c
  | String _ s' => endsWith c s'
  end.

(** [s.slice(0, -1)] *)
Fixpoint slice_init (s : string) : string :=
  match s with
  | EmptyString => EmptyString
  | String _ EmptyString => EmptyString
  | String a s' => String a (slice_init s')
  end.

(** A match of [\s*d] at the head of [s], for a delimiter [d] that is not
    white space: the number of bytes it covers. The white space is passed
    to its end, and [d] must follow. *)
Definition match_spaces_then (d : ascii) (s : string) : option nat :=
  match trimStart s with
  | EmptyString => None
  | String c r =>
      if Ascii.eqb c d then Some (String.length s - String.length r) else None
  end.

(** [s.replace(/,\s*d/g, d)]: the text is scanned from the left; where the
    pattern matches, the delimiter is emitted and the scan resumes after the
    matched text ([skip] counts the matched characters still to pass);
    elsewhere the character is copied. *)
Fixpoint replace_scan (d : ascii) (skip : nat) (s : string) : string :=
  match s with
  | EmptyString => EmptyString
  | String c s' =>
      match skip with
      | S k => replace_scan d k s'
      | 0 =>
          if Ascii.eqb c "," then
            match match_spaces_then d s' with
            | Some n => String d (replace_scan d n s')
            | None => String c (replace_scan d 0 s')
            end
          else String c (replace_scan d 0 s')
      end
  end.

Definition replace_comma_before (d : ascii) (s : string) : string :=
  replace_scan d 0 s.

(** [jsonStr.replace(/,\s*\]/g, ']').replace(/,\s*\}/g, '}')] *)
Definition cleanedJson (jsonStr : string) : string :=
  replace_comma_before "}" (replace_comma_before "]" jsonStr).

End Text.

(* ===================================================================== *)
(** * JavaScript values *)
(* ===================================================================== *)

Module Js.

(** Numbers. A finite number is a binary64 value; it is kept as the
    decimal that Number::toString prints for it, [m * 10^e] with [m] free
    of trailing zeros: the shortest decimal that reads as the value.
    Negative zero is identified with zero (the handlers cannot tell them
    apart: both are falsy and print as [0]). *)
Inductive number :=
| NaN
| Inf (negative : bool)
| Dec (m : Z) (e : Z).

Fixpoint strip_zeros (fuel : nat) (m e : Z) : Z * Z :=
  match fuel with
  | O => (m, e)
  | S f =>
      if (m =? 0)%Z then (0, 0)%Z
      else if (m mod 10 =? 0)%Z then strip_zeros f (m / 10)%Z (e + 1)%Z
      else (m, e)
  end.

Definition mk_dec (m e : Z) : number :=
  let '(m', e') := strip_zeros (S (Z.to_nat (Z.log2 (Z.abs m)))) m e in
  Dec m' e'.

(** ** Rounding to binary64

    Fractions are pairs of a numerator and a positive denominator.
    [scale b k x] is [x * b ^ k]. *)
Definition scale (b : Z) (k : Z) (x : Z * Z) : Z * Z :=
  if (0 <=? k)%Z then (x.1 * b ^ k, x.2)%Z else (x.1, x.2 * b ^ (- k))%Z.

(** The integer nearest to [x], the even one of two that are equally
    near *)
Definition round_half_even (x : Z * Z) : Z :=
  let f := (x.1 / x.2)%Z in
  match (2 * (x.1 mod x.2) ?= x.2)%Z with
  | Lt => f
  | Gt => (f + 1)%Z
  | Eq => if Z.even f then f else (f + 1)%Z
  end.

(** The binary64 value nearest to a positive fraction [x], ties to even:
    [(M, q)] stands for [M * 2 ^ q], with [2 ^ 52 <= M < 2 ^ 53], or with
    [q = -1074] and [M < 2 ^ 52] for a subnormal number or zero. [None]
    when [x] is too large for a finite number. *)
Definition to_binary64 (x : Z * Z) : option (Z * Z) :=
  let q0 := Z.max (Z.log2 x.1 - Z.log2 x.2 - 53) (-1074) in
  let x0 := scale 2 (- q0) x in
  let q := if (2 ^ 53 <=? x0.1 / x0.2)%Z then (q0 + 1)%Z else q0 in
  let M := round_half_even (scale 2 (- q) x) in
  let '(M, q) := if (M =? 2 ^ 53)%Z then (2 ^ 52, q + 1)%Z else (M, q) in
  if (971 <? q)%Z then None else Some (M, q).

(** [n] with [10 ^ (n - 1) <= x < 10 ^ n], for a positive fraction [x],
    from an estimate that is corrected *)
Fixpoint magnitude_from (fuel : nat) (n : Z) (x : Z * Z) : Z :=
  match fuel with
  | O => n
  | S f =>
      let y := scale 10 (- n) x in
      if (y.2 <=? y.1)%Z then magnitude_from f (n + 1)%Z x
      else if (10 * y.1 <? y.2)%Z then magnitude_from f (n - 1)%Z x
      else n
  end.

Definition magnitude (x : Z * Z) : Z :=
  magnitude_from 8 ((Z.log2 x.1 - Z.log2 x.2) * 1233 / 4096)%Z x.

(** The decimal of [k] digits, [s * 10 ^ (n - k)], that reads as the
    binary64 value [Mq], if there is one: the nearer of the two that
    enclose the value, the even one when they are equally near. *)
Definition candidate (Mq : Z * Z) (n k : Z) : option Z :=
  let v := scale 2 Mq.2 (Mq.1, 1%Z) in
  let ex := (n - k)%Z in
  let y := scale 10 (- ex) v in
  let lo := (y.1 / y.2)%Z in
  let hi := (lo + 1)%Z in
  let reads (s : Z) :=
    match to_binary64 (scale 10 ex (s, 1%Z)) with
    | Some r => (r.1 =? Mq.1)%Z && (r.2 =? Mq.2)%Z
    | None => false
    end in
  let lo_nearer :=
    match (2 * (y.1 mod y.2) ?= y.2)%Z with
    | Lt => true
    | Gt => false
    | Eq => Z.even lo
    end in
  match (0 <? lo)%Z && reads lo, reads hi with
  | true, true => Some (if lo_nearer then lo else hi)
  | true, false => Some lo
  | false, true => Some hi
  | false, false => None
  end.

(** The digits and the exponent of the shortest decimal that reads as the
    binary64 value [Mq], as Number::toString chooses them; seventeen digits
    always do (past them: the value itself, in decimal). *)
Fixpoint shortest_from (fuel : nat) (k : Z) (Mq : Z * Z) (n : Z) : Z * Z :=
  match fuel with
  | O =>
      if (0 <=? Mq.2)%Z then (Mq.1 * 2 ^ Mq.2, 0)%Z
      else (Mq.1 * 5 ^ (- Mq.2), Mq.2)%Z
  | S f =>
      match candidate Mq n k with
      | Some s => (s, n - k)%Z
      | None => shortest_from f (k + 1)%Z Mq n
      end
  end.

Definition shortest (Mq : Z * Z) : Z * Z :=
  shortest_from 17 1 Mq (magnitude (scale 2 Mq.2 (Mq.1, 1%Z))).

(** The Number value of a decimal: it is rounded to binary64 (to an
    infinity when it is too large, to zero when it is too small), and the
    number is kept as the decimal that Number::toString prints for it. *)
Definition binary64 (x : number) : number :=
  match x with
  | Dec m e =>
      if (m =? 0)%Z then Dec 0 0
      else if (400 <? e)%Z then Inf (m <? 0)%Z
      else if (e + Z.log2 (Z.abs m) + 1 <? - 400)%Z then Dec 0 0
      else
        match to_binary64 (scale 10 e (Z.abs m, 1%Z)) with
        | None => Inf (m <? 0)%Z
        | Some (M, q) =>
            if (M =? 0)%Z then Dec 0 0
            else
              let '(s, ex) := shortest (M, q) in
              mk_dec (if (m <? 0)%Z then (- s)%Z else s) ex
        end
  | _ => x
  end.

(** The Number value of the decimal literal [m * 10 ^ e] *)
Definition to_number (m e : Z) : number := binary64 (mk_dec m e).

Inductive jsval :=
| JUndefined
| JNull
| JBool (b : bool)
| JNum (n : number)
| JStr (s : string)
| JArr (items : list jsval)
| JObj (fields : list (string * jsval)).

(** A thrown exception or a rejected promise, by its [message]. *)
Inductive result (A : Type) :=
| Ok (a : A)
| Throw (message : string).
Arguments Ok {A} a.
Arguments Throw {A} message.

Definition rbind {A B} (r : result A) (k : A -> result B) : result B :=
  match r with
  | Ok a => k a
  | Throw m => Throw m
  end.

(** [!!v] *)
Definition truthy (v : jsval) : bool :=
  match v with
  | JUndefined | JNull => false
  | JBool b => b
  | JNum NaN => false
  | JNum (Inf _) => true
  | JNum (Dec m _) => negb (m =? 0)%Z
  | JStr s => negb (String.eqb s "")
  | JArr _ | JObj _ => true
  end.

(** [a || b] *)
Definition or_else (a b : jsval) : jsval := if truthy a then a else b.

(** [v === s] for a string [s] *)
Definition strict_eq_string (v : jsval) (s : string) : bool :=
  match v with
  | JStr t => String.eqb t s
  | _ => false
  end.

(** [v === null] *)
Definition is_null (v : jsval) : bool :=
  match v with JNull => true | _ => false end.

Definition nat_to_string (n : nat) : string :=
  DecimalString.NilZero.string_of_uint (Nat.to_uint n).

Definition N_to_string (n : N) : string :=
  DecimalString.NilZero.string_of_uint (N.to_uint n).

(** The value of a run of decimal digits *)
Fixpoint digits_N (acc : N) (s : string) : option N :=
  match s with
  | EmptyString => Some acc
  | String c s' =>
      match Ascii.is_nat c with
      | Some d => digits_N (10 * acc + N.of_nat d)%N s'
      | None => None
      end
  end.

(** An array index: a key that is the text of an integer from 0 to
    2^32 - 2 as [String] prints it (no sign, no leading zero). *)
Definition array_index (k : string) : option N :=
  match digits_N 0 k with
  | Some n =>
      if String.eqb (N_to_string n) k && (n <? 4294967295)%N then Some n else None
  | None => None
  end.

(** Property lists: the own enumerable properties of an object in property
    order. The engine lists the properties whose key is an array index
    first, in ascending order, and the others after them in the order in
    which they were created. Keys are unique. *)
Fixpoint obj_lookup (k : string) (fs : list (string * jsval)) : option jsval :=
  match fs with
  | [] => None
  | (k', v) :: fs' => if String.eqb k' k then Some v else obj_lookup k fs'
  end.

(** A write to a key the object has: the property keeps its place. *)
Fixpoint obj_replace (k : string) (v : jsval) (fs : list (string * jsval))
  : list (string * jsval) :=
  match fs with
  | [] => []
  | (k', v') :: fs' =>
      if String.eqb k' k then (k', v) :: fs' else (k', v') :: obj_replace k v fs'
  end.

(** A new property whose key is the array index [n]: it goes before the
    first property whose key is no array index or a greater one. *)
Fixpoint obj_insert (n : N) (kv : string * jsval) (fs : list (string * jsval))
  : list (string * jsval) :=
  match fs with
  | [] => [kv]
  | (k', v') :: fs' =>
      match array_index k' with
      | Some n' =>
          if (n' <? n)%N then (k', v') :: obj_insert n kv fs' else kv :: fs
      | None => kv :: fs
      end
  end.

(** [o[k] = v] *)
Definition obj_set (k : string) (v : jsval) (fs : list (string * jsval))
  : list (string * jsval) :=
  match obj_lookup k fs with
  | Some _ => obj_replace k v fs
  | None =>
      match array_index k with
      | Some n => obj_insert n (k, v) fs
      | None => fs ++ [(k, v)]
      end
  end.

Fixpoint obj_remove (k : string) (fs : list (string * jsval))
  : list (string * jsval) :=
  match fs with
  | [] => []
  | (k', v') :: fs' =>
      if String.eqb k' k then obj_remove k fs' else (k', v') :: obj_remove k fs'
  end.

Fixpoint index_from {A} (i : nat) (l : list A) : list (string * A) :=
  match l with
  | [] => []
  | x :: l' => (nat_to_string i, x) :: index_from (S i) l'
  end.

Fixpoint chars (s : string) : list jsval :=
  match s with
  | EmptyString => []
  | String c s' => JStr (String c EmptyString) :: chars s'
  end.

(** The own enumerable string-keyed properties of a value, as object spread
    and rest destructuring see them. *)
Definition own_props (v : jsval) : list (string * jsval) :=
  match v with
  | JObj fs => fs
  | JArr l => index_from 0 l
  | JStr s => index_from 0 (chars s)
  | _ => []
  end.

(** [v.k]: reading a property of [undefined] or [null] throws. *)
Definition get (v : jsval) (k : string) : result jsval :=
  match v with
  | JUndefined =>
      Throw ("Cannot read properties of undefined (reading '" +:+ k +:+ "')")
  | JNull =>
      Throw ("Cannot read properties of null (reading '" +:+ k +:+ "')")
  | JArr l =>
      if String.eqb k "length" then Ok (JNum (mk_dec (Z.of_nat (length l)) 0))
      else Ok (default JUndefined (obj_lookup k (own_props v)))
  | JStr s =>
      if String.eqb k "length"
      then Ok (JNum (mk_dec (Z.of_nat (String.length s)) 0))
      else Ok (default JUndefined (obj_lookup k (own_props v)))
  | _ => Ok (default JUndefined (obj_lookup k (own_props v)))
  end.

(** [v?.k] *)
Definition get_opt (v : jsval) (k : string) : jsval :=
  match get v k with
  | Ok x => x
  | Throw _ => JUndefined
  end.

(** [{ ...target, ...source }] continued: the properties of [src] written
    onto [fs] in order. *)
Definition assign (fs : list (string * jsval)) (src : list (string * jsval))
  : list (string * jsval) :=
  fold_left (fun acc kv => obj_set kv.1 kv.2 acc) src fs.

(** [{ ...v }] *)
Definition spread (v : jsval) : list (string * jsval) :=
  assign [] (own_props v).

(** [Array.isArray(v) ? v : []] *)
Definition array_or_empty (v : jsval) : jsval :=
  match v with
  | JArr _ => v
  | _ => JArr []
  end.

End Js.

(* ===================================================================== *)
(** * Numbers as text, [JSON.stringify] and [JSON.parse] *)
(* ===================================================================== *)

Module Json.
Import Js.

Definition nl : string := String "010" EmptyString.

Definition digits_of (z : Z) : string :=
  NilZero.string_of_uint (N.to_uint (Z.to_N z)).

Fixpoint zeros (n : nat) : string :=
  match n with
  | O => EmptyString
  | S k => String "0" (zeros k)
  end.

(** [Number.prototype.toString] (ECMA-262, Number::toString, radix 10) on
    the decimal digits [s] of the number and the position [n] of its
    decimal point. *)
Definition number_to_string (x : number) : string :=
  match x with
  | NaN => "NaN"
  | Inf false => "Infinity"
  | Inf true => "-Infinity"
  | Dec m e =>
      if (m =? 0)%Z then "0"
      else
        let s := digits_of (Z.abs m) in
        let k := Z.of_nat (String.length s) in
        let n := (k + e)%Z in
        (if (m <? 0)%Z then "-" else "") +:+
        (if (k <=? n)%Z && (n <=? 21)%Z then s +:+ zeros (Z.to_nat (n - k))
         else if (0 <? n)%Z && (n <=? 21)%Z then
           String.substring 0 (Z.to_nat n) s +:+ "." +:+
           Text.substring_from (Z.to_nat n) s
         else if (-6 <? n)%Z && (n <=? 0)%Z then
           "0." +:+ zeros (Z.to_nat (- n)) +:+ s
         else
           let ex := (n - 1)%Z in
           match s with
           | String c EmptyString => s
           | String c r => String c ("." +:+ r)
           | EmptyString => EmptyString
           end +:+ "e" +:+ (if (0 <=? ex)%Z then "+" else "-") +:+
           digits_of (Z.abs ex))
  end.

Fixpoint join (sep : string) (l : list string) : string :=
  match l with
  | [] => EmptyString
  | [x] => x
  | x :: l' => x +:+ sep +:+ join sep l'
  end.

(** [String(v)] *)
Fixpoint to_string (v : jsval) : string :=
  match v with
  | JUndefined => "undefined"
  | JNull => "null"
  | JBool true => "true"
  | JBool false => "false"
  | JNum n => number_to_string n
  | JStr s => s
  | JArr l =>
      join ","
        ((fix items (l : list jsval) : list string :=
            match l with
            | [] => []
            | x :: l' =>
                match x with
                | JUndefined | JNull => EmptyString
                | _ => to_string x
                end :: items l'
            end) l)
  | JObj _ => "[object Object]"
  end.

(** The longest run of decimal digits at the head of [s]: its value, its
    length, and the rest. *)
Fixpoint scan_digits (acc : Z) (len : nat) (s : string) : Z * nat * string :=
  match s with
  | String c s' =>
      match Ascii.is_nat c with
      | Some d => scan_digits (10 * acc + Z.of_nat d)%Z (S len) s'
      | None => (acc, len, s)
      end
  | EmptyString => (acc, len, s)
  end.

(** An optional exponent part [e[+-]digits]; without a digit the [e] is not
    part of the number. *)
Definition scan_exponent (s : string) : Z * string :=
  match s with
  | String c s' =>
      if Ascii.eqb c "e" || Ascii.eqb c "E" then
        let '(neg, s1) :=
          match s' with
          | String "-" r => (true, r)
          | String "+" r => (false, r)
          | _ => (false, s')
          end in
        let '(x, len, r) := scan_digits 0 0 s1 in
        match len with
        | O => (0%Z, s)
        | S _ => ((if neg then - x else x)%Z, r)
        end
      else (0%Z, s)
  | EmptyString => (0%Z, s)
  end.

(** [parseFloat(v)]: the longest prefix of [String(v)], after leading white
    space, that is a StrDecimalLiteral. *)
Definition parseFloat (v : jsval) : number :=
  let s := Text.trimStart (to_string v) in
  let '(neg, s1) :=
    match s with
    | String "-" r => (true, r)
    | String "+" r => (false, r)
    | _ => (false, s)
    end in
  if String.prefix "Infinity" s1 then Inf neg
  else
    let '(ip, ilen, s2) := scan_digits 0 0 s1 in
    let '(fp, flen, s3) :=
      match s2 with
      | String "." r => scan_digits ip 0 r
      | _ => (ip, 0, s2)
      end in
    match ilen + flen with
    | O => NaN
    | S _ =>
        let '(ex, _) := scan_exponent s3 in
        to_number (if neg then - fp else fp) (ex - Z.of_nat flen)
    end.

(** ** [JSON.stringify (value, null, 2)] *)

Definition hex_digit (n : N) : ascii :=
  match n with
  | 0 => "0" | 1 => "1" | 2 => "2" | 3 => "3" | 4 => "4" | 5 => "5"
  | 6 => "6" | 7 => "7" | 8 => "8" | 9 => "9" | 10 => "a" | 11 => "b"
  | 12 => "c" | 13 => "d" | 14 => "e" | _ => "f"
  end%N%char.

(** QuoteJSONString without the enclosing quotes *)
Fixpoint escape (s : string) : string :=
  match s with
  | EmptyString => EmptyString
  | String c s' =>
      match c with
      | "008" => "\b" +:+ escape s'
      | "009" => "\t" +:+ escape s'
      | "010" => "\n" +:+ escape s'
      | "012" => "\f" +:+ escape s'
      | "013" => "\r" +:+ escape s'
      | "034" => String "\" (String "034" (escape s'))
      | "\" => "\\" +:+ escape s'
      | _ =>
          let n := N_of_ascii c in
          if (n <? 32)%N then
            "\u00" +:+
            String (hex_digit (n / 16)) (String (hex_digit (n mod 16)) (escape s'))
          else String c (escape s')
      end%char
  end.

Definition quote (s : string) : string :=
  String "034" (escape s +:+ String "034" EmptyString).

(** SerializeJSONProperty with a gap of two spaces; [None] is the
    [undefined] that makes an object property disappear and an array element
    print as [null]. *)
Fixpoint serialize (indent : string) (v : jsval) : option string :=
  let inner := indent +:+ "  " in
  match v with
  | JUndefined => None
  | JNull => Some "null"
  | JBool true => Some "true"
  | JBool false => Some "false"
  | JNum (Dec m e) => Some (number_to_string (Dec m e))
  | JNum _ => Some "null"
  | JStr s => Some (quote s)
  | JArr l =>
      let parts :=
        (fix items (l : list jsval) : list string :=
           match l with
           | [] => []
           | x :: l' => default "null" (serialize inner x) :: items l'
           end) l in
      match parts with
      | [] => Some "[]"
      | _ => Some ("[" +:+ nl +:+ inner +:+ join ("," +:+ nl +:+ inner) parts
                   +:+ nl +:+ indent +:+ "]")
      end
  | JObj fs =>
      let parts :=
        (fix props (fs : list (string * jsval)) : list string :=
           match fs with
           | [] => []
           | (k, x) :: fs' =>
               match serialize inner x with
               | Some t => (quote k +:+ ": " +:+ t) :: props fs'
               | None => props fs'
               end
           end) fs in
      match parts with
      | [] => Some "{}"
      | _ => Some ("{" +:+ nl +:+ inner +:+ join ("," +:+ nl +:+ inner) parts
                   +:+ nl +:+ indent +:+ "}")
      end
  end.

(** The text a template literal makes of [JSON.stringify (v, null, 2)] *)
Definition stringify (v : jsval) : string :=
  default "undefined" (serialize "" v).

(** ** [JSON.parse] *)

(** JSON white space: TAB, LF, CR and SP *)
Definition is_json_ws (c : ascii) : bool :=
  match c with
  | "009" | "010" | "013" | " " => true
  | _ => false
  end%char.

Fixpoint skip_ws (s : string) : string :=
  match s with
  | String c s' => if is_json_ws c then skip_ws s' else s
  | EmptyString => EmptyString
  end.

Definition hex_value (c : ascii) : option N :=
  let n := N_of_ascii c in
  if (48 <=? n)%N && (n <=? 57)%N then Some (n - 48)%N
  else if (65 <=? n)%N && (n <=? 70)%N then Some (n - 55)%N
  else if (97 <=? n)%N && (n <=? 102)%N then Some (n - 87)%N
  else None.

(** The bytes (UTF-8) of a code unit written [\uXXXX] *)
Definition utf8 (cp : N) : string :=
  if (cp <? 128)%N then String (ascii_of_N cp) EmptyString
  else if (cp <? 2048)%N then
    String (ascii_of_N (192 + cp / 64))
      (String (ascii_of_N (128 + cp mod 64)) EmptyString)
  else
    String (ascii_of_N (224 + cp / 4096))
      (String (ascii_of_N (128 + (cp / 64) mod 64))
         (String (ascii_of_N (128 + cp mod 64)) EmptyString)).

Definition prepend (c : string) (r : option (string * string))
  : option (string * string) :=
  match r with
  | Some (t, rest) => Some (c +:+ t, rest)
  | None => None
  end.

(** The characters of a string literal after its opening quote, up to its
    closing quote, and the text after it. *)
Fixpoint parse_string (s : string) : option (string * string) :=
  match s with
  | EmptyString => None
  | String c r =>
      if Ascii.eqb c "034" then Some (EmptyString, r)
      else if Ascii.eqb c "\" then
        match r with
        | String e r1 =>
            match e with
            | "034" => prepend (String "034" EmptyString) (parse_string r1)
            | "\" => prepend "\" (parse_string r1)
            | "/" => prepend "/" (parse_string r1)
            | "b" => prepend (String "008" EmptyString) (parse_string r1)
            | "f" => prepend (String "012" EmptyString) (parse_string r1)
            | "n" => prepend (String "010" EmptyString) (parse_string r1)
            | "r" => prepend (String "013" EmptyString) (parse_string r1)
            | "t" => prepend (String "009" EmptyString) (parse_string r1)
            | "u" =>
                match r1 with
                | String h1 (String h2 (String h3 (String h4 r2))) =>
                    match hex_value h1, hex_value h2, hex_value h3, hex_value h4 with
                    | Some a, Some b, Some c', Some d =>
                        prepend (utf8 (((a * 16 + b) * 16 + c') * 16 + d)%N)
                                (parse_string r2)
                    | _, _, _, _ => None
                    end
                | _ => None
                end
            | _ => None
            end%char
        | EmptyString => None
        end
      else if (N_of_ascii c <? 32)%N then None
      else prepend (String c EmptyString) (parse_string r)
  end.

Fixpoint strip_prefix (p s : string) : option string :=
  match p, s with
  | EmptyString, _ => Some s
  | String a p', String b s' => if Ascii.eqb a b then strip_prefix p' s' else None
  | String _ _, EmptyString => None
  end.

Definition parse_number (s : string) : option (jsval * string) :=
  let '(neg, s1) :=
    match s with
    | String "-" r => (true, r)
    | _ => (false, s)
    end in
  let sign (z : Z) := if neg then (- z)%Z else z in
  let '(ip, ilen, s2) := scan_digits 0 0 s1 in
  match ilen with
  | O => None
  | S O | S (S _) =>
      if Nat.ltb 1 ilen && String.prefix "0" s1 then None
      else
        match s2 with
        | String "." r =>
            let '(fp, flen, s3) := scan_digits ip 0 r in
            match flen with
            | O => None
            | S _ =>
                let '(ex, s4) := scan_exponent s3 in
                Some (JNum (to_number (sign fp) (ex - Z.of_nat flen)), s4)
            end
        | _ =>
            let '(ex, s4) := scan_exponent s2 in
            Some (JNum (to_number (sign ip) ex), s4)
        end
  end.

(** A JSON value at the head of [s] (after white space), and the text that
    follows it. [fuel] bounds the number of values, elements and members
    visited. *)
Fixpoint parse_value (fuel : nat) (s : string) : option (jsval * string) :=
  match fuel with
  | O => None
  | S f =>
      match skip_ws s with
      | EmptyString => None
      | String c r as t =>
          if Ascii.eqb c "[" then
            match skip_ws r with
            | String "]" r' => Some (JArr [], r')
            | _ => parse_elements f r []
            end
          else if Ascii.eqb c "{" then
            match skip_ws r with
            | String "}" r' => Some (JObj [], r')
            | _ => parse_members f r []
            end
          else if Ascii.eqb c "034" then
            match parse_string r with
            | Some (str, r') => Some (JStr str, r')
            | None => None
            end
          else if Ascii.eqb c "t" then
            (fun r' => (JBool true, r')) <$> strip_prefix "true" t
          else if Ascii.eqb c "f" then
            (fun r' => (JBool false, r')) <$> strip_prefix "false" t
          else if Ascii.eqb c "n" then
            (fun r' => (JNull, r')) <$> strip_prefix "null" t
          else parse_number t
      end
  end
with parse_elements (fuel : nat) (s : string) (acc : list jsval)
  : option (jsval * string) :=
  match fuel with
  | O => None
  | S f =>
      match parse_value f s with
      | Some (v, r) =>
          match skip_ws r with
          | String "," r' => parse_elements f r' (v :: acc)
          | String "]" r' => Some (JArr (rev (v :: acc)), r')
          | _ => None
          end
      | None => None
      end
  end
with parse_members (fuel : nat) (s : string) (acc : list (string * jsval))
  : option (jsval * string) :=
  match fuel with
  | O => None
  | S f =>
      match skip_ws s with
      | String "034" r =>
          match parse_string r with
          | Some (k, r1) =>
              match skip_ws r1 with
              | String ":" r2 =>
                  match parse_value f r2 with
                  | Some (v, r3) =>
                      match skip_ws r3 with
                      | String "," r' => parse_members f r' (obj_set k v acc)
                      | String "}" r' => Some (JObj (obj_set k v acc), r')
                      | _ => None
                      end
                  | None => None
                  end
              | _ => None
              end
          | None => None
          end
      | _ => None
      end
  end.

(** [JSON.parse(text)]; [None] stands for the SyntaxError it throws. *)
Definition parse (text : string) : option jsval :=
  match parse_value (2 * String.length text + 2) text with
  | Some (v, r) =>
      match skip_ws r with
      | EmptyString => Some v
      | String _ _ => None
      end
  | None => None
  end.

End Json.

(* ===================================================================== *)
(** * The asynchronous calls of the handlers *)
(* ===================================================================== *)

Module Eff.
Import Js.

(** Documents of the three Mongoose models the catalog engine reads or
    writes, with the fields it uses. Schema paths of type [String] hold a
    string or nothing. *)
Record ProductFileDoc := {
  pf_fileName : option string;
  pf_fileData : option string  (* Base64 encoded ZIP *)
}.

Record UserDoc := {
  wishlist : list string
}.

Record FileRef := {
  fileName : option string;
  fileData : option string
}.

Record OrderDoc := {
  user : string;
  downloadableFile : option FileRef;
  isProductOrder : bool;
  productIds : list string
}.

(** One constructor per awaited call; the index is the type of the value
    the promise resolves to. *)
Inductive op : Type -> Type :=
| ReadFile : op string
    (* fs.readFile(CONSTANT_FILE_PATH, 'utf-8') *)
| WriteFile (content : string) : op unit
    (* fs.writeFile(CONSTANT_FILE_PATH, content, 'utf-8') *)
| PF_create (productId : string) (fileName fileData : jsval) : op unit
    (* ProductFile.create({ productId, fileName, fileData }) *)
| PF_findOneAndUpdate (productId : string) (fileName fileData : jsval) : op unit
    (* ProductFile.findOneAndUpdate({ productId }, { fileName, fileData },
       { upsert: true }) *)
| PF_deleteOne (productId : string) : op unit
    (* ProductFile.deleteOne({ productId }) *)
| PF_findOne (productId : string) : op (option ProductFileDoc)
    (* ProductFile.findOne({ productId }) *)
| User_findById (id : string) : op (option UserDoc)
    (* User.findById(id).select('wishlist') *)
| Order_findById (id : string) : op (option OrderDoc).
    (* Order.findById(id) *)

(** A handler in flight: it has returned, it has thrown, or it is
    suspended at an [await] with the rest of its body as continuation. The
    code between two [await]s runs without interruption. *)
Inductive prog (A : Type) : Type :=
| Ret (a : A)
| Raise (message : string)
| Await {X : Type} (o : op X) (k : result X -> prog A).
Arguments Ret {A} a.
Arguments Raise {A} message.
Arguments Await {A X} o k.

Fixpoint bind {A B} (p : prog A) (f : A -> prog B) : prog B :=
  match p with
  | Ret a => f a
  | Raise m => Raise m
  | Await o k => Await o (fun r => bind (k r) f)
  end.

(** [try { p } catch (err) { h err.message }] *)
Fixpoint try_catch {A} (p : prog A) (h : string -> prog A) : prog A :=
  match p with
  | Ret a => Ret a
  | Raise m => h m
  | Await o k => Await o (fun r => try_catch (k r) h)
  end.

(** [await o]: a rejection is thrown at the [await]. *)
Definition await {X} (o : op X) : prog X :=
  Await o (fun r => match r with Ok x => Ret x | Throw m => Raise m end).

(** A synchronous computation that may throw *)
Definition lift {A} (r : result A) : prog A :=
  match r with
  | Ok a => Ret a
  | Throw m => Raise m
  end.

Notation "x <- p ;; q" := (bind p (fun x => q))
  (at level 100, p at next level, right associativity).
Notation "p ;;; q" := (bind p (fun _ => q))
  (at level 100, q at level 200, right associativity).

(** ** The stores *)

(** What the handlers share: the artifact and the three collections *)
Record World := {
  file : option string;                       (* constant.tsx, if it exists *)
  productFiles : gmap string ProductFileDoc;  (* unique index on productId *)
  users : gmap string UserDoc;                (* by _id *)
  orders : gmap string OrderDoc               (* by _id *)
}.

(** Record updates *)
Definition set_file (f : option string) (w : World) : World :=
  {| file := f; productFiles := productFiles w;
     users := users w; orders := orders w |}.

Definition set_productFiles (m : gmap string ProductFileDoc) (w : World) : World :=
  {| file := file w; productFiles := m; users := users w; orders := orders w |}.

(** Mongoose's cast of a value to a [String] path: [null] and [undefined]
    are stored as nothing, a string as it is, a number or a boolean as its
    text, an object with a string [_id] as that id; anything else is a
    CastError. *)
Definition cast_string (v : jsval) : result (option string) :=
  match v with
  | JUndefined | JNull => Ok None
  | JStr s => Ok (Some s)
  | JNum _ | JBool _ => Ok (Some (Json.to_string v))
  | JObj fs =>
      match obj_lookup "_id" fs with
      | Some (JStr s) => if truthy (JStr s) then Ok (Some s)
                         else Throw "Cast to string failed"
      | _ => Throw "Cast to string failed"
      end
  | JArr _ => Throw "Cast to string failed"
  end.

(** The two fields of [create] and of the upsert, cast *)
Definition cast_doc (fileName fileData : jsval) : result ProductFileDoc :=
  rbind (cast_string fileName) (fun fn =>
  rbind (cast_string fileData) (fun fd =>
  Ok {| pf_fileName := fn; pf_fileData := fd |})).

(** [findOneAndUpdate] sends the update as [$set], and Mongoose leaves out
    of it the fields that are [undefined]: such a field keeps the value the
    stored document has, and is absent from a document that the upsert
    inserts. [doc] holds the fields as cast, [old] is the stored document. *)
Definition set_defined (fileName fileData : jsval) (doc : ProductFileDoc)
    (old : option ProductFileDoc) : ProductFileDoc :=
  {| pf_fileName := match fileName with
                    | JUndefined => old ≫= pf_fileName
                    | _ => pf_fileName doc
                    end;
     pf_fileData := match fileData with
                    | JUndefined => old ≫= pf_fileData
                    | _ => pf_fileData doc
                    end |}.

(** An ObjectId in text: 24 hexadecimal digits. *)
Fixpoint all_hex (s : string) : bool :=
  match s with
  | EmptyString => true
  | String c s' =>
      match Json.hex_value c with
      | Some _ => all_hex s'
      | None => false
      end
  end.

Definition is_object_id (id : string) : bool :=
  Nat.eqb (String.length id) 24 && all_hex id.

Definition dquote : string := String "034" EmptyString.

(** The message of the CastError with which [findById] rejects a text that
    is no ObjectId *)
Definition cast_error (id model : string) : string :=
  "Cast to ObjectId failed for value " +:+ dquote +:+ id +:+ dquote +:+
  " (type string) at path " +:+ dquote +:+ "_id" +:+ dquote +:+
  " for model " +:+ dquote +:+ model +:+ dquote.

(** What the environment may do to a call. [Reject]: the promise rejects
    and nothing has changed. [RejectPartial n]: [fs.writeFile] rejects after
    it has opened the file for writing (flag [w], which truncates it) and
    written the first [n] bytes; for the other calls it is a plain
    rejection. *)
Inductive fault :=
| Reject (message : string)
| RejectPartial (written : nat) (message : string).

(** [err.message] of the rejection *)
Definition fault_message (f : fault) : string :=
  match f with
  | Reject m => m
  | RejectPartial _ m => m
  end.

(** The effect of a call that the environment lets through. *)
Definition perform {X} (o : op X) (w : World) : result X * World :=
  match o in op X return result X * World with
  | ReadFile =>
      match file w with
      | Some data => (Ok data, w)
      | None => (Throw "ENOENT: no such file or directory, open 'constant.tsx'", w)
      end
  | WriteFile content => (Ok tt, set_file (Some content) w)
  | PF_create productId fn fd =>
      match cast_doc fn fd with
      | Throw m => (Throw m, w)
      | Ok doc =>
          match productFiles w !! productId with
          | Some _ => (Throw "E11000 duplicate key error", w)
          | None => (Ok tt, set_productFiles (<[productId := doc]> (productFiles w)) w)
          end
      end
  | PF_findOneAndUpdate productId fn fd =>
      match cast_doc fn fd with
      | Throw m => (Throw m, w)
      | Ok doc =>
          let stored := set_defined fn fd doc (productFiles w !! productId) in
          (Ok tt, set_productFiles (<[productId := stored]> (productFiles w)) w)
      end
  | PF_deleteOne productId =>
      (Ok tt, set_productFiles (delete productId (productFiles w)) w)
  | PF_findOne productId => (Ok (productFiles w !! productId), w)
  | User_findById id => (Ok (users w !! id), w)
  | Order_findById id =>
      (* the collection is keyed by ObjectId: an id that is found is one;
         a text that is none is refused before any lookup *)
      match orders w !! id with
      | Some order => (Ok (Some order), w)
      | None =>
          if is_object_id id then (Ok None, w)
          else (Throw (cast_error id "Order"), w)
      end
  end.

(** A call that meets [f] *)
Definition exec {X} (o : op X) (f : option fault) (w : World) : result X * World :=
  match f with
  | None => perform o w
  | Some (Reject m) => (Throw m, w)
  | Some (RejectPartial n m) =>
      match o with
      | WriteFile content =>
          (Throw m, set_file (Some (String.substring 0 n content)) w)
      | _ => (Throw m, w)
      end
  end.

(** The calls a handler has issued, in program order. *)
Inductive event : Type :=
| Ev {X : Type} (o : op X).

(** ** One handler at a time

    [run p faults w] runs [p] to completion from [w]; the [i]-th call meets
    the [i]-th entry of [faults] (none when the list is exhausted). *)
Fixpoint run {A} (p : prog A) (faults : list (option fault)) (w : World)
  : result A * World * list event :=
  match p with
  | Ret a => (Ok a, w, [])
  | Raise m => (Throw m, w, [])
  | Await o k =>
      let '(r, w') := exec o (default None (head faults)) w in
      let '(res, w'', tr) := run (k r) (tail faults) w' in
      (res, w'', Ev o :: tr)
  end.

(** ** Two handlers in flight

    The event loop resumes one suspended handler at a time; a schedule says
    which ([true]: the first). A finished handler ignores its turn. *)
Definition step {A} (p : prog A) (w : World) : prog A * World :=
  match p with
  | Await o k => let '(r, w') := exec o None w in (k r, w')
  | _ => (p, w)
  end.

Fixpoint interleave {A B} (sched : list bool) (p : prog A) (q : prog B) (w : World)
  : prog A * prog B * World :=
  match sched with
  | [] => (p, q, w)
  | true :: s => let '(p', w') := step p w in interleave s p' q w'
  | false :: s => let '(q', w') := step q w in interleave s p q' w'
  end.


(** The outcome of a finished handler *)
Definition outcome {A} (p : prog A) : option (result A) :=
  match p with
  | Ret a => Some (Ok a)
  | Raise m => Some (Throw m)
  | Await _ _ => None
  end.

End Eff.

(* ===================================================================== *)
(** * The server: file helpers, middleware and routes *)
(* ===================================================================== *)

Module Server.
Import Text Js Json Eff.

(** ** File sync helpers for constant.tsx *)

(** The marker that precedes the collection in constant.tsx *)
Definition startMarker : string := "export const products = ".

(** The text between the marker and an optional final semicolon, if the
    marker is there *)
Definition jsonStr_of (data : string) : option string :=
  match indexOf startMarker data with
  | None => None
  | Some startIndex =>
      let jsonStr :=
        trim (substring_from (startIndex + String.length startMarker) data) in
      Some (if endsWith ";" jsonStr then slice_init jsonStr else jsonStr)
  end.

(** Any exception (the file cannot be read, the text cannot be parsed) is
    logged and answered with the empty array. *)
Definition readProductsFromConstant : prog jsval :=
  try_catch
    (data <- await ReadFile ;;
     match jsonStr_of data with
     | None => Ret (JArr [])
     | Some jsonStr =>
         (* Attempt to parse. Replace common manual entry errors like
            trailing commas *)
         match parse (cleanedJson jsonStr) with
         | Some v => Ret v
         | None => Raise "Unexpected token in JSON"
         end
     end)
    (fun _ => Ret (JArr [])).

(** The text [writeProductsToConstant] writes for [products] *)
Definition content_of (products : jsval) : string :=
  "export const products = " +:+ stringify products +:+ ";".

(** A failure is logged and thrown again. *)
Definition writeProductsToConstant (products : jsval) : prog unit :=
  try_catch
    (await (WriteFile (content_of products)) ;;;
     (* the log line reads products.length *)
     lift (get products "length") ;;;
     Ret tt)
    (fun m => Raise m).

(** ** Responses *)

Inductive response :=
| RJson (status : nat) (body : jsval)      (* res.status(status).json(body) *)
| RStatus (status : nat)                   (* res.sendStatus / status().send() *)
| RZip (fileName : string) (fileData : string).
    (* an application/zip attachment named fileName; fileData is the Base64
       text handed to Buffer.from *)

(** [{ message }] and [{ message, error }] *)
Definition message (m : string) : jsval := JObj [("message", JStr m)].

Definition message_error (m e : string) : jsval :=
  JObj [("message", JStr m); ("error", JStr e)].

(** ** Authentication middleware

    Token verification is a black box: the Authorization header carries no
    token, one that [jwt.verify] refuses, or one it decodes to a payload. *)
Record Identity := {
  user_id : string;
  user_role : string
}.

Inductive credential :=
| NoToken
| InvalidToken
| Token (payload : Identity).

Definition authenticateToken (c : credential) (next : Identity -> prog response)
  : prog response :=
  match c with
  | NoToken => Ret (RStatus 401)
  | InvalidToken => Ret (RStatus 403)
  | Token u => next u
  end.

Definition authenticateAdmin (u : Identity) (next : prog response) : prog response :=
  if negb (String.eqb (user_role u) "admin")
  then Ret (RJson 403 (message "Forbidden: Admin access required."))
  else next.

(** The [req.user] that [addUserToRequest] leaves *)
Definition addUserToRequest (c : credential) : option Identity :=
  match c with
  | Token u => Some u
  | NoToken | InvalidToken => None
  end.

(** ** Array methods on a parsed value *)

(** [v.name(...)] for an array method: the elements of [v], or the
    TypeError of calling it on something that is not an array. *)
Definition array_method (v : jsval) (name : string) : result (list jsval) :=
  match v with
  | JArr l => Ok l
  | JUndefined =>
      Throw ("Cannot read properties of undefined (reading '" +:+ name +:+ "')")
  | JNull =>
      Throw ("Cannot read properties of null (reading '" +:+ name +:+ "')")
  | _ => Throw ("products." +:+ name +:+ " is not a function")
  end.

(** [l.findIndex(p => p.id === id)] *)
Fixpoint findIndex (id : string) (l : list jsval) : result (option nat) :=
  match l with
  | [] => Ok None
  | p :: l' =>
      rbind (get p "id") (fun v =>
      if strict_eq_string v id then Ok (Some 0)
      else rbind (findIndex id l') (fun r => Ok (S <$> r)))
  end.

(** [l.map(f)] for a callback that may throw *)
Fixpoint map_result {A B} (f : A -> result B) (l : list A) : result (list B) :=
  match l with
  | [] => Ok []
  | x :: l' =>
      rbind (f x) (fun y => rbind (map_result f l') (fun ys => Ok (y :: ys)))
  end.

(** [l.filter(f)] for a callback that may throw *)
Fixpoint filter_result {A} (f : A -> result bool) (l : list A) : result (list A) :=
  match l with
  | [] => Ok []
  | x :: l' =>
      rbind (f x) (fun b =>
      rbind (filter_result f l') (fun ys => Ok (if b then x :: ys else ys)))
  end.

(** [wishlistSet.has(v)] for a set of strings *)
Definition has (wishlistSet : list string) (v : jsval) : bool :=
  match v with
  | JStr s => bool_decide (s ∈ wishlistSet)
  | _ => false
  end.

(** ** Products (read from constant.tsx): GET /api/products *)

Definition with_wishlisted (p : jsval) (b : bool) : jsval :=
  JObj (obj_set "wishlisted" (JBool b) (spread p)).

Definition listProducts (c : credential) : prog response :=
  try_catch
    (products <- readProductsFromConstant ;;
     match addUserToRequest c with
     | Some req_user =>
         user <- await (User_findById (user_id req_user)) ;;
         let wishlistSet :=
           match user with Some u => wishlist u | None => [] end in
         l <- lift (array_method products "map") ;;
         productDocs <- lift (map_result (fun p =>
             rbind (get p "id") (fun pid =>
             Ok (with_wishlisted p (has wishlistSet pid)))) l) ;;
         Ret (RJson 200 (JArr productDocs))
     | None =>
         l <- lift (array_method products "map") ;;
         Ret (RJson 200 (JArr (map (fun p => with_wishlisted p false) l)))
     end)
    (fun m => Ret (RJson 500 (message_error "Error fetching products" m))).

(** ** Add product (metadata to constant.tsx, ZIP to Mongo):
       POST /api/products

    [productId] is the value [crypto.randomUUID()] returns in this call. *)

Definition has_fileData (downloadableFile : jsval) : bool :=
  truthy downloadableFile && truthy (get_opt downloadableFile "fileData").

Definition newProduct_of (productId : string)
    (title description features images price category type downloadableFile : jsval)
  : jsval :=
  JObj [ ("id", JStr productId);
         ("title", title);
         ("description", description);
         ("features", array_or_empty features);
         ("images", array_or_empty images);
         ("price", JNum (parseFloat price));
         ("category", category);
         ("type", or_else type (JStr "dashboard"));
         ("downloadableFileName",
            or_else (get_opt downloadableFile "fileName") JNull) ].

(** [!title || !description || !images || !price || !category] *)
Definition missing_required (title description images price category : jsval)
  : bool :=
  negb (truthy title) || negb (truthy description) || negb (truthy images)
  || negb (truthy price) || negb (truthy category).

Definition addProduct (c : credential) (body : jsval) (productId : string)
  : prog response :=
  authenticateToken c (fun req_user =>
  authenticateAdmin req_user (
  try_catch
    (title <- lift (get body "title") ;;
     description <- lift (get body "description") ;;
     features <- lift (get body "features") ;;
     images <- lift (get body "images") ;;
     price <- lift (get body "price") ;;
     category <- lift (get body "category") ;;
     type <- lift (get body "type") ;;
     downloadableFile <- lift (get body "downloadableFile") ;;
     if missing_required title description images price category
     then Ret (RJson 400 (message "Missing required product fields"))
     else
       products <- readProductsFromConstant ;;
       (* 1. Store ZIP in MongoDB if present *)
       (if has_fileData downloadableFile
        then await (PF_create productId (get_opt downloadableFile "fileName")
                                        (get_opt downloadableFile "fileData"))
        else Ret tt) ;;;
       (* 2. Prepare metadata for constant.tsx *)
       let newProduct :=
         newProduct_of productId title description features images price
                       category type downloadableFile in
       l <- lift (array_method products "unshift") ;;
       writeProductsToConstant (JArr (newProduct :: l)) ;;;
       Ret (RJson 201 newProduct))
    (fun m => Ret (RJson 500 (message_error "Error adding product" m))))).

(** ** Update product: PUT /api/products/:id *)

Definition updateProduct (c : credential) (id : string) (body : jsval)
  : prog response :=
  authenticateToken c (fun req_user =>
  authenticateAdmin req_user (
  try_catch
    (downloadableFile <- lift (get body "downloadableFile") ;;
     let metadata := obj_remove "downloadableFile" (own_props body) in
     products <- readProductsFromConstant ;;
     l <- lift (array_method products "findIndex") ;;
     index <- lift (findIndex id l) ;;
     match index with
     | None => Ret (RJson 404 (message "Product not found"))
     | Some index =>
         (* 1. Update ZIP in MongoDB if new data provided *)
         metadata <-
           (if has_fileData downloadableFile then
              await (PF_findOneAndUpdate id (get_opt downloadableFile "fileName")
                                            (get_opt downloadableFile "fileData")) ;;;
              Ret (obj_set "downloadableFileName"
                           (get_opt downloadableFile "fileName") metadata)
            else if is_null downloadableFile then
              (* If null explicitly sent, remove file *)
              await (PF_deleteOne id) ;;;
              Ret (obj_set "downloadableFileName" JNull metadata)
            else Ret metadata) ;;
         (* 2. Update constant.tsx *)
         let updatedProduct :=
           JObj (obj_set "id" (JStr id)   (* Ensure ID never changes *)
                   (assign (spread (default JUndefined (l !! index))) metadata)) in
         writeProductsToConstant (JArr (<[index := updatedProduct]> l)) ;;;
         Ret (RJson 200 updatedProduct)
     end)
    (fun m => Ret (RJson 500 (message_error "Error updating product" m))))).

(** ** Delete product: DELETE /api/products/:id *)

Definition deleteProduct (c : credential) (id : string) : prog response :=
  authenticateToken c (fun req_user =>
  authenticateAdmin req_user (
  try_catch
    ((* 1. Remove ZIP from Mongo *)
     await (PF_deleteOne id) ;;;
     (* 2. Remove from constant.tsx *)
     products <- readProductsFromConstant ;;
     l <- lift (array_method products "filter") ;;
     filtered <- lift (filter_result (fun p =>
         rbind (get p "id") (fun v => Ok (negb (strict_eq_string v id)))) l) ;;
     writeProductsToConstant (JArr filtered) ;;;
     Ret (RStatus 204))
    (fun m => Ret (RJson 500 (message_error "Error deleting product" m))))).

(** ** Downloads (from MongoDB): GET /api/orders/:id/download *)

(** Truthiness of a [String] path *)
Definition str_truthy (s : option string) : bool :=
  match s with
  | Some t => negb (String.eqb t "")
  | None => false
  end.

(** [fileName || 'download.zip'] *)
Definition attachment_name (fileName : option string) : string :=
  if str_truthy fileName then default "" fileName else "download.zip".

(** [res.setHeader] refuses a value with a character outside TAB, U+0020 to
    U+007E and U+0080 to U+00FF (it throws ERR_INVALID_CHAR). In the bytes
    of the text: 0x09, 0x20 to 0x7E, and the two-byte sequences that start
    with 0xC2 or 0xC3. *)
Fixpoint header_safe (s : string) : bool :=
  match s with
  | EmptyString => true
  | String c s' =>
      let n := N_of_ascii c in
      if (n =? 9)%N || ((32 <=? n)%N && (n <=? 126)%N) then header_safe s'
      else if (n =? 194)%N || (n =? 195)%N then
        match s' with
        | String c' s'' =>
            let n' := N_of_ascii c' in
            (128 <=? n')%N && (n' <=? 191)%N && header_safe s''
        | EmptyString => false
        end
      else false
  end.

(** The message of the TypeError that [setHeader] throws *)
Definition invalid_header : string :=
  "Invalid character in header content [" +:+ String "034" "Content-Disposition"
  +:+ String "034" "]".

Definition downloadOrder (c : credential) (id : string) : prog response :=
  authenticateToken c (fun req_user =>
  try_catch
    (order <- await (Order_findById id) ;;
     match order with
     | None => Ret (RJson 404 (message "Order not found"))
     | Some order =>
         (* Auth check *)
         if negb (String.eqb (user order) (user_id req_user))
            && negb (String.eqb (user_role req_user) "admin")
         then Ret (RStatus 403)
         else
           found <-
             (* If order has a custom file attached *)
             (if str_truthy (downloadableFile order ≫= fileData) then
                Ret (downloadableFile order ≫= fileName,
                     downloadableFile order ≫= fileData)
              else
                (* Otherwise look up product ZIPs from MongoDB *)
                let productsInOrder :=
                  if isProductOrder order then productIds order else [] in
                match productsInOrder with
                | first :: _ =>
                    firstProductFile <- await (PF_findOne first) ;;
                    match firstProductFile with
                    | Some doc => Ret (pf_fileName doc, pf_fileData doc)
                    | None => Ret (None, None)
                    end
                | [] => Ret (None, None)
                end) ;;
           let '(fileName, fileData) := found in
           if negb (str_truthy fileData)
           then Ret (RJson 404 (message "No deliverable file found."))
           else
             (* res.setHeader('Content-Disposition', ...) *)
             if header_safe (attachment_name fileName)
             then Ret (RZip (attachment_name fileName) (default "" fileData))
             else Raise invalid_header
     end)
    (fun m => Ret (RJson 500 (message_error "Download failure" m)))).

End Server.

(* ===================================================================== *)
(** * Data transformation *)
(* ===================================================================== *)

Module Transform.
Import Js Json.

(** The argument of the two functions is the plain object that
    [doc.toObject()] returns, given by its property list. An ObjectId is
    represented by its hexadecimal text, which is what its [toString()]
    gives. *)

(** [v.toString()] *)
Definition toString (v : jsval) : result string :=
  match v with
  | JUndefined =>
      Throw "Cannot read properties of undefined (reading 'toString')"
  | JNull => Throw "Cannot read properties of null (reading 'toString')"
  | _ => Ok (to_string v)
  end.

(** [typeof v === 'object' && !Array.isArray(v)], for a truthy [v] *)
Definition is_plain_object (v : jsval) : bool :=
  match v with
  | JObj _ => true
  | _ => false
  end.

(** [delete v.k]: removes an own property of an object and does nothing
    to any other value (none of the keys deleted here is a property of an
    array or of a string). *)
Definition delete_prop (k : string) (v : jsval) : jsval :=
  match v with
  | JObj fs => JObj (obj_remove k fs)
  | _ => v
  end.

Definition transformUser (userObj : list (string * jsval))
  : result (list (string * jsval)) :=
  rbind (toString (default JUndefined (obj_lookup "_id" userObj))) (fun id =>
  let userObj := obj_set "id" (JStr id) userObj in
  let userObj := obj_remove "_id" userObj in
  let userObj := obj_remove "__v" userObj in
  let userObj := obj_remove "password" userObj in
  Ok userObj).

Definition transformOrder (orderObj : list (string * jsval))
  : result (list (string * jsval)) :=
  rbind (toString (default JUndefined (obj_lookup "_id" orderObj))) (fun id =>
  let orderObj := obj_set "id" (JStr id) orderObj in
  let user := default JUndefined (obj_lookup "user" orderObj) in
  let orderObj :=
    if truthy user && is_plain_object user then
      obj_set "user"
        (delete_prop "password" (delete_prop "__v" (delete_prop "_id" user)))
        orderObj
    else orderObj in
  let downloadableFile :=
    default JUndefined (obj_lookup "downloadableFile" orderObj) in
  let orderObj :=
    if truthy downloadableFile then
      let orderObj :=
        obj_set "downloadableFileName" (get_opt downloadableFile "fileName")
                orderObj in
      (* Don't send heavy data in list *)
      obj_set "downloadableFile" (delete_prop "fileData" downloadableFile)
              orderObj
    else orderObj in
  let orderObj := obj_remove "_id" orderObj in
  let orderObj := obj_remove "__v" orderObj in
  Ok orderObj).

End Transform.

(* ===================================================================== *)
(** * The vocabulary of the statements *)
(* ===================================================================== *)

Module Vocabulary.
Import Text Js Json Eff Server.

(** [s] is a run of white-space characters. *)
Inductive spaces : string -> Prop :=
| spaces_nil : spaces EmptyString
| spaces_one c s : ascii_space c = true -> spaces s -> spaces (String c s)
| spaces_two c1 c2 s :
    space2 c1 c2 = true -> spaces s -> spaces (String c1 (String c2 s))
| spaces_three c1 c2 c3 s :
    space3 c1 c2 c3 = true -> spaces s ->
    spaces (String c1 (String c2 (String c3 s))).


(** [s] holds no comma. *)
Fixpoint no_comma (s : string) : bool :=
  match s with
  | EmptyString => true
  | String c s' => negb (Ascii.eqb c ",") && no_comma s'
  end.

(** The key is no array index. *)
Definition is_name (k : string) : bool :=
  match array_index k with
  | Some _ => false
  | None => true
  end.

(** The keys are in property order: the array indices first, ascending
    (and above [lo]), then the other keys. *)
Fixpoint key_order (lo : option N) (ks : list string) : bool :=
  match ks with
  | [] => true
  | k :: ks' =>
      match array_index k with
      | Some n =>
          match lo with Some m => (m <? n)%N | None => true end
          && key_order (Some n) ks'
      | None => forallb is_name ks'
      end
  end.

(** A value as the engine holds it: in every object the keys are
    distinct and in property order. *)
Fixpoint ordered (v : jsval) : bool :=
  match v with
  | JArr l => forallb ordered l
  | JObj fs =>
      bool_decide (NoDup fs.*1) && key_order None fs.*1
      && forallb (fun kv => ordered kv.2) fs
  | _ => true
  end.


(** What [readProductsFromConstant] makes of the text of the artifact *)
Definition read_value (data : string) : jsval :=
  match jsonStr_of data with
  | None => JArr []
  | Some jsonStr => default (JArr []) (parse (cleanedJson jsonStr))
  end.

(** What it returns in world [w] when the read meets [f] *)
Definition read_result (f : option fault) (w : World) : jsval :=
  match f, file w with
  | None, Some data => read_value data
  | _, _ => JArr []
  end.

(** The world after [fs.writeFile] has met [f] *)
Definition after_write (content : string) (f : option fault) (w : World) : World :=
  match f with
  | None => set_file (Some content) w
  | Some (Reject _) => w
  | Some (RejectPartial n _) => set_file (Some (String.substring 0 n content)) w
  end.

(** The fault that the [i]-th call of a run meets *)
Definition fault_at (faults : list (option fault)) (i : nat) : option fault :=
  default None (faults !! i).

(** The value of a body field: [undefined] when the body has no such key *)
Definition field (fs : list (string * jsval)) (k : string) : jsval :=
  default JUndefined (obj_lookup k fs).

(** The last part of an Add: [unshift] and the write, meeting [f] *)
Definition add_finish (products newProduct : jsval) (f : option fault)
    (w : World) (tr : list event) : result response * World * list event :=
  match array_method products "unshift" with
  | Throw m => (Ok (RJson 500 (message_error "Error adding product" m)), w, tr)
  | Ok l =>
      let content := content_of (JArr (newProduct :: l)) in
      (Ok (match f with
           | None => RJson 201 newProduct
           | Some f =>
               RJson 500 (message_error "Error adding product" (fault_message f))
           end),
       after_write content f w, tr ++ [Ev (WriteFile content)])
  end.

(** [{ ...old, ...metadata, id }] *)
Definition updated_of (id : string) (old : jsval) (metadata : list (string * jsval))
  : jsval :=
  JObj (obj_set "id" (JStr id) (assign (spread old) metadata)).

(** The last part of an Update: the merge and the write, meeting [f] *)
Definition update_finish (l : list jsval) (index : nat) (id : string)
    (metadata : list (string * jsval)) (f : option fault) (w : World)
    (tr : list event) : result response * World * list event :=
  let updatedProduct := updated_of id (default JUndefined (l !! index)) metadata in
  let content := content_of (JArr (<[index := updatedProduct]> l)) in
  (Ok (match f with
       | None => RJson 200 updatedProduct
       | Some f =>
           RJson 500 (message_error "Error updating product" (fault_message f))
       end),
   after_write content f w, tr ++ [Ev (WriteFile content)]).


(** A field is missing when the body has no such key, or holds [null] or
    the empty string. *)
Definition missing (v : jsval) : Prop :=
  v = JUndefined \/ v = JNull \/ v = JStr "".

(** The types of the data model. [title], [description], [category]: a
    text, if present *)
Definition text_field (v : jsval) : Prop :=
  match v with
  | JUndefined | JNull | JStr _ => True
  | _ => False
  end.

(** [images]: a sequence, if present *)
Definition sequence_field (v : jsval) : Prop :=
  match v with
  | JUndefined | JNull | JArr _ => True
  | _ => False
  end.

(** [price]: a number other than zero or a text, if present *)
Definition price_field (v : jsval) : Prop :=
  match v with
  | JUndefined | JNull | JStr _ | JNum (Inf _) => True
  | JNum (Dec m _) => m <> 0%Z
  | _ => False
  end.

(** The condition for a refusal as the specification words it: [title],
    [description], [images] (which must be non-empty), [price] or
    [category] is missing. *)
Definition spec_missing_required (fs : list (string * jsval)) : Prop :=
  missing (field fs "title") \/ missing (field fs "description")
  \/ (missing (field fs "images") \/ field fs "images" = JArr [])
  \/ missing (field fs "price") \/ missing (field fs "category").

(** The fields the handler merges: the body without [downloadableFile],
    with [downloadableFileName] as the payload handling sets it *)
Definition merged_fields (fs : list (string * jsval)) : list (string * jsval) :=
  let downloadableFile := field fs "downloadableFile" in
  let metadata := obj_remove "downloadableFile" fs in
  if has_fileData downloadableFile then
    obj_set "downloadableFileName" (get_opt downloadableFile "fileName") metadata
  else if is_null downloadableFile then
    obj_set "downloadableFileName" JNull metadata
  else metadata.

(** The blob store after the payload handling of an Update that no fault
    meets *)
Definition payload_step (id : string) (fs : list (string * jsval))
    (m : gmap string ProductFileDoc) : gmap string ProductFileDoc :=
  let downloadableFile := field fs "downloadableFile" in
  if has_fileData downloadableFile then
    match cast_doc (get_opt downloadableFile "fileName")
                   (get_opt downloadableFile "fileData") with
    | Ok doc =>
        <[id := set_defined (get_opt downloadableFile "fileName")
                            (get_opt downloadableFile "fileData") doc (m !! id)]> m
    | Throw _ => m
    end
  else if is_null downloadableFile then delete id m
  else m.

(** The calls the payload handling of an Update makes *)
Definition payload_calls (id : string) (fs : list (string * jsval)) : list event :=
  let downloadableFile := field fs "downloadableFile" in
  if has_fileData downloadableFile then
    [Ev (PF_findOneAndUpdate id (get_opt downloadableFile "fileName")
                                (get_opt downloadableFile "fileData"))]
  else if is_null downloadableFile then [Ev (PF_deleteOne id)]
  else [].

(** A parsed object never has a key twice. *)
Definition record (v : jsval) : Prop :=
  match v with
  | JObj fs => NoDup fs.*1
  | _ => True
  end.

End Vocabulary.

(* ===================================================================== *)
(** * Sample requests and worlds *)
(* ===================================================================== *)

Module Scenario.
Import Text Js Json Eff Server Vocabulary.

(** A world that holds nothing but the artifact *)
Definition world_of_file (f : option string) : World :=
  {| file := f; productFiles := ∅; users := ∅; orders := ∅ |}.

(** The credential of an administrator *)
Definition admin : credential :=
  Token {| user_id := "64b7f1c2a9e4d3001f2e8a10"; user_role := "admin" |}.

(** The body of an Add without payload *)
Definition body_of (title : string) (images : jsval) (price : number) : jsval :=
  JObj [ ("title", JStr title); ("description", JStr "A dashboard");
         ("images", images); ("price", JNum price);
         ("category", JStr "web") ].



(** A product order for [p1] and [p2], owned by [owner], in a world whose
    blob store holds a file for [p2] only *)
Definition order_p1_p2 : OrderDoc :=
  {| user := "64b7f1c2a9e4d3001f2e8a77"; downloadableFile := None;
     isProductOrder := true; productIds := ["p1"; "p2"] |}.

Definition world_p2_blob : World :=
  {| file := None;
     productFiles := {[ "p2" := {| pf_fileName := Some "p2.zip";
                                   pf_fileData := Some "UEsDBAoAAAAAAA==" |} ]};
     users := ∅;
     orders := {[ "64c0a1b2c3d4e5f601234567" := order_p1_p2 ]} |}.

Definition owner : Identity :=
  {| user_id := "64b7f1c2a9e4d3001f2e8a77"; user_role := "customer" |}.

(** A catalog of one product, with its blob *)
Definition product_a : jsval :=
  JObj [ ("id", JStr "id-a"); ("title", JStr "Alpha");
         ("description", JStr "A dashboard"); ("features", JArr []);
         ("images", JArr [JStr "a.png"]); ("price", JNum (Dec 12 0));
         ("category", JStr "web"); ("type", JStr "dashboard");
         ("downloadableFileName", JStr "a.zip") ].

Definition world_a : World :=
  {| file := Some (content_of (JArr [product_a]));
     productFiles := {[ "id-a" := {| pf_fileName := Some "a.zip";
                                     pf_fileData := Some "UEsDBAoAAAAAAA==" |} ]};
     users := ∅; orders := ∅ |}.

End Scenario.

(* ===================================================================== *)
(** * Further notions: queries, turns, the calls of a trace *)
(* ===================================================================== *)

Module Notions.
Import Text Js Json Eff Server Vocabulary.

(** The call reads a store and writes none. *)
Definition is_query {X} (o : op X) : bool :=
  match o with
  | ReadFile | PF_findOne _ | User_findById _ | Order_findById _ => true
  | _ => false
  end.

(** Every call the handler can issue, whatever the answers, is a query. *)
Fixpoint read_only {A} (p : prog A) : Prop :=
  match p with
  | Await o k => is_query o = true /\ forall r, read_only (k r)
  | _ => True
  end.

(** [n] turns of a handler that runs alone *)
Fixpoint advance {A} (n : nat) (p : prog A) (w : World) : prog A * World :=
  match n with
  | O => (p, w)
  | S k => let '(p', w') := step p w in advance k p' w'
  end.

(** The turns a schedule gives to the second handler *)
Definition turns_of_second (sched : list bool) : nat :=
  length (filter (fun b => b = false) sched).

(** The event is a query. *)
Definition query_event (e : event) : Prop :=
  match e with
  | Ev o => is_query o = true
  end.

(** The body of an Add has the five required fields and no payload with
    data. *)
Definition plain_add (fs : list (string * jsval)) : Prop :=
  missing_required (field fs "title") (field fs "description")
    (field fs "images") (field fs "price") (field fs "category") = false
  /\ has_fileData (field fs "downloadableFile") = false.

(** The record an Add of body [fs] stores under [productId] *)
Definition new_record (productId : string) (fs : list (string * jsval)) : jsval :=
  newProduct_of productId (field fs "title") (field fs "description")
    (field fs "features") (field fs "images") (field fs "price")
    (field fs "category") (field fs "type") (field fs "downloadableFile").

(** The record carries the id. *)
Definition has_id (id : string) (p : jsval) : Prop := get p "id" = Ok (JStr id).

(** The record can be read and carries another id. *)
Definition other_id (id : string) (p : jsval) : Prop :=
  exists v, get p "id" = Ok v /\ v <> JStr id.

(** The caller is no administrator: no token, a refused token, or a
    token of another role. *)
Definition not_admin (c : credential) : Prop :=
  match c with
  | Token u => user_role u <> "admin"
  | NoToken | InvalidToken => True
  end.

(** The answer of the two middlewares to such a caller *)
Definition refusal (c : credential) : response :=
  match c with
  | NoToken => RStatus 401
  | InvalidToken => RStatus 403
  | Token _ => RJson 403 (message "Forbidden: Admin access required.")
  end.

(** A record of the catalog: an object, with no key twice *)
Definition object_record (v : jsval) : Prop :=
  match v with
  | JObj fs => NoDup fs.*1
  | _ => False
  end.

(** The validation of an Add lets the body through. *)
Definition valid_add (fs : list (string * jsval)) : Prop :=
  missing_required (field fs "title") (field fs "description")
    (field fs "images") (field fs "price") (field fs "category") = false.

(** The call that stores the payload of an Add *)
Definition put_of (productId : string) (fs : list (string * jsval)) : op unit :=
  PF_create productId (get_opt (field fs "downloadableFile") "fileName")
                      (get_opt (field fs "downloadableFile") "fileData").

(** The calls the payload handling of an Add makes *)
Definition put_calls (productId : string) (fs : list (string * jsval)) : list event :=
  if has_fileData (field fs "downloadableFile") then [Ev (put_of productId fs)]
  else [].

(** The world after the payload handling of an Add that no fault meets *)
Definition after_put (productId : string) (fs : list (string * jsval)) (w : World)
  : World :=
  if has_fileData (field fs "downloadableFile")
  then (perform (put_of productId fs) w).2
  else w.

(** The blob store takes the payload, if there is one. *)
Definition put_accepted (productId : string) (fs : list (string * jsval))
    (w : World) : Prop :=
  has_fileData (field fs "downloadableFile") = true ->
  (perform (put_of productId fs) w).1 = Ok tt.

(** The artifact does not read as a sequence. *)
Definition not_a_sequence (v : jsval) : Prop := forall l, v <> JArr l.

(** The text of the artifact cannot be made into a value: the marker is
    missing, or what follows it does not parse after the clean-up. *)
Definition unreadable (data : string) : Prop :=
  match jsonStr_of data with
  | None => True
  | Some jsonStr => parse (cleanedJson jsonStr) = None
  end.

(** The records of [l] whose [id] is not [id], in the order of [l] *)
Definition without (id : string) (l : list jsval) : list jsval :=
  List.filter (fun p => negb (strict_eq_string (get_opt p "id") id)) l.

(** The last part of a Delete: the filter and the write, meeting [f] *)
Definition delete_finish (id : string) (products : jsval) (f : option fault)
    (w : World) : result response * World * list event :=
  match rbind (array_method products "filter")
              (filter_result (fun p =>
                 rbind (get p "id") (fun v => Ok (negb (strict_eq_string v id))))) with
  | Throw m =>
      (Ok (RJson 500 (message_error "Error deleting product" m)), w,
       [Ev (PF_deleteOne id); Ev ReadFile])
  | Ok filtered =>
      let content := content_of (JArr filtered) in
      (Ok (match f with
           | None => RStatus 204
           | Some f =>
               RJson 500 (message_error "Error deleting product" (fault_message f))
           end),
       after_write content f w,
       [Ev (PF_deleteOne id); Ev ReadFile; Ev (WriteFile content)])
  end.


(** The blob store accepts the payload of an Update, if it has data. *)
Definition payload_accepted (fs : list (string * jsval)) : Prop :=
  has_fileData (field fs "downloadableFile") = true ->
  exists doc, cast_doc (get_opt (field fs "downloadableFile") "fileName")
                       (get_opt (field fs "downloadableFile") "fileData") = Ok doc.

(** Every field of [fs] is held by [fso] with the same value. *)
Definition restates (fs fso : list (string * jsval)) : Prop :=
  Forall (fun kv => obj_lookup kv.1 fso = Some kv.2) fs.

(** The caller may download the order: they own it or are an
    administrator. *)
Definition may_download (u : Identity) (order : OrderDoc) : Prop :=
  user order = user_id u \/ user_role u = "admin".

(** Some comma of [s] is followed by white space, if any, and then [d]:
    the pattern [,\s*d] has a match in [s]. *)
Fixpoint comma_before (d : ascii) (s : string) : bool :=
  match s with
  | EmptyString => false
  | String c s' =>
      (Ascii.eqb c "," && match match_spaces_then d s' with
                          | Some _ => true
                          | None => false
                          end)
      || comma_before d s'
  end.

End Notions.

(* ===================================================================== *)
(** * Values that the artifact holds as they are *)
(* ===================================================================== *)

Module Stored.
Import Text Js Json Eff Server Vocabulary Notions.

(** The value of a run of decimal digits, continuing from [acc] *)
Fixpoint digits_value (acc : Z) (s : string) : Z :=
  match s with
  | EmptyString => acc
  | String c s' =>
      match Ascii.is_nat c with
      | Some d => digits_value (10 * acc + Z.of_nat d)%Z s'
      | None => acc
      end
  end.

(** [s] holds decimal digits only. *)
Fixpoint all_digits (s : string) : bool :=
  match s with
  | EmptyString => true
  | String c s' =>
      match Ascii.is_nat c with
      | Some _ => all_digits s'
      | None => false
      end
  end.

(** What may follow a value in a serialized text: nothing, a comma or a
    line feed *)
Definition closed (rest : string) : Prop :=
  match rest with
  | EmptyString => True
  | String c _ => c = ","%char \/ c = "010"%char
  end.

(** The part of [parse_number] after the sign *)
Definition number_body (neg : bool) (s1 : string) : option (jsval * string) :=
  let sign (z : Z) := if neg then (- z)%Z else z in
  let '(ip, ilen, s2) := scan_digits 0 0 s1 in
  match ilen with
  | O => None
  | S O | S (S _) =>
      if Nat.ltb 1 ilen && String.prefix "0" s1 then None
      else
        match s2 with
        | String "." r =>
            let '(fp, flen, s3) := scan_digits ip 0 r in
            match flen with
            | O => None
            | S _ =>
                let '(ex, s4) := scan_exponent s3 in
                Some (JNum (to_number (sign fp) (ex - Z.of_nat flen)), s4)
            end
        | _ =>
            let '(ex, s4) := scan_exponent s2 in
            Some (JNum (to_number (sign ip) ex), s4)
        end
  end.

Definition number_eqb (x y : number) : bool :=
  match x, y with
  | NaN, NaN => true
  | Inf a, Inf b => Bool.eqb a b
  | Dec m e, Dec m' e' => (m =? m')%Z && (e =? e')%Z
  | _, _ => false
  end.

(** A finite number that [JSON.stringify] prints without exponent: a
    decimal that stands for a binary64 value (it is the one kept for the
    value it reads as), with its decimal point in the range that
    Number::toString prints in full. *)
Definition plain_number (x : number) : bool :=
  match x with
  | Dec m e =>
      if (m =? 0)%Z then (e =? 0)%Z
      else
        let n := (Z.of_nat (String.length (digits_of (Z.abs m))) + e)%Z in
        negb (m mod 10 =? 0)%Z && (-6 <? n)%Z && (n <=? 21)%Z
        && number_eqb (binary64 x) x
  | _ => false
  end.

(** The text of a finite number other than zero, without its sign: the
    part of [number_to_string] after the sign, on the absolute value. *)
Definition unsigned_text (a e : Z) : string :=
  let s := digits_of a in
  let k := Z.of_nat (String.length s) in
  let n := (k + e)%Z in
  if (k <=? n)%Z && (n <=? 21)%Z then s +:+ zeros (Z.to_nat (n - k))
  else if (0 <? n)%Z && (n <=? 21)%Z then
    String.substring 0 (Z.to_nat n) s +:+ "." +:+
    Text.substring_from (Z.to_nat n) s
  else if (-6 <? n)%Z && (n <=? 0)%Z then
    "0." +:+ zeros (Z.to_nat (- n)) +:+ s
  else
    let ex := (n - 1)%Z in
    match s with
    | String c EmptyString => s
    | String c r => String c ("." +:+ r)
    | EmptyString => EmptyString
    end +:+ "e" +:+ (if (0 <=? ex)%Z then "+" else "-") +:+
    digits_of (Z.abs ex).

(** A character at which a serialized value may start *)
Definition value_start (c : ascii) : bool :=
  match c with
  | "[" | "{" | "034" | "-" | "n" | "t" | "f" => true
  | _ => match Ascii.is_nat c with Some _ => true | None => false end
  end%char.

(** A text in whose JSON form no comma is followed by white space and a
    closing bracket or brace *)
Definition plain_text (s : string) : bool :=
  negb (comma_before "]" (escape s)) && negb (comma_before "}" (escape s)).

(** A value that the artifact holds as it is: no [undefined], no number
    that is not finite or is printed with an exponent, no text and no key
    that the clean-up would alter, no key twice, the keys of every
    object in property order. *)
Fixpoint storable (v : jsval) : bool :=
  match v with
  | JUndefined => false
  | JNull | JBool _ => true
  | JNum x => plain_number x
  | JStr s => plain_text s
  | JArr l => forallb storable l
  | JObj fs =>
      bool_decide (NoDup fs.*1) && key_order None fs.*1
      && forallb (fun kv => plain_text kv.1 && storable kv.2) fs
  end.

(** The number of values in [v] *)
Fixpoint size (v : jsval) : nat :=
  match v with
  | JArr l => S (list_sum (map (fun x => S (size x)) l))
  | JObj fs => S (list_sum (map (fun kv => S (size kv.2)) fs))
  | _ => 1
  end.

(** An indentation: spaces only *)
Fixpoint blank (s : string) : bool :=
  match s with
  | EmptyString => true
  | String c s' => Ascii.eqb c " " && blank s'
  end.

(** The text of a member of an object *)
Definition member_text (inner : string) (kv : string * jsval) : string :=
  quote kv.1 +:+ ": " +:+ default "null" (serialize inner kv.2).

(** [v] is printed and read back: the text of [v] at any indentation
    starts where a value may start, and a text that begins with it and goes
    on with what may follow a value is parsed to [v] and that rest. *)
Definition round_trips (v : jsval) : Prop :=
  storable v = true ->
  forall indent rest fuel,
    blank indent = true -> closed rest -> size v <= fuel ->
    exists c t,
      serialize indent v = Some (String c t)
      /\ value_start c = true
      /\ parse_value fuel (String c t +:+ rest) = Some (v, rest).

(** A text that the clean-up for [d] passes over: put in front of any
    text, it adds no match of the pattern. *)
Definition inert (d : ascii) (t : string) : Prop :=
  forall b, comma_before d (t +:+ b) = comma_before d b.

End Stored.

(* ===================================================================== *)
(** * Properties of the trailing-comma replacement *)
(* ===================================================================== *)

Module TextFacts.
Import Text Vocabulary.

#[local] Arguments Ascii.eqb : simpl never.

Lemma string_app_cons (c : ascii) (s t : string) :
  String c s +:+ t = String c (s +:+ t).
Proof. reflexivity. Qed.

Lemma string_app_nil_l (t : string) : "" +:+ t = t.
Proof. reflexivity. Qed.

Lemma string_app_nil_r (s : string) : s +:+ "" = s.
Proof. induction s as [|c s IH]; [done|]. by rewrite string_app_cons, IH. Qed.

Lemma string_app_assoc (s t u : string) : (s +:+ t) +:+ u = s +:+ t +:+ u.
Proof.
  induction s as [|c s IH]; [done|]. by rewrite !string_app_cons, IH.
Qed.

Lemma string_length_app (s t : string) :
  String.length (s +:+ t) = String.length s + String.length t.
Proof. induction s as [|c s IH]; [done|]. simpl. by rewrite IH. Qed.

(** ** White-space characters, byte by byte *)

Lemma ascii_space_low c : ascii_space c = true -> (N_of_ascii c < 128)%N.
Proof. destruct c as [[] [] [] [] [] [] [] []]; intros H; try done; by vm_compute. Qed.

Lemma space2_bytes c1 c2 :
  space2 c1 c2 = true -> N_of_ascii c1 = 194%N /\ N_of_ascii c2 = 160%N.
Proof.
  unfold space2. rewrite andb_true_iff, !N.eqb_eq. done.
Qed.

Lemma space3_bytes c1 c2 c3 :
  space3 c1 c2 c3 = true ->
  (224 < N_of_ascii c1)%N /\ (128 <= N_of_ascii c2)%N /\ (128 <= N_of_ascii c3)%N.
Proof.
  unfold space3. cbv zeta.
  repeat (rewrite ?orb_true_iff, ?andb_true_iff). rewrite ?N.eqb_eq, ?N.leb_le. lia.
Qed.

Lemma high_not_space c : (128 <= N_of_ascii c)%N -> ascii_space c = false.
Proof.
  intros H. destruct (ascii_space c) eqn:Hc; [|done].
  apply ascii_space_low in Hc. lia.
Qed.

Lemma solid_bytes c :
  solid c = true -> (N_of_ascii c < 128)%N /\ ascii_space c = false.
Proof.
  unfold solid. rewrite andb_true_iff, N.ltb_lt, negb_true_iff. done.
Qed.

Lemma space2_low_l c1 c2 : (N_of_ascii c1 < 128)%N -> space2 c1 c2 = false.
Proof.
  intros H. destruct (space2 c1 c2) eqn:E; [|done].
  apply space2_bytes in E. lia.
Qed.

Lemma space2_low_r c1 c2 : (N_of_ascii c2 < 128)%N -> space2 c1 c2 = false.
Proof.
  intros H. destruct (space2 c1 c2) eqn:E; [|done].
  apply space2_bytes in E. lia.
Qed.

Lemma space3_low c1 c2 c3 :
  (N_of_ascii c1 < 128)%N \/ (N_of_ascii c2 < 128)%N \/ (N_of_ascii c3 < 128)%N ->
  space3 c1 c2 c3 = false.
Proof.
  intros H. destruct (space3 c1 c2 c3) eqn:E; [|done].
  apply space3_bytes in E. lia.
Qed.

Lemma space3_not_space2 c1 c2 c3 : space3 c1 c2 c3 = true -> space2 c1 c2 = false.
Proof.
  intros H. destruct (space2 c1 c2) eqn:E; [|done].
  apply space2_bytes in E. apply space3_bytes in H. lia.
Qed.

(** A text that starts with a solid character does not start with white
    space. *)
Lemma solid_width c s : solid c = true -> space_width (String c s) = 0.
Proof.
  intros [Hlow Hsp]%solid_bytes. cbn [space_width]. rewrite Hsp.
  destruct s as [|c2 s]; [done|]. rewrite (space2_low_l _ _ Hlow).
  destruct s as [|c3 s]; [done|]. by rewrite space3_low by auto.
Qed.

Lemma trimStart_width s : space_width s = 0 -> trimStart s = s.
Proof.
  destruct s as [|c1 [|c2 [|c3 s]]]; cbn [space_width trimStart]; try done.
  - by destruct (ascii_space c1).
  - destruct (ascii_space c1); [done|]. by destruct (space2 c1 c2).
  - destruct (ascii_space c1); [done|]. destruct (space2 c1 c2); [done|].
    by destruct (space3 c1 c2 c3).
Qed.

(** Solid ground put after a text that does not start with white space
    does not make it start with white space. *)
Lemma width_app_solid r q b :
  r <> "" -> space_width r = 0 -> solid q = true ->
  space_width (r +:+ String q b) = 0.
Proof.
  intros Hr Hw [Hlow Hsp]%solid_bytes.
  destruct r as [|c1 [|c2 [|c3 r]]]; [done|..];
    rewrite ?string_app_cons, ?string_app_nil_l;
    cbn [space_width] in *.
  - destruct (ascii_space c1); [done|]. rewrite (space2_low_r _ _ Hlow).
    destruct b; [done|]. by rewrite space3_low by auto.
  - destruct (ascii_space c1); [done|]. destruct (space2 c1 c2); [done|].
    by rewrite space3_low by auto.
  - done.
Qed.

(** ** Runs of white space *)

Lemma spaces_app a b : spaces a -> spaces b -> spaces (a +:+ b).
Proof.
  induction 1; intros Hb; rewrite ?string_app_cons, ?string_app_nil_l;
    [done|apply spaces_one|apply spaces_two|apply spaces_three]; auto.
Qed.

Lemma trimStart_ascii c s : ascii_space c = true -> trimStart (String c s) = trimStart s.
Proof. intros H. cbn [trimStart]. by rewrite H. Qed.

Lemma trimStart_two c1 c2 s :
  space2 c1 c2 = true -> trimStart (String c1 (String c2 s)) = trimStart s.
Proof.
  intros H. cbn [trimStart]. rewrite H.
  destruct (space2_bytes _ _ H) as [H1 _]. by rewrite high_not_space by lia.
Qed.

Lemma trimStart_three c1 c2 c3 s :
  space3 c1 c2 c3 = true ->
  trimStart (String c1 (String c2 (String c3 s))) = trimStart s.
Proof.
  intros H. cbn [trimStart]. rewrite H, (space3_not_space2 _ _ _ H).
  destruct (space3_bytes _ _ _ H) as [H1 _]. by rewrite high_not_space by lia.
Qed.

(** White space in front is passed. *)
Lemma trimStart_spaces ws s : spaces ws -> trimStart (ws +:+ s) = trimStart s.
Proof.
  induction 1 as [|c ws Hc _ IH|c1 c2 ws Hc _ IH|c1 c2 c3 ws Hc _ IH];
    rewrite ?string_app_cons; [done|..].
  - by rewrite trimStart_ascii.
  - by rewrite trimStart_two.
  - by rewrite trimStart_three.
Qed.

(** [trimStart] splits a text into the white space it starts with and a
    rest that does not start with white space. *)
Lemma trimStart_split_bounded n :
  forall s, String.length s <= n ->
    exists ws, spaces ws /\ s = ws +:+ trimStart s /\ space_width (trimStart s) = 0.
Proof.
  induction n as [|n IH]; intros s Hlen.
  { destruct s; [|simpl in Hlen; lia]. exists "". by repeat split; [constructor|..]. }
  destruct s as [|c1 s1]; [exists ""; by repeat split; [constructor|..]|].
  simpl in Hlen.
  destruct (ascii_space c1) eqn:H1.
  { destruct (IH s1 ltac:(lia)) as (ws & Hws & Heq & Hw).
    exists (String c1 ws). rewrite trimStart_ascii by done.
    split; [by apply spaces_one|]. split; [|done]. by rewrite string_app_cons, <- Heq. }
  destruct s1 as [|c2 s2].
  { assert (space_width (String c1 "") = 0) as Hw
      by (cbn [space_width]; by rewrite H1).
    exists "". rewrite (trimStart_width _ Hw). split; [constructor|done]. }
  simpl in Hlen.
  destruct (space2 c1 c2) eqn:H2.
  { destruct (IH s2 ltac:(lia)) as (ws & Hws & Heq & Hw).
    exists (String c1 (String c2 ws)). rewrite trimStart_two by done.
    split; [by apply spaces_two|]. split; [|done]. by rewrite !string_app_cons, <- Heq. }
  destruct s2 as [|c3 s3].
  { assert (space_width (String c1 (String c2 "")) = 0) as Hw
      by (cbn [space_width]; by rewrite H1, H2).
    exists "". rewrite (trimStart_width _ Hw). split; [constructor|done]. }
  simpl in Hlen.
  destruct (space3 c1 c2 c3) eqn:H3.
  { destruct (IH s3 ltac:(lia)) as (ws & Hws & Heq & Hw).
    exists (String c1 (String c2 (String c3 ws))). rewrite trimStart_three by done.
    split; [by apply spaces_three|]. split; [|done]. by rewrite !string_app_cons, <- Heq. }
  assert (space_width (String c1 (String c2 (String c3 s3))) = 0) as Hw
    by (cbn [space_width]; by rewrite H1, H2, H3).
  exists "". rewrite (trimStart_width _ Hw). split; [constructor|done].
Qed.

Lemma trimStart_split s :
  exists ws, spaces ws /\ s = ws +:+ trimStart s /\ space_width (trimStart s) = 0.
Proof. by apply (trimStart_split_bounded (String.length s)). Qed.

Lemma all_space_spaces s : all_space s = true <-> spaces s.
Proof.
  unfold all_space. split.
  - intros H. destruct (trimStart_split s) as (ws & Hws & Heq & _).
    destruct (trimStart s); [|done]. rewrite Heq. by rewrite string_app_nil_r.
  - intros H. rewrite <- (string_app_nil_r s), (trimStart_spaces _ "" H). done.
Qed.

Lemma all_space_nil : all_space "" = true.
Proof. reflexivity. Qed.

(** The bytes of white space: none is solid, none is a comma. *)
Lemma spaces_no_solid ws a c b : spaces ws -> solid c = true -> ws <> a +:+ String c b.
Proof.
  intros Hws [Hlow Hsp]%solid_bytes. revert a.
  induction Hws as [|c0 ws Hc _ IH|c1 c2 ws Hc _ IH|c1 c2 c3 ws Hc _ IH]; intros a.
  - by destruct a.
  - destruct a as [|x a]; rewrite ?string_app_cons, ?string_app_nil_l.
    + intros [= -> _]. congruence.
    + intros [= _ H]. by apply (IH a).
  - apply space2_bytes in Hc as [Ha Hb].
    destruct a as [|x [|y a]]; rewrite ?string_app_cons, ?string_app_nil_l.
    + intros [= -> _]. lia.
    + intros [= _ -> _]. lia.
    + intros [= _ _ H]. by apply (IH a).
  - apply space3_bytes in Hc as (Ha & Hb & Hc).
    destruct a as [|x [|y [|z a]]]; rewrite ?string_app_cons, ?string_app_nil_l.
    + intros [= -> _]. lia.
    + intros [= _ -> _]. lia.
    + intros [= _ _ -> _]. lia.
    + intros [= _ _ _ H]. by apply (IH a).
Qed.

Lemma all_space_app_solid a c b : solid c = true -> all_space (a +:+ String c b) = false.
Proof.
  intros Hc. destruct (all_space _) eqn:H; [|done].
  apply all_space_spaces in H. by destruct (spaces_no_solid _ a c b H Hc).
Qed.

Lemma solid_comma : solid "," = true.
Proof. reflexivity. Qed.

(** ** Matches of [\s*d] *)

Section Delimiter.
Variable d : ascii.
Hypothesis d_solid : solid d = true.
Hypothesis d_not_comma : Ascii.eqb d "," = false.



(** After white space, a text that does not start with white space
    decides. *)
Lemma match_spaces_then_intro ws c r :
  spaces ws -> space_width (String c r) = 0 ->
  match_spaces_then d (ws +:+ String c r)
  = if Ascii.eqb c d then Some (S (String.length ws)) else None.
Proof.
  intros Hws Hw. unfold match_spaces_then.
  rewrite (trimStart_spaces _ _ Hws), (trimStart_width _ Hw).
  destruct (Ascii.eqb c d); [|done]. f_equal.
  rewrite string_length_app. simpl. lia.
Qed.


Lemma match_spaces_then_inv s n :
  match_spaces_then d s = Some n ->
  exists ws rest, s = ws +:+ String d rest /\ all_space ws = true
                  /\ n = S (String.length ws).
Proof.
  unfold match_spaces_then. intros H.
  destruct (trimStart_split s) as (ws & Hws & Heq & _).
  destruct (trimStart s) as [|c r]; [done|].
  destruct (Ascii.eqb_spec c d) as [->|]; [|done]. injection H as <-.
  exists ws, r. split; [done|]. split; [by apply all_space_spaces|].
  rewrite Heq at 1. rewrite string_length_app. simpl. lia.
Qed.

Lemma match_spaces_then_bound s n :
  match_spaces_then d s = Some n -> 1 <= n <= String.length s.
Proof.
  intros (ws & rest & -> & _ & ->)%match_spaces_then_inv.
  rewrite string_length_app. simpl. lia.
Qed.

Lemma match_spaces_then_all_space ws :
  all_space ws = true -> match_spaces_then d ws = None.
Proof.
  unfold all_space, match_spaces_then. by destruct (trimStart ws).
Qed.

(** A solid character put after a text changes no match at its head,
    unless the text is white space and the character is [d]. *)
Lemma match_spaces_then_app pre q b :
  solid q = true -> all_space pre = false \/ Ascii.eqb q d = false ->
  match_spaces_then d (pre +:+ String q b) = match_spaces_then d pre.
Proof.
  intros Hq Hor.
  destruct (trimStart_split pre) as (ws & Hws & Heq & Hw).
  destruct (trimStart pre) as [|c r] eqn:Ht.
  - assert (all_space pre = true) as Hall by (unfold all_space; by rewrite Ht).
    destruct Hor as [Hor|Hqd]; [congruence|].
    rewrite (match_spaces_then_all_space _ Hall).
    clear Ht Hall. subst pre. rewrite string_app_assoc, string_app_nil_l.
    by rewrite (match_spaces_then_intro _ _ _ Hws (solid_width _ _ Hq)), Hqd.
  - clear Ht Hor. subst pre. rewrite string_app_assoc, string_app_cons.
    rewrite (match_spaces_then_intro ws c (r +:+ String q b) Hws).
    + by rewrite (match_spaces_then_intro ws c r Hws Hw).
    + rewrite <- string_app_cons. by apply width_app_solid.
Qed.

Lemma match_spaces_then_other ws c s :
  all_space ws = true -> solid c = true -> Ascii.eqb c d = false ->
  match_spaces_then d (ws +:+ String c s) = None.
Proof.
  intros Hws%all_space_spaces Hc Hcd.
  by rewrite (match_spaces_then_intro _ _ _ Hws (solid_width _ _ Hc)), Hcd.
Qed.

(** ** The replacement *)







Lemma no_comma_intro s :
  (forall a b, s <> a +:+ String "," b) -> no_comma s = true.
Proof.
  induction s as [|c s IH]; [done|]. intros H. cbn [no_comma].
  destruct (Ascii.eqb_spec c ",") as [->|_]; [by destruct (H "" s)|].
  apply IH. intros a b ->. by apply (H (String c a) b).
Qed.

Lemma all_space_no_comma ws : all_space ws = true -> no_comma ws = true.
Proof.
  intros Hws%all_space_spaces. apply no_comma_intro. intros a b.
  by apply spaces_no_solid.
Qed.














End Delimiter.

Lemma solid_bracket : solid "]" = true.
Proof. reflexivity. Qed.

Lemma solid_brace : solid "}" = true.
Proof. reflexivity. Qed.

(** ** The two replacements in sequence *)



End TextFacts.

(* ===================================================================== *)
(** * Running programs *)
(* ===================================================================== *)

Module RunFacts.
Import Text Js Json Eff Server Vocabulary.

Lemma drop_tail {A} (n : nat) (l : list A) : drop n (tail l) = drop (S n) l.
Proof. destruct l; simpl; [by destruct n|done]. Qed.

(** [p] runs first, then the continuation, on the faults [p] has not
    consumed. *)
Lemma run_bind {A B} (p : prog A) (f : A -> prog B) faults w :
  run (bind p f) faults w =
  match run p faults w with
  | (Ok a, w', tr) =>
      let '(res, w'', tr') := run (f a) (drop (length tr) faults) w' in
      (res, w'', tr ++ tr')
  | (Throw m, w', tr) => (Throw m, w', tr)
  end.
Proof.
  revert faults w. induction p as [a|m|X o k IH]; intros faults w; simpl.
  - rewrite drop_0. by destruct (run (f a) faults w) as [[res w''] tr'].
  - done.
  - destruct (exec o (default None (head faults)) w) as [r w'].
    rewrite IH. destruct (run (k r) (tail faults) w') as [[[a|m] w''] tr]; [|done].
    simpl. rewrite drop_tail.
    by destruct (run (f a) (drop (S (length tr)) faults) w'') as [[res w3] tr'].
Qed.

Lemma run_try_catch {A} (p : prog A) (h : string -> prog A) faults w :
  run (try_catch p h) faults w =
  match run p faults w with
  | (Ok a, w', tr) => (Ok a, w', tr)
  | (Throw m, w', tr) =>
      let '(res, w'', tr') := run (h m) (drop (length tr) faults) w' in
      (res, w'', tr ++ tr')
  end.
Proof.
  revert faults w. induction p as [a|m|X o k IH]; intros faults w; simpl.
  - done.
  - rewrite drop_0. by destruct (run (h m) faults w) as [[res w''] tr'].
  - destruct (exec o (default None (head faults)) w) as [r w'].
    rewrite IH. destruct (run (k r) (tail faults) w') as [[[a|m] w''] tr]; [done|].
    simpl. rewrite drop_tail.
    by destruct (run (h m) (drop (S (length tr)) faults) w'') as [[res w3] tr'].
Qed.

Lemma run_await {X} (o : op X) faults w :
  run (await o) faults w =
  let '(r, w') := exec o (default None (head faults)) w in (r, w', [Ev o]).
Proof.
  simpl. by destruct (exec o (default None (head faults)) w) as [[x|m] w'].
Qed.

Lemma run_Await {A X} (o : op X) (k : result X -> prog A) faults w :
  run (Await o k) faults w =
  let '(r, w') := exec o (default None (head faults)) w in
  let '(res, w'', tr) := run (k r) (tail faults) w' in
  (res, w'', Ev o :: tr).
Proof. reflexivity. Qed.

Lemma run_lift {A} (r : result A) faults w : run (lift r) faults w = (r, w, []).
Proof. by destruct r. Qed.

(** ** Reading the artifact *)

Lemma run_read faults w :
  run readProductsFromConstant faults w
  = (Ok (read_result (default None (head faults)) w), w, [Ev ReadFile]).
Proof.
  unfold readProductsFromConstant, read_result, read_value. simpl.
  destruct (default None (head faults)) as [[m|n m]|]; simpl; try done.
  destruct (file w) as [data|]; simpl; [|done].
  destruct (jsonStr_of data) as [j|]; simpl; [|done].
  by destruct (parse (cleanedJson j)).
Qed.

(** ** Writing the artifact *)

Lemma run_write l faults w :
  run (writeProductsToConstant (JArr l)) faults w
  = (match default None (head faults) with
     | None => Ok tt
     | Some f => Throw (fault_message f)
     end,
     after_write (content_of (JArr l)) (default None (head faults)) w,
     [Ev (WriteFile (content_of (JArr l)))]).
Proof.
  unfold writeProductsToConstant, after_write. simpl.
  by destruct (default None (head faults)) as [[m|n m]|].
Qed.

End RunFacts.

(* ===================================================================== *)
(** * The metadata store *)
(* ===================================================================== *)

Import Text Js Json Eff Server Vocabulary Scenario TextFacts RunFacts.



(** One trailing comma is read through; two are not. *)
Example read_one_trailing_comma :
  run readProductsFromConstant []
      (world_of_file (Some "export const products = [7, ];"))
  = (Ok (JArr [JNum (Dec 7 0)]),
     world_of_file (Some "export const products = [7, ];"), [Ev ReadFile]).
Proof. vm_compute. reflexivity. Qed.

Example read_two_trailing_commas :
  run readProductsFromConstant []
      (world_of_file (Some "export const products = [7,,];"))
  = (Ok (JArr []),
     world_of_file (Some "export const products = [7,,];"), [Ev ReadFile]).
Proof. vm_compute. reflexivity. Qed.

(** A well-formed value that is not a sequence is returned as parsed. *)
Example read_non_sequence :
  run readProductsFromConstant []
      (world_of_file (Some "export const products = 7;"))
  = (Ok (JNum (Dec 7 0)),
     world_of_file (Some "export const products = 7;"), [Ev ReadFile]).
Proof. vm_compute. reflexivity. Qed.

(** C2, as amended. A write that fails is reported to the caller, and
    nothing but the artifact can have changed. The write is made in place:
    when the failure comes before the file is opened the artifact is
    intact, otherwise it holds the bytes written so far, a prefix of the
    new content. *)
Theorem failed_write_is_in_place (l : list jsval) (f : fault)
    (faults : list (option fault)) (w : World) :
  head faults = Some (Some f) ->
  run (writeProductsToConstant (JArr l)) faults w
  = (Throw (fault_message f),
     match f with
     | Reject _ => w
     | RejectPartial n _ =>
         set_file (Some (String.substring 0 n (content_of (JArr l)))) w
     end,
     [Ev (WriteFile (content_of (JArr l)))]).
Proof. intros Hf. rewrite run_write, Hf. simpl. by destruct f. Qed.

Lemma failed_write_is_in_place_witness :
  run (writeProductsToConstant (JArr []))
      [Some (Reject "EACCES: permission denied, open 'constant.tsx'")]
      (world_of_file (Some "export const products = [7];"))
  = (Throw "EACCES: permission denied, open 'constant.tsx'",
     world_of_file (Some "export const products = [7];"),
     [Ev (WriteFile (content_of (JArr [])))]).
Proof.
  apply (failed_write_is_in_place []
           (Reject "EACCES: permission denied, open 'constant.tsx'")).
  reflexivity.
Defined.

(** C2 as stated fails: a write that the medium rejects after seven bytes
    (the disk is full) leaves those seven bytes, not the previous
    content. *)
Lemma failed_write_loses_previous_content :
  let w := world_of_file (Some "export const products = [7];") in
  let '(r, w', _) :=
    run (writeProductsToConstant (JArr []))
        [Some (RejectPartial 7 "ENOSPC: no space left on device, write")] w in
  r = Throw "ENOSPC: no space left on device, write"
  /\ file w' = Some "export "
  /\ file w' <> file w.
Proof. vm_compute. repeat split; discriminate. Qed.

(* ===================================================================== *)
(** * The coordinator: serial and interleaved operations *)
(* ===================================================================== *)






(* ===================================================================== *)
(** * Download resolution *)
(* ===================================================================== *)

(** What the handler sends for the payload it has chosen: the attachment,
    or the failure of [setHeader] on its name as the catch block reports
    it *)
Definition delivery (fileName : option string) (data : string) : response :=
  if header_safe (attachment_name fileName)
  then RZip (attachment_name fileName) data
  else RJson 500 (message_error "Download failure" invalid_header).

Lemma run_send (name : option string) (data : string)
    (faults : list (option fault)) (w : World) :
  run (try_catch
         (if header_safe (attachment_name name)
          then Ret (RZip (attachment_name name) data)
          else Raise invalid_header)
         (fun m => Ret (RJson 500 (message_error "Download failure" m)))) faults w
  = (Ok (delivery name data), w, []).
Proof. unfold delivery. by destruct (header_safe _). Qed.

(** The download of an existing order by a caller who may have it, run
    without faults *)
Lemma run_downloadOrder (w : World) (u : Identity) (id : string) (order : OrderDoc) :
  orders w !! id = Some order ->
  user order = user_id u \/ user_role u = "admin" ->
  run (downloadOrder (Token u) id) [] w
  = if str_truthy (downloadableFile order ≫= fileData) then
      (Ok (delivery (downloadableFile order ≫= fileName)
                    (default "" (downloadableFile order ≫= fileData))),
       w, [Ev (Order_findById id)])
    else
      match (if isProductOrder order then productIds order else []) with
      | first :: _ =>
          (Ok (match productFiles w !! first with
               | Some doc =>
                   if str_truthy (pf_fileData doc)
                   then delivery (pf_fileName doc) (default "" (pf_fileData doc))
                   else RJson 404 (message "No deliverable file found.")
               | None => RJson 404 (message "No deliverable file found.")
               end),
           w, [Ev (Order_findById id); Ev (PF_findOne first)])
      | [] =>
          (Ok (RJson 404 (message "No deliverable file found.")), w,
           [Ev (Order_findById id)])
      end.
Proof.
  intros Horder Hauth.
  assert (negb (String.eqb (user order) (user_id u))
          && negb (String.eqb (user_role u) "admin") = false) as Hcheck.
  { destruct Hauth as [-> | ->]; rewrite String.eqb_refl; simpl; [done|].
    apply andb_false_r. }
  unfold downloadOrder, authenticateToken. cbn [try_catch bind await].
  rewrite run_Await. cbn [head default exec perform]. rewrite Horder.
  cbv beta iota zeta. cbn [tail bind]. rewrite Hcheck.
  destruct (str_truthy (downloadableFile order ≫= fileData)) eqn:Hown.
  - cbn [bind]. rewrite Hown. cbn [negb]. by rewrite run_send.
  - destruct (if isProductOrder order then productIds order else [])
      as [|first rest] eqn:Hids.
    + cbn [bind try_catch]. reflexivity.
    + cbn [bind try_catch]. rewrite run_Await.
      cbn [head default exec perform tail].
      destruct (productFiles w !! first) as [doc|] eqn:Hdoc.
      * cbn [bind]. destruct (str_truthy (pf_fileData doc)) eqn:Hd.
        -- cbn [negb]. by rewrite run_send.
        -- reflexivity.
      * reflexivity.
Qed.



(** An order with its own payload delivers it, product ids or not. *)
Example download_own_payload_first :
  let order :=
    {| user := "64b7f1c2a9e4d3001f2e8a77";
       downloadableFile := Some {| fileName := Some "custom.zip";
                                   fileData := Some "UEsFBgAAAAA=" |};
       isProductOrder := true; productIds := ["p2"] |} in
  let w := {| file := None; productFiles := productFiles world_p2_blob;
              users := ∅; orders := {[ "64c0a1b2c3d4e5f601234568" := order ]} |} in
  run (downloadOrder (Token owner) "64c0a1b2c3d4e5f601234568") [] w
  = (Ok (RZip "custom.zip" "UEsFBgAAAAA="), w,
     [Ev (Order_findById "64c0a1b2c3d4e5f601234568")]).
Proof. vm_compute. reflexivity. Qed.

(** C3 as stated fails: an order whose own payload has a name in Cyrillic
    is not delivered to its owner. The name cannot stand in the
    Content-Disposition header, [setHeader] throws, and the answer is 500:
    no payload is returned. *)
Lemma download_unsendable_name :
  let order :=
    {| user := "64b7f1c2a9e4d3001f2e8a77";
       downloadableFile := Some {| fileName := Some "каталог.zip";
                                   fileData := Some "UEsFBgAAAAA=" |};
       isProductOrder := false; productIds := [] |} in
  let w := {| file := None; productFiles := ∅; users := ∅;
              orders := {[ "64c0a1b2c3d4e5f601234568" := order ]} |} in
  user order = user_id owner
  /\ downloadableFile order ≫= fileData = Some "UEsFBgAAAAA="
  /\ run (downloadOrder (Token owner) "64c0a1b2c3d4e5f601234568") [] w
     = (Ok (RJson 500 (message_error "Download failure" invalid_header)), w,
        [Ev (Order_findById "64c0a1b2c3d4e5f601234568")])
  /\ forall name data,
       (run (downloadOrder (Token owner) "64c0a1b2c3d4e5f601234568") [] w).1.1
       <> Ok (RZip name data).
Proof. vm_compute. repeat split; discriminate. Qed.

(* ===================================================================== *)
(** * Records: lookups after writes, spread and rest *)
(* ===================================================================== *)

Module ObjFacts.
Import Js.

Lemma obj_lookup_replace k k' v fs :
  obj_lookup k' (obj_replace k v fs)
  = if String.eqb k k'
    then match obj_lookup k fs with Some _ => Some v | None => None end
    else obj_lookup k' fs.
Proof.
  induction fs as [|[k0 v0] fs IH]; cbn [obj_replace obj_lookup].
  - by destruct (String.eqb k k').
  - destruct (String.eqb_spec k0 k) as [->|Hk]; cbn [obj_lookup].
    + by destruct (String.eqb_spec k k').
    + rewrite IH. destruct (String.eqb_spec k0 k') as [->|Hk'].
      * by destruct (String.eqb_spec k k').
      * done.
Qed.

Lemma obj_replace_keys k v fs : (obj_replace k v fs).*1 = fs.*1.
Proof.
  induction fs as [|[k0 v0] fs IH]; [done|]. cbn [obj_replace].
  destruct (String.eqb k0 k); [done|]. cbn [fmap list_fmap] in *. by rewrite IH.
Qed.

Lemma obj_lookup_insert n k k' v fs :
  k <> k' -> obj_lookup k' (obj_insert n (k, v) fs) = obj_lookup k' fs.
Proof.
  intros Hne. induction fs as [|[k0 v0] fs IH]; cbn [obj_insert obj_lookup].
  - by destruct (String.eqb_spec k k').
  - destruct (array_index k0) as [n0|]; [destruct (n0 <? n)%N|]; cbn [obj_lookup].
    + by rewrite IH.
    + by destruct (String.eqb_spec k k').
    + by destruct (String.eqb_spec k k').
Qed.

Lemma obj_lookup_insert_fresh n k v fs :
  obj_lookup k fs = None -> obj_lookup k (obj_insert n (k, v) fs) = Some v.
Proof.
  induction fs as [|[k0 v0] fs IH]; cbn [obj_insert obj_lookup].
  - by rewrite String.eqb_refl.
  - destruct (String.eqb_spec k0 k) as [->|Hk]; [done|]. intros Hfs.
    destruct (array_index k0) as [n0|]; [destruct (n0 <? n)%N|]; cbn [obj_lookup].
    + destruct (String.eqb_spec k0 k); [done|by apply IH].
    + by rewrite String.eqb_refl.
    + by rewrite String.eqb_refl.
Qed.

Lemma obj_insert_keys n kv fs : (obj_insert n kv fs).*1 ≡ₚ kv.1 :: fs.*1.
Proof.
  induction fs as [|[k0 v0] fs IH]; [done|]. cbn [obj_insert].
  destruct (array_index k0) as [n0|]; [destruct (n0 <? n)%N|]; [|done..].
  cbn [fmap list_fmap] in *. rewrite IH. apply Permutation_swap.
Qed.

Lemma obj_lookup_app k fs gs :
  obj_lookup k (fs ++ gs)
  = match obj_lookup k fs with
    | Some v => Some v
    | None => obj_lookup k gs
    end.
Proof.
  induction fs as [|[k0 v0] fs IH]; [done|]. cbn [app obj_lookup].
  by destruct (String.eqb k0 k).
Qed.

Lemma obj_lookup_set_eq k v fs : obj_lookup k (obj_set k v fs) = Some v.
Proof.
  unfold obj_set. destruct (obj_lookup k fs) as [v0|] eqn:Hk.
  - by rewrite obj_lookup_replace, String.eqb_refl, Hk.
  - destruct (array_index k) as [n|]; [by apply obj_lookup_insert_fresh|].
    rewrite obj_lookup_app, Hk. cbn [obj_lookup]. by rewrite String.eqb_refl.
Qed.

Lemma obj_lookup_set_ne k k' v fs :
  k <> k' -> obj_lookup k' (obj_set k v fs) = obj_lookup k' fs.
Proof.
  intros Hne. unfold obj_set. destruct (obj_lookup k fs) as [v0|] eqn:Hk.
  - rewrite obj_lookup_replace. by destruct (String.eqb_spec k k').
  - destruct (array_index k) as [n|]; [by apply obj_lookup_insert|].
    rewrite obj_lookup_app. destruct (obj_lookup k' fs); [done|].
    cbn [obj_lookup]. by destruct (String.eqb_spec k k').
Qed.

Lemma obj_lookup_None k (fs : list (string * jsval)) :
  k ∉ fs.*1 -> obj_lookup k fs = None.
Proof.
  induction fs as [|[k0 v0] fs IH]; simpl; [done|]. intros Hk.
  apply not_elem_of_cons in Hk as [Hne Hk].
  destruct (String.eqb_spec k0 k); [congruence|by apply IH].
Qed.

Lemma obj_lookup_remove k k' fs :
  obj_lookup k' (obj_remove k fs)
  = if String.eqb k k' then None else obj_lookup k' fs.
Proof.
  induction fs as [|[k0 v0] fs IH]; simpl; [by destruct (String.eqb k k')|].
  destruct (String.eqb_spec k0 k) as [->|Hk]; simpl.
  - rewrite IH. by destruct (String.eqb_spec k k').
  - rewrite IH. destruct (String.eqb_spec k0 k') as [->|]; [|done].
    by destruct (String.eqb_spec k k').
Qed.

Lemma obj_remove_keys k fs x : x ∈ (obj_remove k fs).*1 -> x ∈ fs.*1.
Proof.
  induction fs as [|[k0 v0] fs IH]; simpl; [done|].
  destruct (String.eqb k0 k); simpl; rewrite !elem_of_cons.
  - intros Hx. right. by apply IH.
  - intros [->|Hx]; [by left|right; by apply IH].
Qed.

Lemma obj_remove_NoDup k fs : NoDup fs.*1 -> NoDup (obj_remove k fs).*1.
Proof.
  induction fs as [|[k0 v0] fs IH]; simpl; [done|].
  intros [Hk0 Hnd]%NoDup_cons. destruct (String.eqb k0 k); simpl; [by apply IH|].
  apply NoDup_cons. split; [|by apply IH].
  intros Hin. apply Hk0. by apply (obj_remove_keys k fs).
Qed.

Lemma obj_lookup_Some_key k v (fs : list (string * jsval)) :
  obj_lookup k fs = Some v -> k ∈ fs.*1.
Proof.
  induction fs as [|[k0 v0] fs IH]; cbn [obj_lookup]; [done|].
  cbn [fmap list_fmap]. rewrite elem_of_cons.
  destruct (String.eqb_spec k0 k) as [->|]; [by left|]. intros H. right. by apply IH.
Qed.

Lemma obj_lookup_None_key k (fs : list (string * jsval)) :
  obj_lookup k fs = None -> k ∉ fs.*1.
Proof.
  induction fs as [|[k0 v0] fs IH]; cbn [obj_lookup]; [by intros _ ?%elem_of_nil|].
  cbn [fmap list_fmap]. rewrite not_elem_of_cons.
  destruct (String.eqb_spec k0 k) as [->|]; [done|]. intros H. split; [done|by apply IH].
Qed.

(** The keys after a write: those there were, and the key written if it
    is new. *)
Lemma obj_set_keys_perm k v fs :
  (obj_set k v fs).*1
  ≡ₚ match obj_lookup k fs with Some _ => fs.*1 | None => k :: fs.*1 end.
Proof.
  unfold obj_set. destruct (obj_lookup k fs) as [v0|] eqn:Hk.
  - by rewrite obj_replace_keys.
  - destruct (array_index k) as [n|]; [apply obj_insert_keys|].
    rewrite fmap_app. cbn [fmap list_fmap]. by rewrite Permutation_app_comm.
Qed.

Lemma obj_set_keys k v fs x : x ∈ (obj_set k v fs).*1 -> x = k \/ x ∈ fs.*1.
Proof.
  rewrite obj_set_keys_perm. destruct (obj_lookup k fs); [by right|].
  rewrite elem_of_cons. tauto.
Qed.

Lemma obj_set_NoDup k v fs : NoDup fs.*1 -> NoDup (obj_set k v fs).*1.
Proof.
  intros Hnd. rewrite obj_set_keys_perm.
  destruct (obj_lookup k fs) eqn:Hk; [done|].
  apply NoDup_cons. split; [by apply obj_lookup_None_key|done].
Qed.

(** Spread: the source's value wins, the target's is kept otherwise. *)
Lemma obj_lookup_assign k fs src :
  NoDup src.*1 ->
  obj_lookup k (assign fs src)
  = match obj_lookup k src with
    | Some v => Some v
    | None => obj_lookup k fs
    end.
Proof.
  unfold assign. revert fs.
  induction src as [|[k0 v0] src IH]; intros fs Hnd; simpl; [done|].
  apply NoDup_cons in Hnd as [Hk0 Hnd]. rewrite (IH _ Hnd). simpl in *.
  destruct (String.eqb_spec k0 k) as [->|Hk].
  - by rewrite (obj_lookup_None _ _ Hk0), obj_lookup_set_eq.
  - by rewrite obj_lookup_set_ne.
Qed.

Lemma obj_lookup_spread k fs :
  NoDup fs.*1 -> obj_lookup k (spread (JObj fs)) = obj_lookup k fs.
Proof.
  intros Hnd. unfold spread. simpl. rewrite (obj_lookup_assign _ _ _ Hnd).
  by destruct (obj_lookup k fs).
Qed.

End ObjFacts.

(* ===================================================================== *)
(** * The catalog routes, run *)
(* ===================================================================== *)

Module HandlerFacts.
Import Text Js Json Eff Server Vocabulary RunFacts.

#[global] Opaque readProductsFromConstant writeProductsToConstant.
#[global] Arguments missing_required : simpl never.
#[global] Arguments has_fileData : simpl never.
#[global] Arguments newProduct_of : simpl never.
#[global] Arguments content_of : simpl never.
#[global] Arguments array_method : simpl never.
#[global] Arguments get_opt : simpl never.
#[global] Arguments await : simpl never.
#[global] Arguments exec : simpl never.

Lemma head_drop_fault faults n :
  default None (head (drop n faults)) = fault_at faults n.
Proof.
  unfold fault_at. rewrite head_lookup, lookup_drop. by rewrite Nat.add_0_r.
Qed.

Lemma head_fault faults : default None (head faults) = fault_at faults 0.
Proof. unfold fault_at. by rewrite head_lookup. Qed.

Lemma tail_drop {A} (n : nat) (l : list A) : tail (drop n l) = drop (S n) l.
Proof.
  revert l. induction n as [|n IH]; intros [|x l]; simpl; done.
Qed.

Lemma run_addProduct u fs productId faults w :
  user_role u = "admin" ->
  run (addProduct (Token u) (JObj fs) productId) faults w
  = if missing_required (field fs "title") (field fs "description")
         (field fs "images") (field fs "price") (field fs "category")
    then (Ok (RJson 400 (message "Missing required product fields")), w, [])
    else
      let downloadableFile := field fs "downloadableFile" in
      let products := read_result (fault_at faults 0) w in
      let newProduct :=
        newProduct_of productId (field fs "title") (field fs "description")
          (field fs "features") (field fs "images") (field fs "price")
          (field fs "category") (field fs "type") downloadableFile in
      if has_fileData downloadableFile then
        let o := PF_create productId (get_opt downloadableFile "fileName")
                                     (get_opt downloadableFile "fileData") in
        match exec o (fault_at faults 1) w with
        | (Throw m, w1) =>
            (Ok (RJson 500 (message_error "Error adding product" m)), w1,
             [Ev ReadFile; Ev o])
        | (Ok _, w1) =>
            add_finish products newProduct (fault_at faults 2) w1
                       [Ev ReadFile; Ev o]
        end
      else add_finish products newProduct (fault_at faults 1) w [Ev ReadFile].
Proof.
  intros Hrole. unfold addProduct, authenticateToken, authenticateAdmin, field.
  rewrite Hrole. simpl.
  destruct (missing_required _ _ _ _ _); [done|].
  rewrite run_try_catch, run_bind, run_read. simpl. rewrite head_fault.
  unfold add_finish. destruct (has_fileData _).
  - rewrite run_bind, run_await, head_drop_fault.
    destruct (exec _ (fault_at faults 1) w) as [[[]|m] w1]; simpl; [|done].
    rewrite run_bind, run_lift.
    destruct (array_method _ _) as [l|m]; simpl; [|done].
    rewrite run_bind, run_write, ?drop_drop, ?drop_0. simpl.
    rewrite ?drop_drop, ?drop_0, head_drop_fault. simpl.
    by destruct (fault_at faults 2).
  - rewrite run_bind. simpl. rewrite run_bind, run_lift.
    destruct (array_method _ _) as [l|m]; simpl; [|done].
    rewrite run_bind, run_write, ?drop_drop, ?drop_0. simpl.
    rewrite ?drop_drop, ?drop_0, head_drop_fault. simpl.
    by destruct (fault_at faults 1).
Qed.

Lemma run_updateProduct u id fs faults w :
  user_role u = "admin" ->
  run (updateProduct (Token u) id (JObj fs)) faults w
  = let downloadableFile := field fs "downloadableFile" in
    let metadata := obj_remove "downloadableFile" fs in
    match array_method (read_result (fault_at faults 0) w) "findIndex" with
    | Throw m =>
        (Ok (RJson 500 (message_error "Error updating product" m)), w, [Ev ReadFile])
    | Ok l =>
        match findIndex id l with
        | Throw m =>
            (Ok (RJson 500 (message_error "Error updating product" m)), w,
             [Ev ReadFile])
        | Ok None => (Ok (RJson 404 (message "Product not found")), w, [Ev ReadFile])
        | Ok (Some index) =>
            if has_fileData downloadableFile then
              let o := PF_findOneAndUpdate id (get_opt downloadableFile "fileName")
                                              (get_opt downloadableFile "fileData") in
              match exec o (fault_at faults 1) w with
              | (Throw m, w1) =>
                  (Ok (RJson 500 (message_error "Error updating product" m)), w1,
                   [Ev ReadFile; Ev o])
              | (Ok _, w1) =>
                  update_finish l index id
                    (obj_set "downloadableFileName"
                             (get_opt downloadableFile "fileName") metadata)
                    (fault_at faults 2) w1 [Ev ReadFile; Ev o]
              end
            else if is_null downloadableFile then
              let o := PF_deleteOne id in
              match exec o (fault_at faults 1) w with
              | (Throw m, w1) =>
                  (Ok (RJson 500 (message_error "Error updating product" m)), w1,
                   [Ev ReadFile; Ev o])
              | (Ok _, w1) =>
                  update_finish l index id
                    (obj_set "downloadableFileName" JNull metadata)
                    (fault_at faults 2) w1 [Ev ReadFile; Ev o]
              end
            else update_finish l index id metadata (fault_at faults 1) w [Ev ReadFile]
        end
    end.
Proof.
  intros Hrole. unfold updateProduct, authenticateToken, authenticateAdmin, field.
  rewrite Hrole. simpl.
  rewrite run_try_catch, run_bind, run_read. simpl. rewrite head_fault.
  rewrite run_bind, run_lift.
  destruct (array_method _ _) as [l|m]; simpl; [|done].
  rewrite run_bind, run_lift.
  destruct (findIndex id l) as [[index|]|m]; simpl; [|done..].
  unfold update_finish, updated_of. cbv zeta. destruct (has_fileData _).
  - rewrite run_bind, run_Await, ?drop_drop, ?drop_0, head_drop_fault.
    cbn [Nat.add]. destruct (exec _ (fault_at faults 1) w) as [[[]|m] w1]; simpl; [|done].
    rewrite run_bind, run_write, ?tail_drop, ?drop_drop, ?drop_0. simpl.
    rewrite ?tail_drop, ?drop_drop, ?drop_0, head_drop_fault. simpl.
    by destruct (fault_at faults 2).
  - destruct (is_null _).
    + rewrite run_bind, run_Await, ?drop_drop, ?drop_0, head_drop_fault.
      cbn [Nat.add]. destruct (exec _ (fault_at faults 1) w) as [[[]|m] w1]; simpl; [|done].
      rewrite run_bind, run_write, ?tail_drop, ?drop_drop, ?drop_0. simpl.
      rewrite ?tail_drop, ?drop_drop, ?drop_0, head_drop_fault. simpl.
      by destruct (fault_at faults 2).
    + rewrite run_bind. simpl.
      rewrite run_bind, run_write, ?drop_drop, ?drop_0. simpl.
      rewrite ?drop_drop, ?drop_0, head_drop_fault. simpl.
      by destruct (fault_at faults 1).
Qed.


End HandlerFacts.

(* ===================================================================== *)
(** * Add *)
(* ===================================================================== *)

Import ObjFacts HandlerFacts.

Lemma text_field_missing v : text_field v -> truthy v = false -> missing v.
Proof.
  destruct v; simpl; try done; intros _ H; unfold missing; auto.
  destruct (String.eqb_spec s ""); [subst; auto|done].
Qed.

Lemma sequence_field_missing v : sequence_field v -> truthy v = false -> missing v.
Proof. destruct v; simpl; try done; intros _ H; unfold missing; auto. Qed.

Lemma price_field_missing v : price_field v -> truthy v = false -> missing v.
Proof.
  destruct v as [| | |[| |m e]| | |]; simpl; try done; intros Hm H;
    unfold missing; auto.
  - by destruct (Z.eqb_spec m 0).
  - destruct (String.eqb_spec s ""); [subst; auto|done].
Qed.

Lemma missing_falsy v : missing v -> truthy v = false.
Proof. by intros [-> | [-> | ->]]. Qed.

(** A request that passes the validation is answered 201 or 500. *)
Lemma addProduct_validated (u : Identity) (fs : list (string * jsval))
    (productId : string) (faults : list (option fault)) (w : World) :
  user_role u = "admin" ->
  missing_required (field fs "title") (field fs "description")
    (field fs "images") (field fs "price") (field fs "category") = false ->
  exists status body,
    (run (addProduct (Token u) (JObj fs) productId) faults w).1.1
    = Ok (RJson status body)
    /\ (status = 201 \/ status = 500).
Proof.
  intros Hrole Hv. rewrite (run_addProduct _ _ _ _ _ Hrole), Hv.
  unfold add_finish. cbv zeta. destruct (has_fileData _).
  - destruct (exec _ _ _) as [[[]|m] w1]; simpl; [|by eauto].
    destruct (array_method _ _); simpl; [|by eauto].
    destruct (fault_at faults 2); simpl; by eauto.
  - destruct (array_method _ _); simpl; [|by eauto].
    destruct (fault_at faults 1); simpl; by eauto.
Qed.

(** C5, as amended. For an Add of an administrator whose fields have the
    types of the data model and whose price is not the number zero: the
    request is refused with "Missing required product fields" (status 400)
    exactly when [title], [description], [images], [price] or [category] is
    missing; a refused request touches no store. [images] need only be
    present: an empty sequence is not missing. *)
Theorem addProduct_validation (u : Identity) (fs : list (string * jsval))
    (productId : string) (faults : list (option fault)) (w : World) :
  user_role u = "admin" ->
  text_field (field fs "title") ->
  text_field (field fs "description") ->
  sequence_field (field fs "images") ->
  price_field (field fs "price") ->
  text_field (field fs "category") ->
  ((run (addProduct (Token u) (JObj fs) productId) faults w).1.1
   = Ok (RJson 400 (message "Missing required product fields"))
   <-> missing (field fs "title") \/ missing (field fs "description")
       \/ missing (field fs "images") \/ missing (field fs "price")
       \/ missing (field fs "category"))
  /\ ((run (addProduct (Token u) (JObj fs) productId) faults w).1.1
      = Ok (RJson 400 (message "Missing required product fields")) ->
      run (addProduct (Token u) (JObj fs) productId) faults w
      = (Ok (RJson 400 (message "Missing required product fields")), w, [])).
Proof.
  intros Hrole Ht Hd Hi Hp Hc. rewrite (run_addProduct _ _ _ _ _ Hrole).
  unfold missing_required.
  destruct (truthy (field fs "title")) eqn:Et; simpl.
  2:{ split; [|done]. split; [|done]. intros _. left. by apply text_field_missing. }
  destruct (truthy (field fs "description")) eqn:Ed; simpl.
  2:{ split; [|done]. split; [|done]. intros _. right; left.
      by apply text_field_missing. }
  destruct (truthy (field fs "images")) eqn:Ei; simpl.
  2:{ split; [|done]. split; [|done]. intros _. right; right; left.
      by apply sequence_field_missing. }
  destruct (truthy (field fs "price")) eqn:Ep; simpl.
  2:{ split; [|done]. split; [|done]. intros _. right; right; right; left.
      by apply price_field_missing. }
  destruct (truthy (field fs "category")) eqn:Ec; simpl.
  2:{ split; [|done]. split; [|done]. intros _. right; right; right; right.
      by apply text_field_missing. }
  pose proof (addProduct_validated u fs productId faults w Hrole) as Hv.
  unfold missing_required in Hv. rewrite Et, Ed, Ei, Ep, Ec in Hv.
  rewrite (run_addProduct _ _ _ _ _ Hrole) in Hv. unfold missing_required in Hv.
  rewrite Et, Ed, Ei, Ep, Ec in Hv. simpl in Hv.
  destruct (Hv eq_refl) as (status & body & -> & Hs).
  split; [split|]; try by (intros [= -> _]; destruct Hs).
  intros [H|[H|[H|[H|H]]]]; apply missing_falsy in H; congruence.
Qed.

Lemma addProduct_validation_witness :
  (run (addProduct admin
          (JObj [ ("description", JStr "A dashboard");
                  ("images", JArr [JStr "a.png"]);
                  ("price", JNum (Dec 12 0)); ("category", JStr "web") ])
          "id-w") [] (world_of_file None)).1.1
  = Ok (RJson 400 (message "Missing required product fields")).
Proof.
  apply (addProduct_validation
           {| user_id := "64b7f1c2a9e4d3001f2e8a10"; user_role := "admin" |}
           [ ("description", JStr "A dashboard");
             ("images", JArr [JStr "a.png"]);
             ("price", JNum (Dec 12 0)); ("category", JStr "web") ]
           "id-w" [] (world_of_file None) eq_refl I I I
           ltac:(simpl; discriminate) I).
  left. left. reflexivity.
Defined.

(** C5 as stated fails: an Add whose [images] is the empty sequence is not
    refused; it is stored and answered 201. *)
Lemma addProduct_accepts_empty_images :
  let fs := [ ("title", JStr "Gamma"); ("description", JStr "A dashboard");
              ("images", JArr []); ("price", JNum (Dec 35 0));
              ("category", JStr "web") ] in
  let p := newProduct_of "id-c" (JStr "Gamma") (JStr "A dashboard") JUndefined
             (JArr []) (JNum (Dec 35 0)) (JStr "web") JUndefined JUndefined in
  spec_missing_required fs
  /\ run (addProduct admin (JObj fs) "id-c") [] (world_of_file None)
     = (Ok (RJson 201 p), world_of_file (Some (content_of (JArr [p]))),
        [Ev ReadFile; Ev (WriteFile (content_of (JArr [p])))])
  /\ get p "images" = Ok (JArr []).
Proof.
  split; [|split].
  - right. right. left. right. reflexivity.
  - vm_compute. reflexivity.
  - reflexivity.
Qed.

(** An Add with price 0 and every other field present is refused. *)
Example addProduct_refuses_price_zero :
  run (addProduct admin (body_of "Delta" (JArr [JStr "d.png"]) (Dec 0 0)) "id-d")
      [] (world_of_file None)
  = (Ok (RJson 400 (message "Missing required product fields")),
     world_of_file None, []).
Proof. vm_compute. reflexivity. Qed.



(** A [downloadableFile] that names a file but holds no data is no
    payload for the handler: nothing is put, and the file name still goes
    into the record. *)
Example addProduct_file_name_without_data :
  let fs := [ ("title", JStr "Zeta"); ("description", JStr "A dashboard");
              ("images", JArr [JStr "z.png"]); ("price", JNum (Dec 55 0));
              ("category", JStr "web");
              ("downloadableFile", JObj [("fileName", JStr "z.zip")]) ] in
  let p := newProduct_of "id-z" (JStr "Zeta") (JStr "A dashboard") JUndefined
             (JArr [JStr "z.png"]) (JNum (Dec 55 0)) (JStr "web") JUndefined
             (JObj [("fileName", JStr "z.zip")]) in
  run (addProduct admin (JObj fs) "id-z") [] (world_of_file None)
  = (Ok (RJson 201 p), world_of_file (Some (content_of (JArr [p]))),
     [Ev ReadFile; Ev (WriteFile (content_of (JArr [p])))])
  /\ get p "downloadableFileName" = Ok (JStr "z.zip").
Proof. split; [vm_compute; reflexivity|reflexivity]. Qed.

(** Delete removes the blob first, then the record. *)
Example deleteProduct_removes_blob_and_record :
  run (deleteProduct admin "id-a") [] world_a
  = (Ok (RStatus 204),
     {| file := Some (content_of (JArr [])); productFiles := ∅;
        users := ∅; orders := ∅ |},
     [Ev (PF_deleteOne "id-a"); Ev ReadFile; Ev (WriteFile (content_of (JArr [])))]).
Proof. vm_compute. reflexivity. Qed.

(* ===================================================================== *)
(** * Update *)
(* ===================================================================== *)

Lemma strict_eq_string_true v s : strict_eq_string v s = true -> v = JStr s.
Proof.
  destruct v; simpl; try done. intros H. by apply String.eqb_eq in H as ->.
Qed.

Lemma strict_eq_string_false v s : v <> JStr s -> strict_eq_string v s = false.
Proof.
  destruct v as [| | | |t| |]; simpl; try done. intros H.
  destruct (String.eqb_spec t s); [congruence|done].
Qed.

(** The record [findIndex] finds carries the id. *)
Lemma findIndex_Some id l i :
  findIndex id l = Ok (Some i) ->
  exists old, l !! i = Some old /\ get old "id" = Ok (JStr id).
Proof.
  revert i. induction l as [|p l IH]; intros i; simpl; [done|].
  destruct (get p "id") as [v|m] eqn:Hv; simpl; [|done].
  destruct (strict_eq_string v id) eqn:Heq.
  - intros [= <-]. exists p. by rewrite (strict_eq_string_true _ _ Heq) in Hv.
  - destruct (findIndex id l) as [[j|]|m]; simpl; try done.
    intros [= <-]. by apply IH.
Qed.

(** No record carries the id: [findIndex] answers -1. *)
Lemma findIndex_None id l :
  Forall (fun p => exists v, get p "id" = Ok v /\ v <> JStr id) l ->
  findIndex id l = Ok None.
Proof.
  induction 1 as [|p l (v & Hv & Hne) _ IH]; simpl; [done|].
  by rewrite Hv, IH; simpl; rewrite (strict_eq_string_false _ _ Hne).
Qed.

Lemma index_key_not_id n : String.eqb (nat_to_string n) "id" = false.
Proof. unfold nat_to_string. by destruct (Nat.to_uint n). Qed.

Lemma obj_lookup_id_index (l : list jsval) n : obj_lookup "id" (index_from n l) = None.
Proof.
  revert n. induction l as [|x l IH]; intros n; simpl; [done|].
  by rewrite index_key_not_id.
Qed.

(** A value that has an [id] property holding a string is an object. *)
Lemma get_id_object old id :
  get old "id" = Ok (JStr id) -> exists fso, old = JObj fso.
Proof.
  destruct old as [| | | |s|l|fso]; simpl; try done; [| |by eexists].
  - by rewrite obj_lookup_id_index.
  - by rewrite obj_lookup_id_index.
Qed.

(** C9. An Update of an id that no record of the metadata sequence
    carries is answered "Product not found" (404) after the read alone:
    whatever the body holds (a new payload, an explicit clear), no call
    reaches the blob store, nothing is written, and the world is as it
    was. *)
Theorem updateProduct_unknown_id (u : Identity) (id : string)
    (fs : list (string * jsval)) (l : list jsval)
    (faults : list (option fault)) (w : World) :
  user_role u = "admin" ->
  read_result (fault_at faults 0) w = JArr l ->
  Forall (fun p => exists v, get p "id" = Ok v /\ v <> JStr id) l ->
  run (updateProduct (Token u) id (JObj fs)) faults w
  = (Ok (RJson 404 (message "Product not found")), w, [Ev ReadFile]).
Proof.
  intros Hrole Hread Habsent.
  rewrite (run_updateProduct _ _ _ _ _ Hrole), Hread. cbv zeta.
  unfold array_method. cbv beta iota.
  by rewrite (findIndex_None _ _ Habsent).
Qed.

Lemma read_world_a : read_result None world_a = JArr [product_a].
Proof. vm_compute. reflexivity. Qed.

Lemma updateProduct_unknown_id_witness :
  run (updateProduct admin "id-z" (JObj [("downloadableFile", JNull)])) [] world_a
  = (Ok (RJson 404 (message "Product not found")), world_a, [Ev ReadFile]).
Proof.
  apply (updateProduct_unknown_id
           {| user_id := "64b7f1c2a9e4d3001f2e8a10"; user_role := "admin" |}
           "id-z" [("downloadableFile", JNull)] [product_a] [] world_a eq_refl
           read_world_a).
  constructor; [|constructor].
  exists (JStr "id-a"). split; [reflexivity|discriminate].
Defined.

(** An Update of an existing id that no fault meets and whose payload, if
    any, the blob store accepts. *)
Lemma run_updateProduct_ok (u : Identity) (id : string)
    (fs : list (string * jsval)) (l : list jsval) (i : nat) (w : World) :
  user_role u = "admin" ->
  read_result None w = JArr l ->
  findIndex id l = Ok (Some i) ->
  (has_fileData (field fs "downloadableFile") = true ->
   exists doc, cast_doc (get_opt (field fs "downloadableFile") "fileName")
                        (get_opt (field fs "downloadableFile") "fileData") = Ok doc) ->
  run (updateProduct (Token u) id (JObj fs)) [] w
  = let updated := updated_of id (default JUndefined (l !! i)) (merged_fields fs) in
    let content := content_of (JArr (<[i := updated]> l)) in
    (Ok (RJson 200 updated),
     set_file (Some content)
       (set_productFiles (payload_step id fs (productFiles w)) w),
     Ev ReadFile :: payload_calls id fs ++ [Ev (WriteFile content)]).
Proof.
  intros Hrole Hread Hfind Hcast.
  rewrite (run_updateProduct _ _ _ _ _ Hrole).
  change (fault_at [] 0) with (@None fault). rewrite Hread.
  unfold array_method. cbv beta iota zeta. rewrite Hfind.
  unfold merged_fields, payload_step, payload_calls, update_finish. cbv zeta.
  change (fault_at [] 1) with (@None fault).
  change (fault_at [] 2) with (@None fault).
  destruct (has_fileData _).
  - destruct (Hcast eq_refl) as [doc Hdoc]. unfold exec. simpl. by rewrite Hdoc.
  - destruct (is_null _); [done|]. by destruct w.
Qed.

Lemma merged_fields_NoDup fs : NoDup fs.*1 -> NoDup (merged_fields fs).*1.
Proof.
  intros Hnd. unfold merged_fields. cbv zeta.
  destruct (has_fileData _); [by apply obj_set_NoDup, obj_remove_NoDup|].
  destruct (is_null _); [by apply obj_set_NoDup, obj_remove_NoDup|].
  by apply obj_remove_NoDup.
Qed.

Lemma get_updated_id id old md : get (updated_of id old md) "id" = Ok (JStr id).
Proof. unfold updated_of. simpl. by rewrite obj_lookup_set_eq. Qed.

(** The merge, key by key: a merged field wins, the record's own value
    stays otherwise. *)
Lemma get_updated_other id fso md k :
  k <> "id" -> NoDup md.*1 -> NoDup fso.*1 ->
  get (updated_of id (JObj fso) md) k
  = match obj_lookup k md with
    | Some v => Ok v
    | None => get (JObj fso) k
    end.
Proof.
  intros Hk Hmd Hfso. unfold updated_of. simpl.
  rewrite obj_lookup_set_ne by done. rewrite (obj_lookup_assign _ _ _ Hmd).
  destruct (obj_lookup k md); [done|]. by rewrite (obj_lookup_spread _ _ Hfso).
Qed.

(** The record an Update finds is an object with distinct keys. *)
Lemma found_record id l i :
  Forall record l -> findIndex id l = Ok (Some i) ->
  exists fso, l !! i = Some (JObj fso) /\ NoDup fso.*1
              /\ get (JObj fso) "id" = Ok (JStr id).
Proof.
  intros Hrec Hfind. destruct (findIndex_Some _ _ _ Hfind) as (old & Hold & Hid).
  destruct (get_id_object _ _ Hid) as [fso ->]. exists fso. repeat split; try done.
  by apply (Forall_lookup_1 _ _ _ _ Hrec Hold).
Qed.

(** C7, as amended. For an Update of an existing id that no fault meets,
    the payload handling is a three-way split. A payload with data (that
    the blob store accepts): the blob is upserted first, then the metadata
    is written with [downloadableFileName] set to the payload's file name.
    A payload that is [null]: the blob is deleted first, then the metadata
    is written with [downloadableFileName] set to [null]. No payload in the
    body: no call reaches the blob store, which stays as it is, and the
    payload handling sets no field: [downloadableFileName] keeps the value
    of the existing record unless the body itself supplies that key, in
    which case it is merged like any other field. *)
Theorem updateProduct_payload_cases (u : Identity) (id : string)
    (fs : list (string * jsval)) (l : list jsval) (i : nat) (w : World) :
  user_role u = "admin" ->
  NoDup fs.*1 ->
  Forall record l ->
  read_result None w = JArr l ->
  findIndex id l = Ok (Some i) ->
  let downloadableFile := field fs "downloadableFile" in
  let fn := get_opt downloadableFile "fileName" in
  let fd := get_opt downloadableFile "fileData" in
  let '(r, w', tr) := run (updateProduct (Token u) id (JObj fs)) [] w in
  (forall doc,
      has_fileData downloadableFile = true -> cast_doc fn fd = Ok doc ->
      exists updated,
        r = Ok (RJson 200 updated)
        /\ tr = [Ev ReadFile; Ev (PF_findOneAndUpdate id fn fd);
                 Ev (WriteFile (content_of (JArr (<[i := updated]> l))))]
        /\ productFiles w'
           = <[id := set_defined fn fd doc (productFiles w !! id)]> (productFiles w)
        /\ pf_fileData (set_defined fn fd doc (productFiles w !! id))
           = pf_fileData doc
        /\ (fn = JUndefined ->
            pf_fileName (set_defined fn fd doc (productFiles w !! id))
            = productFiles w !! id ≫= pf_fileName)
        /\ (fn <> JUndefined ->
            pf_fileName (set_defined fn fd doc (productFiles w !! id))
            = pf_fileName doc)
        /\ get updated "downloadableFileName" = Ok fn)
  /\ (downloadableFile = JNull ->
      exists updated,
        r = Ok (RJson 200 updated)
        /\ tr = [Ev ReadFile; Ev (PF_deleteOne id);
                 Ev (WriteFile (content_of (JArr (<[i := updated]> l))))]
        /\ productFiles w' = delete id (productFiles w)
        /\ get updated "downloadableFileName" = Ok JNull)
  /\ (downloadableFile = JUndefined ->
      exists old updated,
        l !! i = Some old
        /\ r = Ok (RJson 200 updated)
        /\ tr = [Ev ReadFile;
                 Ev (WriteFile (content_of (JArr (<[i := updated]> l))))]
        /\ productFiles w' = productFiles w
        /\ get updated "downloadableFileName"
           = match obj_lookup "downloadableFileName" fs with
             | Some v => Ok v
             | None => get old "downloadableFileName"
             end).
Proof.
  intros Hrole Hnd Hrec Hread Hfind downloadableFile fn fd.
  destruct (found_record _ _ _ Hrec Hfind) as (fso & Hold & Hfso & Hid).
  pose proof (merged_fields_NoDup _ Hnd) as Hmd.
  destruct (run (updateProduct (Token u) id (JObj fs)) [] w) as [[r w'] tr] eqn:Hrun.
  split; [|split].
  - intros doc Hdata Hdoc.
    rewrite (run_updateProduct_ok _ _ _ _ _ _ Hrole Hread Hfind) in Hrun
      by (intros _; by exists doc).
    cbv zeta in Hrun. injection Hrun as <- <- <-.
    unfold payload_step, payload_calls. cbv zeta.
    fold downloadableFile fn fd. rewrite Hdata, Hdoc, Hold.
    change (default JUndefined (Some (JObj fso))) with (JObj fso).
    cbn [app set_productFiles set_file productFiles].
    eexists. split; [reflexivity|]. split; [reflexivity|]. split; [reflexivity|].
    assert (fd <> JUndefined) as Hfd.
    { intros Hu. unfold has_fileData in Hdata. fold fd in Hdata.
      rewrite Hu in Hdata. by rewrite andb_false_r in Hdata. }
    split; [|split; [|split]].
    + unfold set_defined. cbn [pf_fileData]. by destruct fd.
    + intros ->. reflexivity.
    + intros Hfn. unfold set_defined. cbn [pf_fileName]. by destruct fn.
    + rewrite (get_updated_other id fso _ "downloadableFileName"
                 ltac:(discriminate) Hmd Hfso).
      unfold merged_fields. cbv zeta. fold downloadableFile fn. rewrite Hdata.
      by rewrite obj_lookup_set_eq.
  - intros Hnull.
    assert (has_fileData downloadableFile = false) as Hdata by (by rewrite Hnull).
    rewrite (run_updateProduct_ok _ _ _ _ _ _ Hrole Hread Hfind) in Hrun
      by (fold downloadableFile; by rewrite Hdata).
    cbv zeta in Hrun. injection Hrun as <- <- <-.
    unfold payload_step, payload_calls. cbv zeta.
    fold downloadableFile. rewrite Hdata, Hnull, Hold. simpl.
    eexists. repeat split.
    rewrite (get_updated_other id fso _ "downloadableFileName"
               ltac:(discriminate) Hmd Hfso).
    unfold merged_fields. cbv zeta. fold downloadableFile. rewrite Hdata, Hnull.
    simpl. by rewrite obj_lookup_set_eq.
  - intros Habsent.
    assert (has_fileData downloadableFile = false) as Hdata by (by rewrite Habsent).
    rewrite (run_updateProduct_ok _ _ _ _ _ _ Hrole Hread Hfind) in Hrun
      by (fold downloadableFile; by rewrite Hdata).
    cbv zeta in Hrun. injection Hrun as <- <- <-.
    unfold payload_step, payload_calls. cbv zeta.
    fold downloadableFile. rewrite Hdata, Habsent, Hold. simpl.
    eexists _, _. repeat split.
    rewrite (get_updated_other id fso _ "downloadableFileName"
               ltac:(discriminate) Hmd Hfso).
    unfold merged_fields. cbv zeta. fold downloadableFile. rewrite Hdata, Habsent.
    simpl. by rewrite obj_lookup_remove.
Qed.

Lemma record_product_a : Forall record [product_a].
Proof.
  constructor; [|constructor]. apply (bool_decide_unpack _). vm_compute. reflexivity.
Qed.

Lemma updateProduct_payload_cases_witness :
  exists updated,
    (run (updateProduct admin "id-a" (JObj [("downloadableFile", JNull)])) []
         world_a).1.1 = Ok (RJson 200 updated)
    /\ get updated "downloadableFileName" = Ok JNull.
Proof.
  pose proof (updateProduct_payload_cases
                {| user_id := "64b7f1c2a9e4d3001f2e8a10"; user_role := "admin" |}
                "id-a" [("downloadableFile", JNull)] [product_a] 0 world_a
                eq_refl (NoDup_singleton _) record_product_a read_world_a eq_refl)
    as H.
  cbv zeta in H.
  change (updateProduct (Token _) "id-a" (JObj [("downloadableFile", JNull)]))
    with (updateProduct admin "id-a" (JObj [("downloadableFile", JNull)])) in H.
  destruct (run (updateProduct admin "id-a" _) [] world_a) as [[r w'] tr].
  destruct H as (_ & H & _).
  destruct (H eq_refl) as (updated & -> & _ & _ & Hg). by exists updated.
Defined.

(** C7 as stated fails in its third case: with no payload in the body the
    blob stays, but [downloadableFileName] does not when the body supplies
    that key: the stored record then names a file the blob store does not
    hold under that name. *)
Lemma updateProduct_renames_without_payload :
  let fs := [("downloadableFileName", JStr "other.zip")] in
  let updated := updated_of "id-a" product_a fs in
  field fs "downloadableFile" = JUndefined
  /\ run (updateProduct admin "id-a" (JObj fs)) [] world_a
     = (Ok (RJson 200 updated),
        set_file (Some (content_of (JArr [updated]))) world_a,
        [Ev ReadFile; Ev (WriteFile (content_of (JArr [updated])))])
  /\ get product_a "downloadableFileName" = Ok (JStr "a.zip")
  /\ get updated "downloadableFileName" = Ok (JStr "other.zip")
  /\ read_result None (set_file (Some (content_of (JArr [updated]))) world_a)
     = JArr [updated].
Proof. vm_compute. repeat split. Qed.

(** C8. For an Update of an existing record that no fault meets (and
    whose payload, if any, the blob store accepts): the request is answered
    200, the artifact is rewritten with the merged record at the place of
    the old one, and the merged record has the id the old one had,
    whatever [id] the body supplies. Every other key has the value of the
    merged fields when they supply it, and the value of the old record
    otherwise. *)
Theorem updateProduct_keeps_id (u : Identity) (id : string)
    (fs : list (string * jsval)) (l : list jsval) (i : nat) (w : World) :
  user_role u = "admin" ->
  NoDup fs.*1 ->
  Forall record l ->
  read_result None w = JArr l ->
  findIndex id l = Ok (Some i) ->
  (has_fileData (field fs "downloadableFile") = true ->
   exists doc, cast_doc (get_opt (field fs "downloadableFile") "fileName")
                        (get_opt (field fs "downloadableFile") "fileData") = Ok doc) ->
  exists old updated w' tr,
    l !! i = Some old
    /\ run (updateProduct (Token u) id (JObj fs)) [] w
       = (Ok (RJson 200 updated), w', tr)
    /\ file w' = Some (content_of (JArr (<[i := updated]> l)))
    /\ get old "id" = Ok (JStr id)
    /\ get updated "id" = Ok (JStr id)
    /\ forall k, k <> "id" ->
         get updated k = match obj_lookup k (merged_fields fs) with
                         | Some v => Ok v
                         | None => get old k
                         end.
Proof.
  intros Hrole Hnd Hrec Hread Hfind Hcast.
  destruct (found_record _ _ _ Hrec Hfind) as (fso & Hold & Hfso & Hid).
  rewrite (run_updateProduct_ok _ _ _ _ _ _ Hrole Hread Hfind Hcast).
  cbv zeta. rewrite Hold. simpl.
  eexists _, _, _, _. repeat split; try done.
  - apply get_updated_id.
  - intros k Hk. apply get_updated_other; [done| |done].
    by apply merged_fields_NoDup.
Qed.

Lemma updateProduct_keeps_id_witness :
  exists updated w' tr,
    run (updateProduct admin "id-a"
           (JObj [("id", JStr "id-hijacked"); ("title", JStr "Alpha II")]))
        [] world_a
    = (Ok (RJson 200 updated), w', tr)
    /\ get updated "id" = Ok (JStr "id-a")
    /\ get updated "title" = Ok (JStr "Alpha II")
    /\ get updated "category" = Ok (JStr "web").
Proof.
  destruct (updateProduct_keeps_id
              {| user_id := "64b7f1c2a9e4d3001f2e8a10"; user_role := "admin" |}
              "id-a" [("id", JStr "id-hijacked"); ("title", JStr "Alpha II")]
              [product_a] 0 world_a eq_refl
              ltac:(apply (bool_decide_unpack _); vm_compute; reflexivity)
              record_product_a read_world_a eq_refl
              ltac:(intros H; vm_compute in H; discriminate H))
    as (old & updated & w' & tr & Hold & Hrun & _ & _ & Hid & Hother).
  injection Hold as <-.
  exists updated, w', tr. repeat split; [exact Hrun|exact Hid| |].
  - exact (Hother "title" ltac:(discriminate)).
  - exact (Hother "category" ltac:(discriminate)).
Defined.

(* ===================================================================== *)
(** * Listing with the wishlist overlay *)
(* ===================================================================== *)

Lemma get_with_wishlisted p b : get (with_wishlisted p b) "wishlisted" = Ok (JBool b).
Proof. unfold with_wishlisted. simpl. by rewrite obj_lookup_set_eq. Qed.





(* ===================================================================== *)
(** * Further properties: who may call, what is answered, what is touched *)
(* ===================================================================== *)

Import Notions.

(** X1. The three mutating routes answer a caller who is no administrator
    with 401 (no token), 403 (a refused token) or 403 "Admin access
    required" (another role) before anything else: no call is issued and
    the world is as it was, whatever the body. *)
Theorem admin_routes_refuse (c : credential) (id productId : string)
    (body : jsval) (faults : list (option fault)) (w : World) :
  not_admin c ->
  run (addProduct c body productId) faults w = (Ok (refusal c), w, [])
  /\ run (updateProduct c id body) faults w = (Ok (refusal c), w, [])
  /\ run (deleteProduct c id) faults w = (Ok (refusal c), w, []).
Proof.
  intros Hc. destruct c as [| |u]; try done.
  unfold addProduct, updateProduct, deleteProduct, authenticateToken,
    authenticateAdmin.
  simpl in Hc. apply String.eqb_neq in Hc. by rewrite Hc.
Qed.

Lemma admin_routes_refuse_witness :
  run (deleteProduct (Token owner) "id-a") [] world_a
  = (Ok (RJson 403 (message "Forbidden: Admin access required.")), world_a, []).
Proof.
  apply (admin_routes_refuse (Token owner) "id-a" "" JNull [] world_a).
  simpl. discriminate.
Defined.

(** A handler whose catch block answers never throws. *)
Lemma run_try_catch_answers {A} (p : prog A) (h : string -> A) faults w :
  exists a, (run (try_catch p (fun m => Ret (h m))) faults w).1.1 = Ok a.
Proof.
  revert faults w. induction p as [a|m|X o k IH]; intros faults w; simpl.
  - by eexists.
  - by eexists.
  - destruct (exec o (default None (head faults)) w) as [r w'].
    destruct (IH r (tail faults) w') as [a Ha].
    destruct (run _ (tail faults) w') as [[res w''] tr]. by exists a.
Qed.

(** X2. Every route answers: whatever the request, the stores and the
    faults the calls meet, the handler ends with a response and never with
    an exception (each exception of its body is turned into a 500 by its
    catch block). *)
Theorem routes_always_answer (c : credential) (id productId : string)
    (body : jsval) (faults : list (option fault)) (w : World) :
  (exists r, (run (listProducts c) faults w).1.1 = Ok r)
  /\ (exists r, (run (addProduct c body productId) faults w).1.1 = Ok r)
  /\ (exists r, (run (updateProduct c id body) faults w).1.1 = Ok r)
  /\ (exists r, (run (deleteProduct c id) faults w).1.1 = Ok r)
  /\ (exists r, (run (downloadOrder c id) faults w).1.1 = Ok r).
Proof.
  repeat split.
  - apply run_try_catch_answers.
  - unfold addProduct, authenticateToken, authenticateAdmin.
    destruct c as [| |u]; try by eexists.
    destruct (negb _); [by eexists|apply run_try_catch_answers].
  - unfold updateProduct, authenticateToken, authenticateAdmin.
    destruct c as [| |u]; try by eexists.
    destruct (negb _); [by eexists|apply run_try_catch_answers].
  - unfold deleteProduct, authenticateToken, authenticateAdmin.
    destruct c as [| |u]; try by eexists.
    destruct (negb _); [by eexists|apply run_try_catch_answers].
  - unfold downloadOrder, authenticateToken.
    destruct c as [| |u]; try by eexists. apply run_try_catch_answers.
Qed.

(* ===================================================================== *)
(** * The routes that only read *)
(* ===================================================================== *)

Lemma exec_query {X} (o : op X) f w : is_query o = true -> (exec o f w).2 = w.
Proof.
  unfold exec. destruct o; try done; intros _.
  - destruct f as [[m|n m]|]; try done. simpl. by destruct (file w).
  - by destruct f as [[m|n m]|].
  - by destruct f as [[m|n m]|].
  - destruct f as [[m|n m]|]; try done. simpl.
    destruct (orders w !! id); [done|]. by destruct (is_object_id id).
Qed.

Lemma read_only_run {A} (p : prog A) faults w :
  read_only p ->
  (run p faults w).1.2 = w /\ Forall query_event (run p faults w).2.
Proof.
  revert faults w. induction p as [a|m|X o k IH]; intros faults w; simpl;
    [by split..|].
  intros [Hq Hk]. pose proof (exec_query o (default None (head faults)) w Hq) as He.
  destruct (exec o (default None (head faults)) w) as [r w']. simpl in He. subst w'.
  destruct (IH r (tail faults) w (Hk r)) as [Hw Htr].
  destruct (run (k r) (tail faults) w) as [[res w''] tr]. simpl in *.
  split; [done|]. by constructor.
Qed.

Lemma read_only_bind {A B} (p : prog A) (f : A -> prog B) :
  read_only p -> (forall a, read_only (f a)) -> read_only (bind p f).
Proof.
  intros Hp Hf. induction p as [a|m|X o k IH]; simpl; [done..|].
  destruct Hp as [Hq Hk]. split; [done|]. intros r. by apply IH.
Qed.

Lemma read_only_try_catch {A} (p : prog A) (h : string -> prog A) :
  read_only p -> (forall m, read_only (h m)) -> read_only (try_catch p h).
Proof.
  intros Hp Hh. induction p as [a|m|X o k IH]; simpl; [done..|].
  destruct Hp as [Hq Hk]. split; [done|]. intros r. by apply IH.
Qed.

Lemma read_only_lift {A} (r : result A) : read_only (lift r).
Proof. by destruct r. Qed.

Lemma read_only_await {X} (o : op X) : is_query o = true -> read_only (await o).
Proof. intros Hq. split; [done|]. by intros [x|m]. Qed.

Transparent readProductsFromConstant.

Lemma read_only_readProducts : read_only readProductsFromConstant.
Proof.
  unfold readProductsFromConstant. apply read_only_try_catch; [|done].
  apply read_only_bind; [by apply read_only_await|].
  intros data. destruct (jsonStr_of data) as [j|]; [|done].
  by destruct (parse (cleanedJson j)).
Qed.

Opaque readProductsFromConstant.

Lemma read_only_listProducts c : read_only (listProducts c).
Proof.
  unfold listProducts. apply read_only_try_catch; [|done].
  apply read_only_bind; [apply read_only_readProducts|]. intros products.
  destruct (addUserToRequest c) as [u|].
  - apply read_only_bind; [by apply read_only_await|]. intros user.
    apply read_only_bind; [apply read_only_lift|]. intros l.
    apply read_only_bind; [apply read_only_lift|]. done.
  - apply read_only_bind; [apply read_only_lift|]. done.
Qed.

Lemma read_only_downloadOrder c id : read_only (downloadOrder c id).
Proof.
  unfold downloadOrder, authenticateToken. destruct c as [| |u]; try done.
  apply read_only_try_catch; [|done].
  apply read_only_bind; [by apply read_only_await|]. intros [order|]; [|done].
  destruct (_ && _); [done|].
  apply read_only_bind.
  - destruct (str_truthy _); [done|].
    destruct (if isProductOrder order then productIds order else []) as [|first rest];
      [done|].
    apply read_only_bind; [by apply read_only_await|]. by intros [doc|].
  - intros [fn fd]. destruct (negb _); [done|]. by destruct (header_safe _).
Qed.

(** X3. The listing and the download change nothing: whoever calls,
    whatever the stores hold and whatever faults the calls meet, the world
    after the handler is the world before it, and every call it has issued
    is a query (a read of the artifact or a lookup in a collection). *)
Theorem listing_and_download_only_read (c : credential) (id : string)
    (faults : list (option fault)) (w : World) :
  ((run (listProducts c) faults w).1.2 = w
   /\ Forall query_event (run (listProducts c) faults w).2)
  /\ ((run (downloadOrder c id) faults w).1.2 = w
      /\ Forall query_event (run (downloadOrder c id) faults w).2).
Proof.
  split; apply read_only_run;
    [apply read_only_listProducts|apply read_only_downloadOrder].
Qed.

Lemma step_read_only {A} (q : prog A) w :
  read_only q -> exists q', step q w = (q', w) /\ read_only q'.
Proof.
  destruct q as [a|m|X o k]; simpl; [by eexists..|].
  intros [Hq Hk]. pose proof (exec_query o None w Hq) as He.
  destruct (exec o None w) as [r w']. simpl in He. subst w'. by exists (k r).
Qed.

Lemma interleave_read_only {A B} (sched : list bool) (q : prog A) (p : prog B) w :
  read_only q ->
  (interleave sched q p w).1.2 = (advance (turns_of_second sched) p w).1
  /\ (interleave sched q p w).2 = (advance (turns_of_second sched) p w).2.
Proof.
  revert q p w. induction sched as [|[] s IH]; intros q p w Hq.
  - done.
  - destruct (step_read_only q w Hq) as (q' & Hs & Hq').
    change (interleave (true :: s) q p w)
      with (let '(p', w') := step q w in interleave s p' p w').
    rewrite Hs. by apply IH.
  - change (interleave (false :: s) q p w)
      with (let '(q', w') := step p w in interleave s q q' w').
    change (advance (turns_of_second (false :: s)) p w)
      with (let '(p', w') := step p w in advance (turns_of_second s) p' w').
    destruct (step p w) as [p1 w1]. by apply IH.
Qed.

(** X4. A listing or a download in flight does not disturb the other
    handler: under any schedule that interleaves it with a handler [p], the
    world and the state of [p] are those of [p] resumed alone as many times
    as the schedule gives it a turn. *)
Theorem reads_do_not_disturb {A} (c : credential) (id : string)
    (sched : list bool) (p : prog A) (w : World) :
  (let '(_, p', w') := interleave sched (listProducts c) p w in
   (p', w') = advance (turns_of_second sched) p w)
  /\ (let '(_, p', w') := interleave sched (downloadOrder c id) p w in
      (p', w') = advance (turns_of_second sched) p w).
Proof.
  split.
  - destruct (interleave_read_only sched (listProducts c) p w
                (read_only_listProducts c)) as [H1 H2].
    destruct (interleave _ _ _ _) as [[q' p'] w'].
    destruct (advance _ _ _) as [p2 w2]. simpl in *. by subst.
  - destruct (interleave_read_only sched (downloadOrder c id) p w
                (read_only_downloadOrder c id)) as [H1 H2].
    destruct (interleave _ _ _ _) as [[q' p'] w'].
    destruct (advance _ _ _) as [p2 w2]. simpl in *. by subst.
Qed.

(* ===================================================================== *)
(** * Listing: the overlay of a known user, an artifact that is no sequence *)
(* ===================================================================== *)

Lemma map_result_wishlist wl l :
  Forall object_record l ->
  map_result (fun p => rbind (get p "id") (fun pid =>
                Ok (with_wishlisted p (has wl pid)))) l
  = Ok (map (fun p => with_wishlisted p (has wl (get_opt p "id"))) l).
Proof.
  induction 1 as [|p l Hp _ IH]; [done|].
  destruct p as [| | | | | |fs]; try done. cbn [map_result map].
  rewrite IH. done.
Qed.

Lemma get_with_wishlisted_other p b k :
  object_record p -> k <> "wishlisted" -> get (with_wishlisted p b) k = get p k.
Proof.
  destruct p as [| | | | | |fs]; try done. intros Hnd Hk.
  unfold with_wishlisted. simpl.
  rewrite obj_lookup_set_ne by done.
  change (assign [] fs) with (spread (JObj fs)). by rewrite obj_lookup_spread.
Qed.

(** X5. A listing requested by a user who has a record: answered 200
    after the read and the user lookup, with one document per stored record
    in the stored order; each document carries [wishlisted], true exactly
    when the record's [id] is a string held in the user's wishlist, and
    every other field of the record as it is stored. *)
Theorem listProducts_wishlist_overlay (u : Identity) (doc : UserDoc)
    (l : list jsval) (w : World) :
  users w !! user_id u = Some doc ->
  read_result None w = JArr l ->
  Forall object_record l ->
  let docs := map (fun p => with_wishlisted p (has (wishlist doc) (get_opt p "id"))) l in
  run (listProducts (Token u)) [] w
  = (Ok (RJson 200 (JArr docs)), w, [Ev ReadFile; Ev (User_findById (user_id u))])
  /\ Forall2 (fun p d =>
        get d "wishlisted" = Ok (JBool (has (wishlist doc) (get_opt p "id")))
        /\ forall k, k <> "wishlisted" -> get d k = get p k) l docs.
Proof.
  intros Huser Hread Hrec docs. subst docs. unfold read_result in Hread. split.
  - unfold listProducts. simpl.
    rewrite run_try_catch, run_bind, run_read. simpl. rewrite Hread, Huser.
    rewrite run_bind, run_lift. unfold array_method. simpl.
    by rewrite run_bind, run_lift, (map_result_wishlist _ _ Hrec).
  - apply Forall2_fmap_r, Forall_Forall2_diag.
    eapply Forall_impl; [exact Hrec|]. intros p Hp. split.
    + apply get_with_wishlisted.
    + intros k Hk. by apply get_with_wishlisted_other.
Qed.

Lemma listProducts_wishlist_overlay_witness :
  let w := {| file := Some (content_of (JArr [product_a]));
              productFiles := ∅;
              users := {[ "64b7f1c2a9e4d3001f2e8a77" := {| wishlist := ["id-a"] |} ]};
              orders := ∅ |} in
  run (listProducts (Token owner)) [] w
  = (Ok (RJson 200 (JArr [with_wishlisted product_a true])), w,
     [Ev ReadFile; Ev (User_findById "64b7f1c2a9e4d3001f2e8a77")]).
Proof.
  intros w.
  assert (read_result None w = JArr [product_a]) as Hread by (vm_compute; reflexivity).
  assert (Forall object_record [product_a]) as Hrec.
  { constructor; [|constructor]. simpl. apply (bool_decide_unpack _). vm_compute.
    exact I. }
  pose proof (listProducts_wishlist_overlay owner {| wishlist := ["id-a"] |}
                [product_a] w eq_refl Hread Hrec) as [H _].
  exact H.
Defined.

(** X6. When the artifact parses, but to something that is not a sequence
    (an object, a number, a text), the listing is answered 500 "Error
    fetching products" for every caller. *)
Theorem listProducts_not_a_sequence (c : credential)
    (faults : list (option fault)) (w : World) :
  not_a_sequence (read_result (fault_at faults 0) w) ->
  exists m,
    (run (listProducts c) faults w).1.1
    = Ok (RJson 500 (message_error "Error fetching products" m)).
Proof.
  intros Hseq. unfold listProducts.
  rewrite run_try_catch, run_bind, run_read, head_fault. simpl.
  destruct (addUserToRequest c) as [u|].
  - rewrite run_Await.
    destruct (exec _ _ w) as [[user|m] w1]; simpl; [|by eexists].
    rewrite run_bind, run_lift.
    destruct (read_result (fault_at faults 0) w) as [| | | | |l|] eqn:Hr;
      simpl; try by eexists.
    by destruct (Hseq l).
  - rewrite run_bind, run_lift.
    destruct (read_result (fault_at faults 0) w) as [| | | | |l|] eqn:Hr;
      simpl; try by eexists.
    by destruct (Hseq l).
Qed.

Lemma listProducts_not_a_sequence_witness :
  exists m,
    (run (listProducts NoToken) [] (world_of_file (Some "export const products = 7;"))).1.1
    = Ok (RJson 500 (message_error "Error fetching products" m)).
Proof.
  apply (listProducts_not_a_sequence NoToken []
           (world_of_file (Some "export const products = 7;"))).
  intros l. vm_compute. discriminate.
Defined.

(* ===================================================================== *)
(** * Add and Delete: what is written, and what a failure leaves behind *)
(* ===================================================================== *)

(** An Add that passes the validation, meets no fault and whose payload,
    if any, the blob store takes. *)
Lemma run_addProduct_ok (u : Identity) (fs : list (string * jsval))
    (productId : string) (l : list jsval) (w : World) :
  user_role u = "admin" ->
  valid_add fs ->
  read_result None w = JArr l ->
  put_accepted productId fs w ->
  let newProduct := new_record productId fs in
  let content := content_of (JArr (newProduct :: l)) in
  run (addProduct (Token u) (JObj fs) productId) [] w
  = (Ok (RJson 201 newProduct), set_file (Some content) (after_put productId fs w),
     Ev ReadFile :: put_calls productId fs ++ [Ev (WriteFile content)]).
Proof.
  intros Hrole Hv Hread Hput. cbv zeta.
  rewrite (run_addProduct _ _ _ _ _ Hrole), Hv. cbv zeta.
  change (fault_at [] 0) with (@None fault). rewrite Hread.
  change (fault_at [] 1) with (@None fault).
  change (fault_at [] 2) with (@None fault).
  unfold put_accepted, after_put, put_calls, put_of, add_finish, new_record in *.
  unfold array_method. cbv beta iota.
  destruct (has_fileData _); [|done].
  unfold exec. specialize (Hput eq_refl).
  destruct (perform _ w) as [[[]|m] w1]; [done|discriminate Hput].
Qed.

(** X7. An Add that passes the validation, meets no fault and whose
    payload, if any, the blob store takes: the artifact is rewritten with
    the new record first and the stored records after it, in their order;
    the answer is 201 with the new record, which carries the generated id;
    the blob store has changed only by the put. *)
Theorem addProduct_newest_first (u : Identity) (fs : list (string * jsval))
    (productId : string) (l : list jsval) (w : World) :
  user_role u = "admin" ->
  valid_add fs ->
  read_result None w = JArr l ->
  put_accepted productId fs w ->
  let newProduct := new_record productId fs in
  let content := content_of (JArr (newProduct :: l)) in
  run (addProduct (Token u) (JObj fs) productId) [] w
  = (Ok (RJson 201 newProduct), set_file (Some content) (after_put productId fs w),
     Ev ReadFile :: put_calls productId fs ++ [Ev (WriteFile content)])
  /\ get newProduct "id" = Ok (JStr productId).
Proof.
  intros Hrole Hv Hread Hput. cbv zeta. split; [|done].
  by apply run_addProduct_ok.
Qed.

Lemma addProduct_newest_first_witness :
  let fs := [ ("title", JStr "Beta"); ("description", JStr "A dashboard");
              ("images", JArr [JStr "b.png"]); ("price", JNum (Dec 25 0));
              ("category", JStr "web") ] in
  (run (addProduct admin (JObj fs) "id-b") [] world_a).1.1
  = Ok (RJson 201 (new_record "id-b" fs)).
Proof.
  intros fs.
  pose proof (addProduct_newest_first
                {| user_id := "64b7f1c2a9e4d3001f2e8a10"; user_role := "admin" |}
                fs "id-b" [product_a] world_a eq_refl eq_refl read_world_a
                ltac:(intros H; discriminate H)) as [H _].
  change (Token _) with admin in H. by rewrite H.
Defined.



(** ** Delete *)

Lemma fault_at_tail faults n : fault_at (tail faults) n = fault_at faults (S n).
Proof. unfold fault_at. by destruct faults. Qed.

Lemma run_deleteProduct u id faults w :
  user_role u = "admin" ->
  run (deleteProduct (Token u) id) faults w
  = match exec (PF_deleteOne id) (fault_at faults 0) w with
    | (Throw m, w1) =>
        (Ok (RJson 500 (message_error "Error deleting product" m)), w1,
         [Ev (PF_deleteOne id)])
    | (Ok _, w1) =>
        delete_finish id (read_result (fault_at faults 1) w1) (fault_at faults 2) w1
    end.
Proof.
  intros Hrole. unfold deleteProduct, authenticateToken, authenticateAdmin.
  rewrite Hrole. simpl.
  rewrite head_fault.
  destruct (exec _ (fault_at faults 0) w) as [[[]|m] w1]; simpl; [|done].
  rewrite run_try_catch, run_bind, run_read, ?tail_drop, ?drop_drop, ?drop_0.
  simpl. rewrite <- (drop_0 faults) at 1. rewrite tail_drop, head_drop_fault.
  unfold delete_finish. rewrite run_bind, run_lift.
  destruct (array_method _ _) as [l|m]; simpl; [|done].
  rewrite run_bind, run_lift.
  destruct (filter_result _ l) as [filtered|m]; simpl; [|done].
  rewrite run_bind, run_write, ?drop_drop, ?drop_0. simpl.
  rewrite ?drop_drop, ?drop_0, ?head_drop_fault. simpl.
  rewrite ?fault_at_tail. by destruct (fault_at faults 2).
Qed.

Lemma get_opt_get p : p <> JNull -> p <> JUndefined -> get p "id" = Ok (get_opt p "id").
Proof. unfold get_opt. destruct p; simpl; done. Qed.

Lemma filter_result_without id l :
  Forall (fun p => p <> JNull /\ p <> JUndefined) l ->
  filter_result (fun p =>
    rbind (get p "id") (fun v => Ok (negb (strict_eq_string v id)))) l
  = Ok (without id l).
Proof.
  induction 1 as [|p l [Hn Hu] _ IH]; [done|]. cbn [filter_result].
  rewrite (get_opt_get p Hn Hu), IH. simpl.
  by destruct (strict_eq_string (get_opt p "id") id).
Qed.

Lemma elem_of_without id l p :
  p ∈ without id l <-> p ∈ l /\ get_opt p "id" <> JStr id.
Proof.
  unfold without. rewrite !list_elem_of_In, filter_In, negb_true_iff.
  split; intros [Hin Hid]; (split; [done|]).
  - intros Heq. rewrite Heq in Hid. simpl in Hid. by rewrite String.eqb_refl in Hid.
  - by apply strict_eq_string_false.
Qed.

Lemma without_sublist id l : sublist (without id l) l.
Proof.
  induction l as [|p l IH]; simpl; [constructor|].
  destruct (negb _); by constructor.
Qed.

Lemma read_result_productFiles f m w :
  read_result f (set_productFiles m w) = read_result f w.
Proof. done. Qed.

(** A Delete that meets no fault, on a catalog whose entries are neither
    [null] nor [undefined]. *)
Lemma run_deleteProduct_ok (u : Identity) (id : string) (l : list jsval) (w : World) :
  user_role u = "admin" ->
  read_result None w = JArr l ->
  Forall (fun p => p <> JNull /\ p <> JUndefined) l ->
  let content := content_of (JArr (without id l)) in
  run (deleteProduct (Token u) id) [] w
  = (Ok (RStatus 204),
     set_file (Some content) (set_productFiles (delete id (productFiles w)) w),
     [Ev (PF_deleteOne id); Ev ReadFile; Ev (WriteFile content)]).
Proof.
  intros Hrole Hread Hrec. cbv zeta.
  rewrite (run_deleteProduct _ _ _ _ Hrole).
  change (fault_at [] 0) with (@None fault).
  change (fault_at [] 1) with (@None fault).
  change (fault_at [] 2) with (@None fault).
  change (exec (PF_deleteOne id) None w)
    with (Ok tt, set_productFiles (delete id (productFiles w)) w).
  cbv iota. rewrite read_result_productFiles, Hread.
  unfold delete_finish, array_method. cbv beta iota. simpl.
  by rewrite (filter_result_without _ _ Hrec).
Qed.

(** X9. A Delete that meets no fault, on a catalog whose entries are
    neither [null] nor [undefined]: the blob is removed, then the artifact
    is rewritten with exactly the records whose [id] is not the given one,
    in their order, and the answer is 204. *)
Theorem deleteProduct_removes_every_match (u : Identity) (id : string)
    (l : list jsval) (w : World) :
  user_role u = "admin" ->
  read_result None w = JArr l ->
  Forall (fun p => p <> JNull /\ p <> JUndefined) l ->
  let content := content_of (JArr (without id l)) in
  run (deleteProduct (Token u) id) [] w
  = (Ok (RStatus 204),
     set_file (Some content) (set_productFiles (delete id (productFiles w)) w),
     [Ev (PF_deleteOne id); Ev ReadFile; Ev (WriteFile content)])
  /\ (forall p, p ∈ without id l <-> p ∈ l /\ get_opt p "id" <> JStr id)
  /\ sublist (without id l) l.
Proof.
  intros Hrole Hread Hrec. cbv zeta. split; [|split].
  - by apply run_deleteProduct_ok.
  - intros p. apply elem_of_without.
  - apply without_sublist.
Qed.

Lemma deleteProduct_removes_every_match_witness :
  run (deleteProduct admin "id-a") [] world_a
  = (Ok (RStatus 204),
     set_file (Some (content_of (JArr [])))
       (set_productFiles (delete "id-a" (productFiles world_a)) world_a),
     [Ev (PF_deleteOne "id-a"); Ev ReadFile; Ev (WriteFile (content_of (JArr [])))]).
Proof.
  pose proof (deleteProduct_removes_every_match
                {| user_id := "64b7f1c2a9e4d3001f2e8a10"; user_role := "admin" |}
                "id-a" [product_a] world_a eq_refl read_world_a
                ltac:(repeat constructor; discriminate)) as [H _].
  exact H.
Defined.

Lemma without_absent id l : Forall (other_id id) l -> without id l = l.
Proof.
  induction 1 as [|p l (v & Hv & Hne) _ IH]; [done|].
  unfold without. cbn [List.filter]. fold (without id l). rewrite IH.
  unfold get_opt. by rewrite Hv, (strict_eq_string_false _ _ Hne).
Qed.

Lemma other_id_defined id p : other_id id p -> p <> JNull /\ p <> JUndefined.
Proof. intros (v & Hv & _). by destruct p. Qed.

(** X10. A Delete of an id that no record carries and that has no blob is
    not refused: it is answered 204 like any other, both stores hold what
    they held, and the artifact has been rewritten with the same records. *)
Theorem deleteProduct_unknown_id (u : Identity) (id : string)
    (l : list jsval) (w : World) :
  user_role u = "admin" ->
  read_result None w = JArr l ->
  Forall (other_id id) l ->
  productFiles w !! id = None ->
  run (deleteProduct (Token u) id) [] w
  = (Ok (RStatus 204), set_file (Some (content_of (JArr l))) w,
     [Ev (PF_deleteOne id); Ev ReadFile; Ev (WriteFile (content_of (JArr l)))]).
Proof.
  intros Hrole Hread Habsent Hblob.
  assert (Forall (fun p => p <> JNull /\ p <> JUndefined) l) as Hrec.
  { eapply Forall_impl; [exact Habsent|]. apply other_id_defined. }
  rewrite (run_deleteProduct _ _ _ _ Hrole).
  change (fault_at [] 0) with (@None fault).
  change (fault_at [] 1) with (@None fault).
  change (fault_at [] 2) with (@None fault).
  change (exec (PF_deleteOne id) None w)
    with (Ok tt, set_productFiles (delete id (productFiles w)) w).
  cbv iota. rewrite read_result_productFiles, Hread.
  unfold delete_finish, array_method. cbv beta iota. simpl.
  rewrite (filter_result_without _ _ Hrec), (without_absent _ _ Habsent).
  rewrite (delete_id _ _ Hblob). by destruct w.
Qed.

Lemma deleteProduct_unknown_id_witness :
  run (deleteProduct admin "id-z") [] world_a
  = (Ok (RStatus 204), set_file (Some (content_of (JArr [product_a]))) world_a,
     [Ev (PF_deleteOne "id-z"); Ev ReadFile;
      Ev (WriteFile (content_of (JArr [product_a])))]).
Proof.
  apply (deleteProduct_unknown_id
           {| user_id := "64b7f1c2a9e4d3001f2e8a10"; user_role := "admin" |}
           "id-z" [product_a] world_a eq_refl read_world_a).
  - constructor; [|constructor]. exists (JStr "id-a"). split; [reflexivity|discriminate].
  - reflexivity.
Defined.



(* ===================================================================== *)
(** * An artifact that cannot be used *)
(* ===================================================================== *)

Lemma unreadable_read data w :
  file w = Some data -> unreadable data -> read_result None w = JArr [].
Proof.
  unfold unreadable, read_result, read_value. intros -> Hdata.
  destruct (jsonStr_of data) as [j|]; [|done]. by rewrite Hdata.
Qed.

(** X12. An artifact whose text cannot be made into a value (no marker,
    or a text that does not parse after the clean-up) is not preserved by
    the next mutation: an Add replaces it by the new record alone, a Delete
    by the empty sequence. *)
Theorem unreadable_artifact_is_overwritten (u : Identity) (data : string)
    (w : World) :
  user_role u = "admin" ->
  file w = Some data ->
  unreadable data ->
  (forall fs productId,
     valid_add fs -> put_accepted productId fs w ->
     file (run (addProduct (Token u) (JObj fs) productId) [] w).1.2
     = Some (content_of (JArr [new_record productId fs])))
  /\ (forall id,
        file (run (deleteProduct (Token u) id) [] w).1.2
        = Some (content_of (JArr []))).
Proof.
  intros Hrole Hfile Hdata.
  pose proof (unreadable_read _ _ Hfile Hdata) as Hread. split.
  - intros fs productId Hv Hput.
    by rewrite (run_addProduct_ok u fs productId [] w Hrole Hv Hread Hput).
  - intros id.
    by rewrite (run_deleteProduct_ok u id [] w Hrole Hread ltac:(constructor)).
Qed.

Lemma unreadable_artifact_is_overwritten_witness :
  file (run (deleteProduct admin "id-a") []
          (world_of_file (Some "export const products = [1 2];"))).1.2
  = Some (content_of (JArr [])).
Proof.
  assert (unreadable "export const products = [1 2];") as Hdata
    by (vm_compute; reflexivity).
  pose proof (unreadable_artifact_is_overwritten
                {| user_id := "64b7f1c2a9e4d3001f2e8a10"; user_role := "admin" |}
                "export const products = [1 2];"
                (world_of_file (Some "export const products = [1 2];"))
                eq_refl eq_refl Hdata) as [_ H].
  exact (H "id-a").
Defined.

Lemma array_method_not_a_sequence v name :
  not_a_sequence v -> exists m, array_method v name = Throw m.
Proof.
  intros Hv. unfold array_method.
  destruct v as [| | | | |l|]; try by eexists. by destruct (Hv l).
Qed.

(** X13. When the artifact parses to something that is not a sequence,
    every mutation is answered 500 and the artifact is not written; but
    the call to the blob store that precedes the use of the sequence has
    been made: the payload of the Add has been put, the blob of the Delete
    has been removed. An Update fails before it reaches the blob store. *)
Theorem mutations_need_a_sequence (u : Identity) (w : World) :
  user_role u = "admin" ->
  not_a_sequence (read_result None w) ->
  (forall fs productId,
     valid_add fs ->
     exists m,
       run (addProduct (Token u) (JObj fs) productId) [] w
       = (Ok (RJson 500 (message_error "Error adding product" m)),
          after_put productId fs w, Ev ReadFile :: put_calls productId fs))
  /\ (forall id fs,
        exists m,
          run (updateProduct (Token u) id (JObj fs)) [] w
          = (Ok (RJson 500 (message_error "Error updating product" m)), w,
             [Ev ReadFile]))
  /\ (forall id,
        exists m,
          run (deleteProduct (Token u) id) [] w
          = (Ok (RJson 500 (message_error "Error deleting product" m)),
             set_productFiles (delete id (productFiles w)) w,
             [Ev (PF_deleteOne id); Ev ReadFile])).
Proof.
  intros Hrole Hseq. split; [|split].
  - intros fs productId Hv.
    rewrite (run_addProduct _ _ _ _ _ Hrole), Hv. cbv zeta.
    change (fault_at [] 0) with (@None fault).
    change (fault_at [] 1) with (@None fault).
    change (fault_at [] 2) with (@None fault).
    unfold add_finish, after_put, put_calls, put_of.
    destruct (array_method_not_a_sequence _ "unshift" Hseq) as [m ->].
    destruct (has_fileData _); [|by eexists].
    unfold exec. destruct (perform _ w) as [[[]|m'] w1]; by eexists.
  - intros id fs. rewrite (run_updateProduct _ _ _ _ _ Hrole). cbv zeta.
    change (fault_at [] 0) with (@None fault).
    destruct (array_method_not_a_sequence _ "findIndex" Hseq) as [m ->].
    by eexists.
  - intros id. rewrite (run_deleteProduct _ _ _ _ Hrole).
    change (fault_at [] 0) with (@None fault).
    change (fault_at [] 1) with (@None fault).
    change (exec (PF_deleteOne id) None w)
      with (Ok tt, set_productFiles (delete id (productFiles w)) w).
    cbv iota. rewrite read_result_productFiles. unfold delete_finish.
    destruct (array_method_not_a_sequence _ "filter" Hseq) as [m ->].
    by eexists.
Qed.

Lemma mutations_need_a_sequence_witness :
  exists m,
    run (deleteProduct admin "id-a") []
        (world_of_file (Some "export const products = 7;"))
    = (Ok (RJson 500 (message_error "Error deleting product" m)),
       set_productFiles (delete "id-a" ∅)
         (world_of_file (Some "export const products = 7;")),
       [Ev (PF_deleteOne "id-a"); Ev ReadFile]).
Proof.
  assert (not_a_sequence
            (read_result None (world_of_file (Some "export const products = 7;"))))
    as Hseq by (intros l; vm_compute; discriminate).
  pose proof (mutations_need_a_sequence
                {| user_id := "64b7f1c2a9e4d3001f2e8a10"; user_role := "admin" |}
                (world_of_file (Some "export const products = 7;"))
                eq_refl Hseq) as (_ & _ & H).
  exact (H "id-a").
Defined.

(* ===================================================================== *)
(** * Update: failures, the records it leaves alone *)
(* ===================================================================== *)



Lemma findIndex_first id l i :
  findIndex id l = Ok (Some i) ->
  forall j p, j < i -> l !! j = Some p -> other_id id p.
Proof.
  revert i. induction l as [|q l IH]; intros i; simpl; [done|].
  destruct (get q "id") as [v|m] eqn:Hv; simpl; [|done].
  destruct (strict_eq_string v id) eqn:Heq.
  - intros [= <-] j p Hj. lia.
  - destruct (findIndex id l) as [[i'|]|m]; simpl; try done.
    intros [= <-] [|j] p Hj; simpl.
    + intros [= <-]. exists v. split; [done|]. intros ->.
      simpl in Heq. by rewrite String.eqb_refl in Heq.
    + apply (IH i' eq_refl). lia.
Qed.

(** X15. An Update that goes through rewrites the artifact with the same
    number of records in the same order, and only one of them differs: the
    first that carries the id. Every record before it carries another id;
    every other record, one behind it with the same id included, is
    written as it was read. *)
Theorem updateProduct_touches_one_record (u : Identity) (id : string)
    (fs : list (string * jsval)) (l : list jsval) (i : nat) (w : World) :
  user_role u = "admin" ->
  read_result None w = JArr l ->
  findIndex id l = Ok (Some i) ->
  payload_accepted fs ->
  exists l',
    file (run (updateProduct (Token u) id (JObj fs)) [] w).1.2
    = Some (content_of (JArr l'))
    /\ length l' = length l
    /\ (forall j, j <> i -> l' !! j = l !! j)
    /\ (exists p, l' !! i = Some p /\ has_id id p)
    /\ (forall j p, j < i -> l !! j = Some p -> other_id id p).
Proof.
  intros Hrole Hread Hfind Hcast.
  exists (<[i := updated_of id (default JUndefined (l !! i)) (merged_fields fs)]> l).
  rewrite (run_updateProduct_ok u id fs l i w Hrole Hread Hfind Hcast).
  split; [done|]. split; [by rewrite length_insert|].
  split; [intros j Hj; by rewrite list_lookup_insert_ne|].
  split; [|by apply findIndex_first].
  destruct (findIndex_Some _ _ _ Hfind) as (old & Hold & _).
  eexists. split; [|apply get_updated_id].
  apply list_lookup_insert_eq. by apply lookup_lt_Some in Hold.
Qed.

Lemma updateProduct_touches_one_record_witness :
  exists l',
    file (run (updateProduct admin "id-a" (JObj [("title", JStr "Alpha 2")])) []
            world_a).1.2
    = Some (content_of (JArr l'))
    /\ length l' = 1.
Proof.
  destruct (updateProduct_touches_one_record
              {| user_id := "64b7f1c2a9e4d3001f2e8a10"; user_role := "admin" |}
              "id-a" [("title", JStr "Alpha 2")] [product_a] 0 world_a
              eq_refl read_world_a eq_refl ltac:(intros H; discriminate H))
    as (l' & Hfile & Hlen & _).
  exists l'. split; [exact Hfile|exact Hlen].
Defined.

(* ===================================================================== *)
(** * Property order *)
(* ===================================================================== *)

Lemma array_index_text k n : array_index k = Some n -> k = N_to_string n.
Proof.
  unfold array_index. destruct (digits_N 0 k) as [m|]; [|done].
  destruct (String.eqb_spec (N_to_string m) k) as [<-|]; [|done].
  cbn [andb]. destruct (m <? 4294967295)%N; [|done]. by intros [= ->].
Qed.

Lemma is_name_index k n : array_index k = Some n -> is_name k = false.
Proof. unfold is_name. by intros ->. Qed.

Lemma key_order_prefix lo ks ks' :
  key_order lo (ks ++ ks') = true -> key_order lo ks = true.
Proof.
  revert lo. induction ks as [|k ks IH]; intros lo; [done|].
  cbn [app key_order]. destruct (array_index k) as [n|].
  - intros [H1 H2]%andb_prop. rewrite H1. by apply (IH (Some n)).
  - rewrite forallb_app. by intros [H _]%andb_prop.
Qed.

(** The keys in front of an array index are smaller array indices. *)
Lemma key_order_last lo ks k n :
  key_order lo (ks ++ [k]) = true -> array_index k = Some n ->
  match lo with Some m => (m < n)%N | None => True end
  /\ Forall (fun k' => exists n', array_index k' = Some n' /\ (n' < n)%N) ks.
Proof.
  intros H Hk. revert lo H. induction ks as [|k0 ks IH]; intros lo.
  - cbn [app key_order]. rewrite Hk. intros [H _]%andb_prop.
    split; [|constructor]. destruct lo; [by apply N.ltb_lt|done].
  - cbn [app key_order]. destruct (array_index k0) as [n0|] eqn:Hk0.
    + intros [H1 H2]%andb_prop. destruct (IH (Some n0) H2) as [Hlt Hall].
      split.
      * destruct lo as [m|]; [|done]. apply N.ltb_lt in H1. lia.
      * constructor; [by exists n0|done].
    + rewrite forallb_app. intros [_ H]%andb_prop. cbn [forallb] in H.
      by rewrite (is_name_index _ _ Hk) in H.
Qed.

Lemma obj_insert_last n kv fs :
  Forall (fun k' => exists n', array_index k' = Some n' /\ (n' < n)%N) fs.*1 ->
  obj_insert n kv fs = fs ++ [kv].
Proof.
  induction fs as [|[k0 v0] fs IH]; [done|]. cbn [fmap list_fmap fst].
  intros [(n0 & Hk0 & Hlt) Hall]%Forall_cons. cbn [obj_insert app].
  rewrite Hk0. apply N.ltb_lt in Hlt. rewrite Hlt. by rewrite IH.
Qed.

(** A new key that comes last in property order goes last. *)
Lemma obj_set_fresh k v fs :
  k ∉ fs.*1 -> key_order None (fs.*1 ++ [k]) = true ->
  obj_set k v fs = fs ++ [(k, v)].
Proof.
  intros Hk Hord. unfold obj_set. rewrite (obj_lookup_None _ _ Hk).
  destruct (array_index k) as [n|] eqn:Hn; [|done].
  apply obj_insert_last. by destruct (key_order_last _ _ _ _ Hord Hn).
Qed.

Lemma obj_replace_same k v fs : obj_lookup k fs = Some v -> obj_replace k v fs = fs.
Proof.
  induction fs as [|[k0 v0] fs IH]; cbn [obj_lookup obj_replace]; [done|].
  destruct (String.eqb k0 k); [by intros [= ->]|]. intros H. by rewrite IH.
Qed.

Lemma obj_set_same k v fs : obj_lookup k fs = Some v -> obj_set k v fs = fs.
Proof. intros H. unfold obj_set. rewrite H. by apply obj_replace_same. Qed.

Lemma assign_restates fso fs : restates fs fso -> assign fso fs = fso.
Proof.
  unfold assign. induction 1 as [|[k v] fs Hkv _ IH]; simpl; [done|].
  simpl in Hkv. by rewrite (obj_set_same _ _ _ Hkv).
Qed.

Lemma assign_fresh acc fs :
  NoDup (acc ++ fs).*1 -> key_order None (acc ++ fs).*1 = true ->
  assign acc fs = acc ++ fs.
Proof.
  unfold assign. revert acc. induction fs as [|[k v] fs IH]; intros acc Hnd Hord.
  - by rewrite app_nil_r.
  - cbn [fold_left fst snd]. rewrite obj_set_fresh.
    + rewrite IH; rewrite <- app_assoc; done.
    + rewrite fmap_app in Hnd. apply NoDup_app in Hnd as (_ & Hd & _).
      intros Hin. apply (Hd k Hin). simpl. apply elem_of_cons. by left.
    + rewrite fmap_app in Hord. cbn [fmap list_fmap fst] in Hord.
      apply (key_order_prefix None (acc.*1 ++ [k]) fs.*1).
      by rewrite <- app_assoc.
Qed.

Lemma spread_record fso :
  NoDup fso.*1 -> key_order None fso.*1 = true -> spread (JObj fso) = fso.
Proof. intros Hnd Hord. unfold spread. cbn [own_props]. by rewrite assign_fresh. Qed.

(** ** A write keeps the property order *)

Lemma key_order_name lo ks k :
  key_order lo ks = true -> is_name k = true -> key_order lo (ks ++ [k]) = true.
Proof.
  intros H Hk. revert lo H. induction ks as [|k0 ks IH]; intros lo.
  - intros _. cbn [app key_order]. unfold is_name in Hk.
    by destruct (array_index k).
  - cbn [app key_order]. destruct (array_index k0) as [n0|].
    + intros [H1 H2]%andb_prop. rewrite H1. by apply (IH (Some n0)).
    + intros H. rewrite forallb_app, H. cbn [forallb]. by rewrite Hk.
Qed.

Lemma key_order_insert lo n k v fs :
  array_index k = Some n -> k ∉ fs.*1 ->
  match lo with Some m => (m < n)%N | None => True end ->
  key_order lo fs.*1 = true ->
  key_order lo (obj_insert n (k, v) fs).*1 = true.
Proof.
  intros Hk. revert lo. induction fs as [|[k0 v0] fs IH]; intros lo Hfresh Hlo.
  - intros _. cbn [obj_insert fmap list_fmap fst key_order]. rewrite Hk.
    destruct lo as [m|]; [|done]. apply N.ltb_lt in Hlo. by rewrite Hlo.
  - cbn [fmap list_fmap fst] in Hfresh. apply not_elem_of_cons in Hfresh as [Hne Hfresh].
    cbn [obj_insert fmap list_fmap fst key_order].
    destruct (array_index k0) as [n0|] eqn:Hk0.
    + intros [H1 H2]%andb_prop.
      destruct (N.ltb_spec n0 n) as [Hlt|Hge].
      * cbn [fmap list_fmap fst key_order]. rewrite Hk0, H1. cbn [andb].
        by apply (IH (Some n0)).
      * cbn [fmap list_fmap fst key_order]. rewrite Hk, Hk0.
        assert (n <> n0) as Hnn.
        { intros ->. apply Hne.
          by rewrite (array_index_text _ _ Hk), (array_index_text _ _ Hk0). }
        assert ((n <? n0)%N = true) as -> by (apply N.ltb_lt; lia).
        rewrite H2. destruct lo as [m|]; [|done]. apply N.ltb_lt in Hlo.
        by rewrite Hlo.
    + intros H. cbn [fmap list_fmap fst key_order]. rewrite Hk, Hk0, H.
      destruct lo as [m|]; [|done]. apply N.ltb_lt in Hlo. by rewrite Hlo.
Qed.

Lemma obj_set_order k v fs :
  key_order None fs.*1 = true -> key_order None (obj_set k v fs).*1 = true.
Proof.
  intros Hord. unfold obj_set. destruct (obj_lookup k fs) as [v0|] eqn:Hk.
  - by rewrite obj_replace_keys.
  - apply obj_lookup_None_key in Hk.
    destruct (array_index k) as [n|] eqn:Hn.
    + by apply key_order_insert.
    + rewrite fmap_app. cbn [fmap list_fmap fst].
      apply key_order_name; [done|]. unfold is_name. by rewrite Hn.
Qed.

Lemma obj_set_values (P : jsval -> Prop) k v fs :
  P v -> Forall (fun kv => P kv.2) fs -> Forall (fun kv => P kv.2) (obj_set k v fs).
Proof.
  intros Hv Hfs. unfold obj_set. destruct (obj_lookup k fs) as [v0|].
  - induction Hfs as [|[k0 v1] fs H1 Hfs IH]; [constructor|]. cbn [obj_replace].
    destruct (String.eqb k0 k); constructor; auto.
  - destruct (array_index k) as [n|].
    + induction Hfs as [|[k0 v1] fs H1 Hfs IH]; cbn [obj_insert].
      * by repeat constructor.
      * destruct (array_index k0) as [n0|]; [destruct (n0 <? n)%N|];
          repeat (constructor; auto).
    + apply Forall_app. split; [done|]. by repeat constructor.
Qed.

Lemma ordered_object fs :
  ordered (JObj fs) = true
  <-> NoDup fs.*1 /\ key_order None fs.*1 = true
      /\ Forall (fun kv => ordered kv.2 = true) fs.
Proof.
  cbn [ordered]. rewrite !andb_true_iff, bool_decide_eq_true, forallb_forall,
    Forall_forall.
  split.
  - intros [[H1 H2] H3]. repeat split; try done.
    intros kv Hkv. apply H3. by apply list_elem_of_In.
  - intros (H1 & H2 & H3). repeat split; try done.
    intros kv Hkv. apply H3. by apply list_elem_of_In.
Qed.

Lemma ordered_obj_set k v fs :
  ordered v = true -> ordered (JObj fs) = true -> ordered (JObj (obj_set k v fs)) = true.
Proof.
  rewrite !ordered_object. intros Hv (H1 & H2 & H3). split; [|split].
  - by apply obj_set_NoDup.
  - by apply obj_set_order.
  - by apply (obj_set_values (fun x => ordered x = true)).
Qed.

(* ===================================================================== *)
(** * What the parser builds *)
(* ===================================================================== *)

Lemma match_comma_bracket {A} (t : string) (k1 k2 : string -> A) (z : A) :
  match t with
  | String "," r' => k1 r'
  | String "]" r' => k2 r'
  | _ => z
  end
  = match t with
    | EmptyString => z
    | String c r' =>
        if Ascii.eqb c "," then k1 r' else if Ascii.eqb c "]" then k2 r' else z
    end.
Proof.
  destruct t as [|c r']; [done|]. destruct c as [[] [] [] [] [] [] [] []]; reflexivity.
Qed.

Lemma match_comma_brace {A} (t : string) (k1 k2 : string -> A) (z : A) :
  match t with
  | String "," r' => k1 r'
  | String "}" r' => k2 r'
  | _ => z
  end
  = match t with
    | EmptyString => z
    | String c r' =>
        if Ascii.eqb c "," then k1 r' else if Ascii.eqb c "}" then k2 r' else z
    end.
Proof.
  destruct t as [|c r']; [done|]. destruct c as [[] [] [] [] [] [] [] []]; reflexivity.
Qed.

Lemma match_one {A} (a : ascii) (t : string) (k1 : string -> A) (z : A) :
  match t with
  | EmptyString => z
  | String c r' => if Ascii.eqb c a then k1 r' else z
  end
  = match t with
    | EmptyString => z
    | String c r' => if Ascii.eqb c a then k1 r' else z
    end.
Proof. reflexivity. Qed.

Lemma match_bracket {A} (t : string) (k1 : string -> A) (z : A) :
  match t with
  | String "]" r' => k1 r'
  | _ => z
  end
  = match t with
    | EmptyString => z
    | String c r' => if Ascii.eqb c "]" then k1 r' else z
    end.
Proof.
  destruct t as [|c r']; [done|]. destruct c as [[] [] [] [] [] [] [] []]; reflexivity.
Qed.

Lemma match_brace {A} (t : string) (k1 : string -> A) (z : A) :
  match t with
  | String "}" r' => k1 r'
  | _ => z
  end
  = match t with
    | EmptyString => z
    | String c r' => if Ascii.eqb c "}" then k1 r' else z
    end.
Proof.
  destruct t as [|c r']; [done|]. destruct c as [[] [] [] [] [] [] [] []]; reflexivity.
Qed.

Lemma match_quote {A} (t : string) (k1 : string -> A) (z : A) :
  match t with
  | String "034" r' => k1 r'
  | _ => z
  end
  = match t with
    | EmptyString => z
    | String c r' => if Ascii.eqb c "034" then k1 r' else z
    end.
Proof.
  destruct t as [|c r']; [done|]. destruct c as [[] [] [] [] [] [] [] []]; reflexivity.
Qed.

Lemma match_colon {A} (t : string) (k1 : string -> A) (z : A) :
  match t with
  | String ":" r' => k1 r'
  | _ => z
  end
  = match t with
    | EmptyString => z
    | String c r' => if Ascii.eqb c ":" then k1 r' else z
    end.
Proof.
  destruct t as [|c r']; [done|]. destruct c as [[] [] [] [] [] [] [] []]; reflexivity.
Qed.

(** The three parsers, one step each, with their tests on the next
    character written out *)
Lemma parse_value_step f s :
  parse_value (S f) s
  = match skip_ws s with
    | EmptyString => None
    | String c r as t =>
        if Ascii.eqb c "[" then
          match skip_ws r with
          | EmptyString => parse_elements f r []
          | String c' r' =>
              if Ascii.eqb c' "]" then Some (JArr [], r') else parse_elements f r []
          end
        else if Ascii.eqb c "{" then
          match skip_ws r with
          | EmptyString => parse_members f r []
          | String c' r' =>
              if Ascii.eqb c' "}" then Some (JObj [], r') else parse_members f r []
          end
        else if Ascii.eqb c "034" then
          match parse_string r with
          | Some (str, r') => Some (JStr str, r')
          | None => None
          end
        else if Ascii.eqb c "t" then
          (fun r' => (JBool true, r')) <$> strip_prefix "true" t
        else if Ascii.eqb c "f" then
          (fun r' => (JBool false, r')) <$> strip_prefix "false" t
        else if Ascii.eqb c "n" then
          (fun r' => (JNull, r')) <$> strip_prefix "null" t
        else parse_number t
    end.
Proof.
  cbn [parse_value]. destruct (skip_ws s) as [|c r]; [done|].
  rewrite (match_bracket (skip_ws r)), (match_brace (skip_ws r)).
  by destruct (skip_ws r).
Qed.

Lemma parse_elements_step f s acc :
  parse_elements (S f) s acc
  = match parse_value f s with
    | Some (v, r) =>
        match skip_ws r with
        | EmptyString => None
        | String c r' =>
            if Ascii.eqb c "," then parse_elements f r' (v :: acc)
            else if Ascii.eqb c "]" then Some (JArr (rev (v :: acc)), r')
            else None
        end
    | None => None
    end.
Proof.
  cbn [parse_elements]. destruct (parse_value f s) as [[v r]|]; [|done].
  apply match_comma_bracket.
Qed.

Lemma parse_members_step f s acc :
  parse_members (S f) s acc
  = match skip_ws s with
    | EmptyString => None
    | String c r =>
        if Ascii.eqb c "034" then
          match parse_string r with
          | Some (k, r1) =>
              match skip_ws r1 with
              | EmptyString => None
              | String c1 r2 =>
                  if Ascii.eqb c1 ":" then
                    match parse_value f r2 with
                    | Some (v, r3) =>
                        match skip_ws r3 with
                        | EmptyString => None
                        | String c3 r' =>
                            if Ascii.eqb c3 "," then parse_members f r' (obj_set k v acc)
                            else if Ascii.eqb c3 "}"
                                 then Some (JObj (obj_set k v acc), r')
                                 else None
                        end
                    | None => None
                    end
                  else None
              end
          | None => None
          end
        else None
    end.
Proof.
  cbn [parse_members]. rewrite match_quote. destruct (skip_ws s) as [|c r]; [done|].
  destruct (Ascii.eqb c "034"); [|done].
  destruct (parse_string r) as [[k r1]|]; [|done].
  rewrite match_colon. destruct (skip_ws r1) as [|c1 r2]; [done|].
  destruct (Ascii.eqb c1 ":"); [|done].
  destruct (parse_value f r2) as [[v r3]|]; [|done].
  apply match_comma_brace.
Qed.

Lemma parse_number_sign s :
  parse_number s
  = match s with
    | EmptyString => Stored.number_body false s
    | String c r =>
        if Ascii.eqb c "-" then Stored.number_body true r
        else Stored.number_body false s
    end.
Proof.
  destruct s as [|c r]; [done|]. destruct c as [[] [] [] [] [] [] [] []]; reflexivity.
Qed.

Lemma number_body_number neg s v r :
  Stored.number_body neg s = Some (v, r) -> exists x, v = JNum x.
Proof.
  unfold Stored.number_body.
  destruct (scan_digits 0 0 s) as [[ip ilen] s2].
  destruct ilen as [|[|n]]; [done|..];
    (destruct (_ && _); [done|]);
    (destruct s2 as [|c r0];
     [destruct (scan_exponent _) as [ex s4]; intros [= <- _]; by eexists|]);
    destruct c as [[] [] [] [] [] [] [] []];
    try (destruct (scan_exponent _) as [ex s4]; intros [= <- _]; by eexists);
    (destruct (scan_digits ip 0 r0) as [[fp flen] s3];
     destruct flen; [done|];
     destruct (scan_exponent _) as [ex s4]; intros [= <- _]; by eexists).
Qed.

Lemma parse_number_number s v r : parse_number s = Some (v, r) -> exists x, v = JNum x.
Proof.
  rewrite parse_number_sign. destruct s as [|c r0]; [apply number_body_number|].
  destruct (Ascii.eqb c "-"); apply number_body_number.
Qed.

(** Every value that [parse_value] builds is in property order. *)
Lemma parse_ordered (fuel : nat) :
  (forall s v r, parse_value fuel s = Some (v, r) -> ordered v = true)
  /\ (forall s acc v r,
        parse_elements fuel s acc = Some (v, r) ->
        forallb ordered acc = true -> ordered v = true)
  /\ (forall s acc v r,
        parse_members fuel s acc = Some (v, r) ->
        ordered (JObj acc) = true -> ordered v = true).
Proof.
  induction fuel as [|f (IHv & IHe & IHm)]; [by repeat split|].
  split; [|split].
  - intros s v r. rewrite parse_value_step.
    destruct (skip_ws s) as [|c t]; [done|]. cbv zeta.
    destruct (Ascii.eqb c "[").
    { destruct (skip_ws t) as [|c' r'].
      - intros H. by apply (IHe _ _ _ _ H).
      - destruct (Ascii.eqb c' "]"); [by intros [= <- _]|].
        intros H. by apply (IHe _ _ _ _ H). }
    destruct (Ascii.eqb c "{").
    { destruct (skip_ws t) as [|c' r'].
      - intros H. by apply (IHm _ _ _ _ H).
      - destruct (Ascii.eqb c' "}"); [by intros [= <- _]|].
        intros H. by apply (IHm _ _ _ _ H). }
    destruct (Ascii.eqb c "034").
    { destruct (parse_string t) as [[str r']|]; [|done]. by intros [= <- _]. }
    destruct (Ascii.eqb c "t").
    { destruct (strip_prefix "true" (String c t)); cbn; [|done]. by intros [= <- _]. }
    destruct (Ascii.eqb c "f").
    { destruct (strip_prefix "false" (String c t)); cbn; [|done]. by intros [= <- _]. }
    destruct (Ascii.eqb c "n").
    { destruct (strip_prefix "null" (String c t)); cbn; [|done]. by intros [= <- _]. }
    intros H. by destruct (parse_number_number _ _ _ H) as [x ->].
  - intros s acc v r. rewrite parse_elements_step.
    destruct (parse_value f s) as [[x r0]|] eqn:Hx; [|done].
    pose proof (IHv _ _ _ Hx) as Hox.
    destruct (skip_ws r0) as [|c r']; [done|].
    destruct (Ascii.eqb c ",").
    { intros H Hacc. apply (IHe _ _ _ _ H). cbn [forallb]. by rewrite Hox. }
    destruct (Ascii.eqb c "]"); [|done].
    intros [= <- _] Hacc. cbn [ordered]. apply forallb_forall.
    intros y Hy. apply in_app_or in Hy as [Hy|[<-|[]]]; [|done].
    rewrite <- in_rev in Hy. rewrite forallb_forall in Hacc. by apply Hacc.
  - intros s acc v r. rewrite parse_members_step.
    destruct (skip_ws s) as [|c t]; [done|].
    destruct (Ascii.eqb c "034"); [|done].
    destruct (parse_string t) as [[k r1]|]; [|done].
    destruct (skip_ws r1) as [|c1 r2]; [done|].
    destruct (Ascii.eqb c1 ":"); [|done].
    destruct (parse_value f r2) as [[x r3]|] eqn:Hx; [|done].
    pose proof (IHv _ _ _ Hx) as Hox.
    destruct (skip_ws r3) as [|c3 r']; [done|].
    destruct (Ascii.eqb c3 ",").
    { intros H Hacc. apply (IHm _ _ _ _ H). by apply ordered_obj_set. }
    destruct (Ascii.eqb c3 "}"); [|done].
    intros [= <- _] Hacc. by apply ordered_obj_set.
Qed.

Lemma parse_is_ordered text v : parse text = Some v -> ordered v = true.
Proof.
  unfold parse. destruct (parse_value _ text) as [[x r]|] eqn:Hx; [|done].
  destruct (skip_ws r); [|done]. intros [= <-].
  by apply (proj1 (parse_ordered _) _ _ _ Hx).
Qed.

(** What the read returns is in property order. *)
Lemma read_result_ordered f w : ordered (read_result f w) = true.
Proof.
  unfold read_result, read_value.
  destruct f; [done|]. destruct (file w) as [data|]; [|done].
  destruct (jsonStr_of data) as [j|]; [|done].
  destruct (parse (cleanedJson j)) as [v|] eqn:Hv; [|done].
  by apply (parse_is_ordered _ _ Hv).
Qed.

Lemma obj_remove_absent k fs : obj_lookup k fs = None -> obj_remove k fs = fs.
Proof.
  induction fs as [|[k0 v0] fs IH]; simpl; [done|].
  destruct (String.eqb k0 k); [done|]. intros H. by rewrite IH.
Qed.

(** X16. An Update whose body names no payload and only restates values
    the stored record already holds (the empty body among them) changes no
    record: the artifact is rewritten with the records as they were read,
    the blob store is not called, and the answer is 200 with the stored
    record. *)
Theorem updateProduct_restating_changes_nothing (u : Identity) (id : string)
    (fs fso : list (string * jsval)) (l : list jsval) (i : nat) (w : World) :
  user_role u = "admin" ->
  read_result None w = JArr l ->
  findIndex id l = Ok (Some i) ->
  l !! i = Some (JObj fso) ->
  NoDup fso.*1 ->
  obj_lookup "downloadableFile" fs = None ->
  restates fs fso ->
  run (updateProduct (Token u) id (JObj fs)) [] w
  = (Ok (RJson 200 (JObj fso)), set_file (Some (content_of (JArr l))) w,
     [Ev ReadFile; Ev (WriteFile (content_of (JArr l)))]).
Proof.
  intros Hrole Hread Hfind Hi Hnd Hdf Hsame.
  assert (field fs "downloadableFile" = JUndefined) as Hfield
    by (unfold field; by rewrite Hdf).
  assert (payload_accepted fs) as Hcast.
  { unfold payload_accepted. rewrite Hfield. intros H. discriminate H. }
  rewrite (run_updateProduct_ok u id fs l i w Hrole Hread Hfind Hcast). cbv zeta.
  unfold merged_fields, payload_step, payload_calls. cbv zeta. rewrite Hfield.
  change (has_fileData JUndefined) with false. cbv iota.
  change (is_null JUndefined) with false. cbv iota.
  rewrite (obj_remove_absent _ _ Hdf), Hi. simpl.
  assert (key_order None fso.*1 = true) as Hord.
  { pose proof (read_result_ordered None w) as Hl. rewrite Hread in Hl.
    cbn [ordered] in Hl. rewrite forallb_forall in Hl.
    apply list_elem_of_lookup_2, list_elem_of_In, Hl in Hi.
    by apply ordered_object in Hi as (_ & Hi & _). }
  assert (updated_of id (JObj fso) fs = JObj fso) as ->.
  { unfold updated_of. rewrite (spread_record _ Hnd Hord), (assign_restates _ _ Hsame).
    f_equal. apply obj_set_same.
    destruct (findIndex_Some _ _ _ Hfind) as (old & Hold & Hid).
    rewrite Hi in Hold. injection Hold as <-. simpl in Hid.
    destruct (obj_lookup "id" fso); simpl in Hid; congruence. }
  rewrite (list_insert_id _ _ _ Hi). by destruct w.
Qed.

Lemma updateProduct_restating_changes_nothing_witness :
  run (updateProduct admin "id-a" (JObj [("title", JStr "Alpha")])) [] world_a
  = (Ok (RJson 200 product_a), set_file (Some (content_of (JArr [product_a]))) world_a,
     [Ev ReadFile; Ev (WriteFile (content_of (JArr [product_a])))]).
Proof.
  apply (updateProduct_restating_changes_nothing
           {| user_id := "64b7f1c2a9e4d3001f2e8a10"; user_role := "admin" |}
           "id-a" [("title", JStr "Alpha")] _ [product_a] 0 world_a
           eq_refl read_world_a eq_refl eq_refl).
  - apply (bool_decide_unpack _). vm_compute. exact I.
  - reflexivity.
  - constructor; [reflexivity|constructor].
Defined.

(* ===================================================================== *)
(** * Download: who is refused, and when nothing is looked up *)
(* ===================================================================== *)




(** X18. The product ids of an order are used only when the order is
    flagged as a product order: for an authorized caller, an order
    without payload data of its own that is not a product order, or that
    names no product, is answered 404 "No deliverable file found." after
    the lookup of the order alone, whatever the blob store holds. *)
Theorem downloadOrder_ignores_unflagged_ids (u : Identity) (id : string)
    (order : OrderDoc) (w : World) :
  orders w !! id = Some order ->
  may_download u order ->
  str_truthy (downloadableFile order ≫= fileData) = false ->
  isProductOrder order = false \/ productIds order = [] ->
  run (downloadOrder (Token u) id) [] w
  = (Ok (RJson 404 (message "No deliverable file found.")), w,
     [Ev (Order_findById id)]).
Proof.
  intros Horder Hmay Hown Hids.
  rewrite (run_downloadOrder _ _ _ _ Horder Hmay), Hown.
  assert ((if isProductOrder order then productIds order else []) = []) as ->.
  { destruct Hids as [-> | ->]; [done|by destruct (isProductOrder order)]. }
  done.
Qed.

Lemma downloadOrder_ignores_unflagged_ids_witness :
  let order := {| user := "64b7f1c2a9e4d3001f2e8a77"; downloadableFile := None;
                  isProductOrder := false; productIds := ["p2"] |} in
  let w := {| file := None; productFiles := productFiles world_p2_blob;
              users := ∅; orders := {[ "64c0a1b2c3d4e5f601234569" := order ]} |} in
  run (downloadOrder (Token owner) "64c0a1b2c3d4e5f601234569") [] w
  = (Ok (RJson 404 (message "No deliverable file found.")), w,
     [Ev (Order_findById "64c0a1b2c3d4e5f601234569")]).
Proof.
  intros order w.
  assert (orders w !! "64c0a1b2c3d4e5f601234569" = Some order) as Horder by (vm_compute; reflexivity).
  exact (downloadOrder_ignores_unflagged_ids owner "64c0a1b2c3d4e5f601234569" order w Horder
           (or_introl eq_refl) eq_refl (or_introl eq_refl)).
Defined.

(* ===================================================================== *)
(** * Two Adds in flight *)
(* ===================================================================== *)

Transparent readProductsFromConstant writeProductsToConstant.

(** An Add without payload in two steps: the read, then the write of the
    sequence it has read with the new record in front. *)
Lemma addProduct_two_steps (u : Identity) (fs : list (string * jsval))
    (productId : string) :
  user_role u = "admin" ->
  plain_add fs ->
  exists k : jsval -> prog response,
    (forall w,
       step (addProduct (Token u) (JObj fs) productId) w = (k (read_result None w), w))
    /\ (forall l w,
          step (k (JArr l)) w
          = (Ret (RJson 201 (new_record productId fs)),
             set_file (Some (content_of (JArr (new_record productId fs :: l)))) w)).
Proof.
  intros Hrole [Hv Hdata]. unfold field in Hv, Hdata.
  unfold addProduct, authenticateToken, authenticateAdmin.
  rewrite Hrole. simpl. rewrite Hv, Hdata.
  match goal with
  | |- context [try_catch (Await ReadFile (fun r => bind (@?p r) ?rest)) ?h] =>
      exists (fun products => try_catch (rest products) h)
  end.
  split.
  - intros w. simpl. unfold exec, read_result, read_value. simpl.
    destruct (file w) as [data|]; simpl; [|done].
    destruct (jsonStr_of data) as [j|]; simpl; [|done].
    by destruct (parse (cleanedJson j)).
  - intros l w. unfold array_method. simpl. unfold exec. simpl.
    unfold new_record, field. done.
Qed.

Opaque readProductsFromConstant writeProductsToConstant.

(** X19. The lost update, in general. When two Adds without payload are
    in flight and both read the artifact before either writes it, both are
    answered 201 with their record, and the artifact ends as the sequence
    they read with the record of the Add that wrote last in front: the
    record of the other Add is in no store. *)
Theorem interleaved_adds_keep_the_last_write (u : Identity)
    (fsa fsb : list (string * jsval)) (ida idb : string) (l : list jsval)
    (w : World) :
  user_role u = "admin" ->
  plain_add fsa ->
  plain_add fsb ->
  read_result None w = JArr l ->
  let '(p', q', w') :=
    interleave [true; false; true; false]
      (addProduct (Token u) (JObj fsa) ida) (addProduct (Token u) (JObj fsb) idb) w in
  outcome p' = Some (Ok (RJson 201 (new_record ida fsa)))
  /\ outcome q' = Some (Ok (RJson 201 (new_record idb fsb)))
  /\ w' = set_file (Some (content_of (JArr (new_record idb fsb :: l)))) w.
Proof.
  intros Hrole Ha Hb Hread.
  destruct (addProduct_two_steps u fsa ida Hrole Ha) as (ka & Ha1 & Ha2).
  destruct (addProduct_two_steps u fsb idb Hrole Hb) as (kb & Hb1 & Hb2).
  cbn [interleave]. rewrite Ha1, Hb1, Hread, Ha2, Hb2. by destruct w.
Qed.

Lemma interleaved_adds_keep_the_last_write_witness :
  let fsa := [ ("title", JStr "Alpha"); ("description", JStr "A dashboard");
               ("images", JArr [JStr "a.png"]); ("price", JNum (Dec 12 0));
               ("category", JStr "web") ] in
  let fsb := [ ("title", JStr "Beta"); ("description", JStr "A dashboard");
               ("images", JArr [JStr "b.png"]); ("price", JNum (Dec 25 0));
               ("category", JStr "web") ] in
  (interleave [true; false; true; false]
     (addProduct admin (JObj fsa) "id-a") (addProduct admin (JObj fsb) "id-b")
     (world_of_file None)).2
  = world_of_file (Some (content_of (JArr [new_record "id-b" fsb]))).
Proof.
  intros fsa fsb.
  pose proof (interleaved_adds_keep_the_last_write
                {| user_id := "64b7f1c2a9e4d3001f2e8a10"; user_role := "admin" |}
                fsa fsb "id-a" "id-b" [] (world_of_file None) eq_refl
                (conj eq_refl eq_refl) (conj eq_refl eq_refl) eq_refl) as H.
  change (Token _) with admin in H.
  destruct (interleave _ _ _ _) as [[p' q'] w']. by destruct H as (_ & _ & ->).
Defined.

(* ===================================================================== *)
(** * The text of the artifact: framing and clean-up *)
(* ===================================================================== *)

Section Scan.
Variable d : ascii.

Lemma match_spaces_then_covers s n :
  match_spaces_then d s = Some n -> 1 <= n <= String.length s.
Proof. apply match_spaces_then_bound. Qed.

Lemma replace_scan_length n s :
  String.length (replace_scan d n s) <= String.length s - n.
Proof.
  revert n. induction s as [|c s IH]; intros n; simpl; [lia|].
  destruct n as [|k]; [|apply IH].
  destruct (Ascii.eqb c ",").
  - destruct (match_spaces_then d s) as [m|]; simpl.
    + specialize (IH m). lia.
    + specialize (IH 0). lia.
  - simpl. specialize (IH 0). lia.
Qed.

Lemma replace_scan_fixes s : comma_before d s = false -> replace_scan d 0 s = s.
Proof.
  induction s as [|c s IH]; simpl; [done|].
  intros [Hc Hs]%orb_false_elim. rewrite (IH Hs).
  destruct (Ascii.eqb c ","); [|done].
  by destruct (match_spaces_then d s).
Qed.

Lemma replace_scan_shrinks s :
  comma_before d s = true -> String.length (replace_scan d 0 s) < String.length s.
Proof.
  induction s as [|c s IH]; simpl; [done|]. intros H.
  destruct (Ascii.eqb c ","); simpl in H.
  - destruct (match_spaces_then d s) as [m|] eqn:Hm; simpl in *.
    + pose proof (match_spaces_then_covers _ _ Hm).
      pose proof (replace_scan_length m s). lia.
    + specialize (IH H). lia.
  - simpl. specialize (IH H). lia.
Qed.

End Scan.

(** X20. The clean-up leaves a text as it is exactly when no comma of the
    text is followed by white space, if any, and a closing bracket or
    brace. It does not read the text as JSON: such a comma is removed
    wherever it stands, inside a string literal as well. *)
Theorem cleanedJson_changes_exactly (s : string) :
  cleanedJson s = s <-> comma_before "]" s = false /\ comma_before "}" s = false.
Proof.
  unfold cleanedJson, replace_comma_before. split.
  - intros Heq.
    pose proof (replace_scan_length "}" 0 (replace_scan "]" 0 s)) as H2.
    rewrite Heq in H2.
    destruct (comma_before "]" s) eqn:H1.
    { pose proof (replace_scan_shrinks "]" s H1). lia. }
    rewrite (replace_scan_fixes _ _ H1) in Heq.
    destruct (comma_before "}" s) eqn:H3; [|done].
    pose proof (replace_scan_shrinks "}" s H3) as H4. rewrite Heq in H4. lia.
  - intros [H1 H2]. by rewrite (replace_scan_fixes _ _ H1), (replace_scan_fixes _ _ H2).
Qed.

Lemma trimEnd_keeps (s : string) (c : ascii) :
  solid c = true -> trimEnd (s +:+ String c "") = s +:+ String c "".
Proof.
  intros Hc. induction s as [|a s IH].
  - pose proof (all_space_app_solid "" c "" Hc) as H.
    rewrite string_app_nil_l in *. cbn [trimEnd]. by rewrite H.
  - pose proof (all_space_app_solid (String a s) c "" Hc) as H.
    rewrite string_app_cons in *. cbn [trimEnd]. by rewrite IH, H.
Qed.

Lemma endsWith_last (s : string) (c : ascii) : endsWith c (s +:+ String c "") = true.
Proof.
  induction s as [|a s IH].
  - simpl. apply Ascii.eqb_refl.
  - rewrite string_app_cons. cbn [endsWith]. rewrite IH. by destruct s.
Qed.

Lemma slice_init_last (s : string) (c : ascii) : slice_init (s +:+ String c "") = s.
Proof.
  induction s as [|a s IH]; [done|].
  rewrite string_app_cons. cbn [slice_init]. rewrite IH. by destruct s.
Qed.

Lemma prefix_app (m x : string) : String.prefix m (m +:+ x) = true.
Proof.
  induction m as [|a m IH]; [by destruct x|].
  rewrite string_app_cons. cbn [String.prefix].
  destruct (ascii_dec a a); [apply IH|done].
Qed.

Lemma indexOf_prefix (m x : string) : indexOf m (m +:+ x) = Some 0.
Proof.
  destruct m as [|a m]; [by destruct x|].
  rewrite string_app_cons. cbn [indexOf]. rewrite <- string_app_cons.
  by rewrite prefix_app.
Qed.

Lemma substring_from_app (m x : string) :
  substring_from (String.length m) (m +:+ x) = x.
Proof.
  induction m as [|a m IH]; [done|]. rewrite string_app_cons. apply IH.
Qed.

Lemma jsonStr_of_frame (c : ascii) (t : string) :
  solid c = true ->
  jsonStr_of (startMarker +:+ String c t +:+ ";") = Some (String c t).
Proof.
  intros Hc. unfold jsonStr_of.
  rewrite indexOf_prefix. cbn [Nat.add]. rewrite substring_from_app.
  unfold trim. rewrite string_app_cons.
  rewrite (trimStart_width _ (solid_width c (t +:+ ";") Hc)).
  rewrite <- string_app_cons.
  by rewrite trimEnd_keeps, endsWith_last, slice_init_last.
Qed.

Lemma stringify_sequence l : exists t, stringify (JArr l) = String "[" t.
Proof.
  unfold stringify. simpl. destruct l as [|x l]; by eexists.
Qed.

(** X21. What the write frames, the read unframes: in the text written
    for a sequence, the marker is found at the start, and the text between
    the marker and the final semicolon, which is what the read hands to
    the clean-up and the parser, is the serialization of the sequence,
    character for character. *)
Theorem written_text_is_unframed (l : list jsval) :
  jsonStr_of (content_of (JArr l)) = Some (stringify (JArr l))
  /\ read_value (content_of (JArr l))
     = default (JArr []) (parse (cleanedJson (stringify (JArr l)))).
Proof.
  assert (jsonStr_of (content_of (JArr l)) = Some (stringify (JArr l))) as H.
  { unfold content_of. destruct (stringify_sequence l) as [t ->].
    by apply jsonStr_of_frame. }
  split; [done|]. unfold read_value. by rewrite H.
Qed.

(* ===================================================================== *)
(** * What the transformations strip *)
(* ===================================================================== *)

Import Transform.

Lemma obj_remove_gone k fs : k ∉ (obj_remove k fs).*1.
Proof.
  induction fs as [|[k0 v0] fs IH]; simpl; [apply not_elem_of_nil|].
  destruct (String.eqb_spec k0 k) as [->|Hne]; [done|]. simpl.
  apply not_elem_of_cons. split; [congruence|done].
Qed.

Lemma obj_remove_stays_gone k k' fs : k ∉ fs.*1 -> k ∉ (obj_remove k' fs).*1.
Proof. intros Hk Hin. apply Hk. by apply (obj_remove_keys k' fs). Qed.

Lemma toString_defined v :
  v <> JNull -> v <> JUndefined -> toString v = Ok (to_string v).
Proof. by destruct v. Qed.

(** X22. [transformUser] on a user object with an [_id]: the result has
    no [password], no [_id] and no [__v] key, its [id] is the text of the
    [_id], and every other field is as it was. *)
Theorem transformUser_hides_credentials (userObj : list (string * jsval))
    (oid : jsval) :
  obj_lookup "_id" userObj = Some oid ->
  oid <> JNull -> oid <> JUndefined ->
  exists out,
    transformUser userObj = Ok out
    /\ ("password" ∉ out.*1) /\ ("_id" ∉ out.*1) /\ ("__v" ∉ out.*1)
    /\ obj_lookup "id" out = Some (JStr (to_string oid))
    /\ (forall k, k <> "id" -> k <> "_id" -> k <> "__v" -> k <> "password" ->
          obj_lookup k out = obj_lookup k userObj).
Proof.
  intros Hid Hn Hu. unfold transformUser. rewrite Hid. simpl.
  rewrite (toString_defined _ Hn Hu). simpl. eexists. split; [done|].
  split; [apply obj_remove_gone|].
  split; [apply obj_remove_stays_gone, obj_remove_stays_gone, obj_remove_gone|].
  split; [apply obj_remove_stays_gone, obj_remove_gone|].
  split.
  - rewrite !obj_lookup_remove. simpl. apply obj_lookup_set_eq.
  - intros k Hk1 Hk2 Hk3 Hk4. rewrite !obj_lookup_remove.
    destruct (String.eqb_spec "password" k); [congruence|].
    destruct (String.eqb_spec "__v" k); [congruence|].
    destruct (String.eqb_spec "_id" k); [congruence|].
    by apply obj_lookup_set_ne.
Qed.

Lemma transformUser_hides_credentials_witness :
  exists out,
    transformUser [ ("_id", JStr "64b7f1c2a9e4d3001f2e8a77");
                    ("email", JStr "a@example.org");
                    ("password", JStr "$2a$10$abcdefghijklmnopqrstuv");
                    ("role", JStr "customer"); ("__v", JNum (Dec 0 0)) ]
    = Ok out
    /\ ("password" ∉ out.*1)
    /\ obj_lookup "email" out = Some (JStr "a@example.org").
Proof.
  destruct (transformUser_hides_credentials
              [ ("_id", JStr "64b7f1c2a9e4d3001f2e8a77");
                ("email", JStr "a@example.org");
                ("password", JStr "$2a$10$abcdefghijklmnopqrstuv");
                ("role", JStr "customer"); ("__v", JNum (Dec 0 0)) ]
              (JStr "64b7f1c2a9e4d3001f2e8a77") eq_refl
              ltac:(discriminate) ltac:(discriminate))
    as (out & Hout & Hpw & _ & _ & _ & Hother).
  exists out. split; [exact Hout|]. split; [exact Hpw|].
  by rewrite Hother.
Defined.

(** X23. [transformOrder] on an order object with an [_id]: the result has
    no [_id] and no [__v] key and its [id] is the text of the [_id]; an
    attached file is returned without its [fileData], with its name copied
    to [downloadableFileName]; a populated user is returned without
    [password], [_id] and [__v]. *)
Theorem transformOrder_strips_payload (orderObj : list (string * jsval))
    (oid : jsval) :
  obj_lookup "_id" orderObj = Some oid ->
  oid <> JNull -> oid <> JUndefined ->
  exists out,
    transformOrder orderObj = Ok out
    /\ ("_id" ∉ out.*1) /\ ("__v" ∉ out.*1)
    /\ obj_lookup "id" out = Some (JStr (to_string oid))
    /\ (forall df,
          obj_lookup "downloadableFile" orderObj = Some (JObj df) ->
          obj_lookup "downloadableFile" out = Some (JObj (obj_remove "fileData" df))
          /\ ("fileData" ∉ (obj_remove "fileData" df).*1)
          /\ obj_lookup "downloadableFileName" out
             = Some (default JUndefined (obj_lookup "fileName" df)))
    /\ (forall uf,
          obj_lookup "user" orderObj = Some (JObj uf) ->
          exists uf',
            obj_lookup "user" out = Some (JObj uf')
            /\ ("password" ∉ uf'.*1) /\ ("_id" ∉ uf'.*1) /\ ("__v" ∉ uf'.*1)).
Proof.
  intros Hid Hn Hu. unfold transformOrder. rewrite Hid. simpl.
  rewrite (toString_defined _ Hn Hu). simpl.
  set (o1 := obj_set "id" (JStr (to_string oid)) orderObj).
  set (usr := default JUndefined (obj_lookup "user" o1)).
  set (o2 := if truthy usr && is_plain_object usr then _ else o1).
  set (dfv := default JUndefined (obj_lookup "downloadableFile" o2)).
  set (o3 := if truthy dfv then _ else o2).
  assert (forall k, k <> "user" -> obj_lookup k o2 = obj_lookup k orderObj
                                   \/ k = "id") as Ho2.
  { intros k Hk. destruct (String.eqb_spec k "id") as [->|Hne]; [by right|left].
    subst o2 o1. destruct (_ && _); rewrite ?obj_lookup_set_ne by done; done. }
  assert (obj_lookup "id" o3 = Some (JStr (to_string oid))) as Ho3.
  { subst o3 o2 o1.
    destruct (truthy dfv); destruct (_ && _);
      rewrite ?obj_lookup_set_ne by discriminate; apply obj_lookup_set_eq. }
  eexists. split; [done|].
  split; [apply obj_remove_stays_gone, obj_remove_gone|].
  split; [apply obj_remove_gone|].
  split; [|split].
  - rewrite !obj_lookup_remove. simpl. exact Ho3.
  - intros df Hdf.
    assert (dfv = JObj df) as Hdfv.
    { subst dfv. destruct (Ho2 "downloadableFile" ltac:(discriminate)) as [->|];
        [by rewrite Hdf|discriminate]. }
    rewrite !obj_lookup_remove. simpl. subst o3. rewrite Hdfv. simpl.
    split; [apply obj_lookup_set_eq|]. split; [apply obj_remove_gone|].
    rewrite obj_lookup_set_ne by discriminate. rewrite obj_lookup_set_eq.
    done.
  - intros uf Huf.
    assert (usr = JObj uf) as Husr.
    { subst usr o1. rewrite obj_lookup_set_ne by discriminate. by rewrite Huf. }
    assert (obj_lookup "user" o2
            = Some (JObj (obj_remove "password"
                            (obj_remove "__v" (obj_remove "_id" uf))))) as Hu2.
    { subst o2. rewrite Husr. simpl. apply obj_lookup_set_eq. }
    eexists. split.
    + rewrite !obj_lookup_remove. simpl. subst o3.
      destruct (truthy dfv); rewrite ?obj_lookup_set_ne by discriminate;
        exact Hu2.
    + split; [apply obj_remove_gone|].
      split; [apply obj_remove_stays_gone, obj_remove_stays_gone, obj_remove_gone|].
      apply obj_remove_stays_gone, obj_remove_gone.
Qed.

Lemma transformOrder_strips_payload_witness :
  exists out,
    transformOrder [ ("_id", JStr "64b7f1c2a9e4d3001f2e8b01");
                     ("user", JStr "64b7f1c2a9e4d3001f2e8a77");
                     ("downloadableFile",
                        JObj [("fileName", JStr "custom.zip");
                              ("fileData", JStr "UEsFBgAAAAA=")]);
                     ("__v", JNum (Dec 0 0)) ]
    = Ok out
    /\ obj_lookup "downloadableFile" out
       = Some (JObj [("fileName", JStr "custom.zip")])
    /\ obj_lookup "downloadableFileName" out = Some (JStr "custom.zip").
Proof.
  destruct (transformOrder_strips_payload
              [ ("_id", JStr "64b7f1c2a9e4d3001f2e8b01");
                ("user", JStr "64b7f1c2a9e4d3001f2e8a77");
                ("downloadableFile",
                   JObj [("fileName", JStr "custom.zip");
                         ("fileData", JStr "UEsFBgAAAAA=")]);
                ("__v", JNum (Dec 0 0)) ]
              (JStr "64b7f1c2a9e4d3001f2e8b01") eq_refl
              ltac:(discriminate) ltac:(discriminate))
    as (out & Hout & _ & _ & _ & Hfile & _).
  destruct (Hfile _ eq_refl) as (Hdf & _ & Hname).
  exists out. split; [exact Hout|]. split; [exact Hdf|exact Hname].
Defined.

(* ===================================================================== *)
(** * The artifact holds what is written *)
(* ===================================================================== *)

Import Stored.

(** ** Runs of decimal digits *)

Lemma stop_char_not_digit c : c = ","%char \/ c = "010"%char -> Ascii.is_nat c = None.
Proof. by intros [-> | ->]. Qed.

Lemma scan_digits_app acc len s rest :
  all_digits s = true ->
  match rest with EmptyString => True | String c _ => Ascii.is_nat c = None end ->
  scan_digits acc len (s +:+ rest) = (digits_value acc s, len + String.length s, rest).
Proof.
  revert acc len. induction s as [|c s IH]; intros acc len Hs Hrest.
  - rewrite string_app_nil_l. simpl. rewrite Nat.add_0_r.
    destruct rest as [|c r]; [done|]. simpl. by rewrite Hrest.
  - rewrite string_app_cons. simpl in *.
    destruct (Ascii.is_nat c) as [d|]; [|done].
    rewrite (IH _ _ Hs Hrest). f_equal. f_equal. lia.
Qed.

Lemma digits_value_app acc s t :
  all_digits s = true -> digits_value acc (s +:+ t) = digits_value (digits_value acc s) t.
Proof.
  revert acc. induction s as [|c s IH]; intros acc Hs; [done|].
  rewrite string_app_cons. simpl in *.
  destruct (Ascii.is_nat c); [by apply IH|done].
Qed.

Lemma all_digits_app s t : all_digits (s +:+ t) = all_digits s && all_digits t.
Proof.
  induction s as [|c s IH]; [done|]. rewrite string_app_cons. simpl.
  by destruct (Ascii.is_nat c).
Qed.

Lemma all_digits_zeros n : all_digits (zeros n) = true.
Proof. induction n; simpl; done. Qed.

Lemma length_zeros n : String.length (zeros n) = n.
Proof. induction n; simpl; [done|by f_equal]. Qed.

Lemma digits_value_zeros acc n : digits_value acc (zeros n) = (acc * 10 ^ Z.of_nat n)%Z.
Proof.
  revert acc. induction n as [|n IH]; intros acc.
  - simpl. lia.
  - cbn [zeros digits_value Ascii.is_nat]. rewrite IH.
    rewrite Nat2Z.inj_succ, Z.pow_succ_r by lia. simpl. lia.
Qed.

(** The digits that [digits_of] prints are those of Rocq's decimal
    numerals, read most significant digit first. *)
Lemma all_digits_uint d : all_digits (NilEmpty.string_of_uint d) = true.
Proof. induction d; simpl; done. Qed.

Lemma digits_value_uint_acc d (acc : positive) :
  digits_value (Z.pos acc) (NilEmpty.string_of_uint d) = Z.pos (Pos.of_uint_acc d acc).
Proof.
  revert acc. induction d as [|d IH|d IH|d IH|d IH|d IH|d IH|d IH|d IH|d IH|d IH];
    intros acc; [done|..];
    cbn [NilEmpty.string_of_uint digits_value Ascii.is_nat Pos.of_uint_acc];
    rewrite <- IH; f_equal; lia.
Qed.

Lemma digits_value_uint d :
  digits_value 0 (NilEmpty.string_of_uint d) = Z.of_N (Pos.of_uint d).
Proof.
  induction d as [|d IH|d IH|d IH|d IH|d IH|d IH|d IH|d IH|d IH|d IH];
    [done| |..];
    cbn [NilEmpty.string_of_uint digits_value Ascii.is_nat Pos.of_uint];
    [exact IH|..];
    (etransitivity; [|apply digits_value_uint_acc]); f_equal.
Qed.

Lemma digits_of_pos p : digits_of (Z.pos p) = NilEmpty.string_of_uint (Pos.to_uint p).
Proof.
  unfold digits_of. simpl. unfold NilZero.string_of_uint.
  destruct (Pos.to_uint p) eqn:Hd; try done.
  pose proof (Unsigned.of_to p) as H. rewrite Hd in H. done.
Qed.

Lemma digits_of_value p : digits_value 0 (digits_of (Z.pos p)) = Z.pos p.
Proof. rewrite digits_of_pos, digits_value_uint, Unsigned.of_to. done. Qed.

Lemma digits_of_all p : all_digits (digits_of (Z.pos p)) = true.
Proof. rewrite digits_of_pos. apply all_digits_uint. Qed.

(** The first digit is not zero. *)
Lemma digits_of_head p :
  exists c s, digits_of (Z.pos p) = String c s
              /\ Ascii.is_nat c <> None /\ c <> "0"%char.
Proof.
  rewrite digits_of_pos.
  pose proof (Unsigned.to_of (Pos.to_uint p)) as Hn.
  rewrite Unsigned.of_to in Hn. simpl in Hn.
  pose proof (Unsigned.of_to p) as Hv.
  destruct (Pos.to_uint p) as [|d|d|d|d|d|d|d|d|d|d] eqn:Hd;
    try (eexists _, _; split; [reflexivity|]; split; done).
  - done.
  - exfalso. unfold Decimal.unorm in Hn. simpl in Hn.
    pose proof (nb_digits_nzhead d) as Hle.
    destruct (Decimal.nzhead d) eqn:Hz.
    + injection Hn as ->. done.
    + rewrite <- Hn in Hle. simpl in Hle. lia.
    + rewrite <- Hn in Hle. simpl in Hle. lia.
    + rewrite <- Hn in Hle. simpl in Hle. lia.
    + rewrite <- Hn in Hle. simpl in Hle. lia.
    + rewrite <- Hn in Hle. simpl in Hle. lia.
    + rewrite <- Hn in Hle. simpl in Hle. lia.
    + rewrite <- Hn in Hle. simpl in Hle. lia.
    + rewrite <- Hn in Hle. simpl in Hle. lia.
    + rewrite <- Hn in Hle. simpl in Hle. lia.
    + rewrite <- Hn in Hle. simpl in Hle. lia.
Qed.

(** ** String literals: [parse_string] undoes [escape] *)

Lemma escape_cons (c : ascii) (s : string) :
  escape (String c s) = escape (String c "") +:+ escape s.
Proof. destruct c as [[] [] [] [] [] [] [] []]; reflexivity. Qed.

Lemma parse_string_escape_char (c : ascii) (t : string) :
  parse_string (escape (String c "") +:+ t) = prepend (String c "") (parse_string t).
Proof. destruct c as [[] [] [] [] [] [] [] []]; reflexivity. Qed.

Lemma parse_string_escape (s rest : string) :
  parse_string (escape s +:+ String "034" rest) = Some (s, rest).
Proof.
  induction s as [|c s IH]; [reflexivity|].
  rewrite escape_cons, string_app_assoc, parse_string_escape_char, IH.
  reflexivity.
Qed.

(** ** Numbers *)

Lemma number_to_string_sign m e :
  m <> 0%Z ->
  number_to_string (Dec m e)
  = (if (m <? 0)%Z then "-" else "") +:+ unsigned_text (Z.abs m) e.
Proof.
  intros Hm. unfold number_to_string, unsigned_text.
  destruct (Z.eqb_spec m 0); [done|]. reflexivity.
Qed.

Lemma parse_number_neg s : parse_number (String "-" s) = number_body true s.
Proof. reflexivity. Qed.

Lemma parse_number_digit c s :
  Ascii.is_nat c <> None -> parse_number (String c s) = number_body false (String c s).
Proof.
  intros Hc. destruct c as [[] [] [] [] [] [] [] []]; try reflexivity; done.
Qed.

(** [mk_dec] strips the zeros the text has added. *)
Lemma strip_zeros_pow (j : nat) (m e0 : Z) (fuel : nat) :
  m <> 0%Z -> (m mod 10 <> 0)%Z -> j < fuel ->
  strip_zeros fuel (m * 10 ^ Z.of_nat j) e0 = (m, (e0 + Z.of_nat j)%Z).
Proof.
  intros Hm Hmod. revert e0 fuel. induction j as [|j IH]; intros e0 fuel Hf.
  - destruct fuel as [|f]; [lia|]. simpl.
    rewrite Z.mul_1_r, Z.add_0_r.
    destruct (Z.eqb_spec m 0); [done|].
    destruct (Z.eqb_spec (m mod 10) 0); [done|]. done.
  - destruct fuel as [|f]; [lia|]. cbn [strip_zeros].
    rewrite Nat2Z.inj_succ, Z.pow_succ_r by lia.
    assert (m * (10 * 10 ^ Z.of_nat j) = (m * 10 ^ Z.of_nat j) * 10)%Z as -> by lia.
    destruct (Z.eqb_spec (m * 10 ^ Z.of_nat j * 10) 0) as [H0|_].
    { assert (0 < 10 ^ Z.of_nat j)%Z by (apply Z.pow_pos_nonneg; lia). nia. }
    rewrite Z.mod_mul by lia. simpl.
    rewrite Z.div_mul by lia. rewrite IH by lia. f_equal. lia.
Qed.

Lemma mk_dec_pow (m : Z) (j : nat) (e : Z) :
  m <> 0%Z -> (m mod 10 <> 0)%Z ->
  mk_dec (m * 10 ^ Z.of_nat j) e = Dec m (e + Z.of_nat j).
Proof.
  intros Hm Hmod. unfold mk_dec. rewrite strip_zeros_pow; [done..|].
  assert (0 < 10 ^ Z.of_nat j)%Z as Hpos by (apply Z.pow_pos_nonneg; lia).
  assert (2 ^ Z.of_nat j <= Z.abs (m * 10 ^ Z.of_nat j))%Z as Hle.
  { rewrite Z.abs_mul, (Z.abs_eq (10 ^ _)) by lia.
    assert (2 ^ Z.of_nat j <= 10 ^ Z.of_nat j)%Z
      by (apply Z.pow_le_mono_l; lia).
    assert (1 <= Z.abs m)%Z by lia. nia. }
  apply Z.log2_le_mono in Hle. rewrite Z.log2_pow2 in Hle by lia. lia.
Qed.

Lemma mk_dec_plain (m e : Z) :
  m <> 0%Z -> (m mod 10 <> 0)%Z -> mk_dec m e = Dec m e.
Proof.
  intros Hm Hmod. pose proof (mk_dec_pow m 0 e Hm Hmod) as H.
  rewrite Z.mul_1_r, Z.add_0_r in H. exact H.
Qed.

Lemma substring_split (n : nat) (s : string) :
  n <= String.length s ->
  String.substring 0 n s +:+ substring_from n s = s
  /\ String.length (String.substring 0 n s) = n.
Proof.
  revert n. induction s as [|c s IH]; intros [|n] Hn; simpl in *;
    [by split|lia|by split|].
  destruct (IH n ltac:(lia)) as [H1 H2]. by rewrite string_app_cons, H1, H2.
Qed.

Lemma scan_exponent_closed rest : closed rest -> scan_exponent rest = (0%Z, rest).
Proof. destruct rest as [|c r]; [done|]. by intros [-> | ->]. Qed.

Lemma closed_not_digit rest :
  closed rest ->
  match rest with EmptyString => True | String c _ => Ascii.is_nat c = None end.
Proof. destruct rest as [|c r]; [done|]. by intros [-> | ->]. Qed.

Lemma closed_not_dot rest :
  closed rest -> match rest with String "." _ => False | _ => True end.
Proof. destruct rest as [|c r]; [intros _; exact I|]. intros [-> | ->]; exact I. Qed.

Lemma prefix_zero_head c s : c <> "0"%char -> String.prefix "0" (String c s) = false.
Proof. intros Hc. cbn [String.prefix]. destruct (ascii_dec "0" c); [congruence|done]. Qed.

Lemma prefix_zero_app c s t :
  c <> "0"%char -> String.prefix "0" (String c s +:+ t) = false.
Proof. intros Hc. rewrite string_app_cons. by apply prefix_zero_head. Qed.

Lemma mk_dec_signed_pow (neg : bool) (p : positive) (j : nat) (e : Z) :
  (Z.pos p mod 10 <> 0)%Z -> Z.of_nat j = e ->
  mk_dec (if neg then (- (Z.pos p * 10 ^ Z.of_nat j))%Z
          else (Z.pos p * 10 ^ Z.of_nat j)%Z) 0
  = Dec (if neg then Z.neg p else Z.pos p) e.
Proof.
  intros Hmod <-. destruct neg.
  - rewrite <- Z.mul_opp_l. change (- Z.pos p)%Z with (Z.neg p).
    rewrite mk_dec_pow; [done|done|].
    intros H. apply Hmod. change (Z.neg p) with (- Z.pos p)%Z in H.
    apply Z.mod_divide in H; [|lia]. apply Z.mod_divide; [lia|].
    by apply Z.divide_opp_r in H.
  - by rewrite mk_dec_pow.
Qed.

Lemma mk_dec_signed (neg : bool) (p : positive) (e : Z) :
  (Z.pos p mod 10 <> 0)%Z ->
  mk_dec (if neg then (- Z.pos p)%Z else Z.pos p) e
  = Dec (if neg then Z.neg p else Z.pos p) e.
Proof.
  intros Hmod. destruct neg; [|by apply mk_dec_plain].
  change (- Z.pos p)%Z with (Z.neg p). apply mk_dec_plain; [done|].
  intros H. apply Hmod. change (Z.neg p) with (- Z.pos p)%Z in H.
  apply Z.mod_divide in H; [|lia]. apply Z.mod_divide; [lia|].
  by apply Z.divide_opp_r in H.
Qed.

(** The number round trip, after the sign *)
Lemma number_body_unsigned (p : positive) (e : Z) (neg : bool) (rest : string) :
  let n := (Z.of_nat (String.length (digits_of (Z.pos p))) + e)%Z in
  (Z.pos p mod 10 <> 0)%Z -> (-6 < n)%Z -> (n <= 21)%Z ->
  closed rest ->
  number_body neg (unsigned_text (Z.pos p) e +:+ rest)
  = Some (JNum (binary64 (Dec (if neg then Z.neg p else Z.pos p) e)), rest).
Proof.
  intros n Hmod Hlo Hhi Hrest. subst n.
  pose proof (digits_of_all p) as Hall.
  pose proof (digits_of_value p) as Hval.
  destruct (digits_of_head p) as (c & s' & Hs & Hc & Hc0).
  pose proof (closed_not_digit _ Hrest) as Hnd.
  pose proof (scan_exponent_closed _ Hrest) as Hex.
  unfold unsigned_text. cbv zeta.
  set (s := digits_of (Z.pos p)) in *.
  set (k := String.length s) in *.
  assert (1 <= k) as Hk by (subst k; rewrite Hs; simpl; lia).
  destruct (Z.leb_spec (Z.of_nat k) (Z.of_nat k + e)) as [He|He];
    destruct (Z.leb_spec (Z.of_nat k + e) 21) as [_|?]; try lia; cbn [andb].
  - (* an integer: the digits, then zeros *)
    set (j := Z.to_nat (Z.of_nat k + e - Z.of_nat k)).
    assert (String.prefix "0" ((s +:+ zeros j) +:+ rest) = false) as Hpre.
    { rewrite Hs, string_app_cons. by apply prefix_zero_app. }
    unfold number_body, to_number.
    rewrite scan_digits_app; [|by rewrite all_digits_app, Hall, all_digits_zeros|done].
    rewrite digits_value_app, digits_value_zeros, Hval by done.
    rewrite string_length_app, length_zeros. fold k.
    cbv beta iota zeta. rewrite Hpre, andb_false_r.
    destruct (0 + (k + j)) as [|[|i]] eqn:Hi; [lia|..];
      (destruct rest as [|c0 r]; [|destruct Hrest as [-> | ->]];
       cbv beta iota; rewrite ?Hex; cbv beta iota;
       rewrite (mk_dec_signed_pow neg p j e Hmod ltac:(lia)); reflexivity).
  - destruct (Z.ltb_spec 0 (Z.of_nat k + e)) as [Hn|Hn]; cbn [andb].
    + (* digits on both sides of the point *)
      set (n := Z.to_nat (Z.of_nat k + e)).
      destruct (substring_split n s ltac:(lia)) as [Hsplit Hlen].
      set (s1 := String.substring 0 n s) in *.
      set (s2 := substring_from n s) in *.
      assert (all_digits s1 = true /\ all_digits s2 = true) as [Hs1 Hs2].
      { rewrite <- Hsplit, all_digits_app in Hall. by apply andb_prop in Hall. }
      assert (String.length s2 = k - n) as Hlen2.
      { subst k. rewrite <- Hsplit, string_length_app. lia. }
      assert (String.prefix "0" ((s1 +:+ "." +:+ s2) +:+ rest) = false) as Hpre.
      { assert (exists t, s1 = String c t) as [t Ht].
        { rewrite <- Hsplit in Hs. destruct s1 as [|c1 t]; [simpl in Hlen; lia|].
          rewrite string_app_cons in Hs. injection Hs as -> _. by eexists. }
        rewrite Ht, !string_app_cons. by apply prefix_zero_head. }
      unfold number_body, to_number.
      rewrite !string_app_assoc. rewrite !string_app_assoc in Hpre.
      change ("." +:+ s2 +:+ rest) with (String "." (s2 +:+ rest)) in *.
      rewrite scan_digits_app; [|done|done].
      cbv beta iota zeta. rewrite Hpre, andb_false_r. rewrite Hlen.
      destruct (0 + n) as [|[|i]] eqn:Hi; [lia|..];
        (rewrite scan_digits_app; [|done|done];
         rewrite <- digits_value_app, Hsplit, Hval by done;
         rewrite Hlen2; cbv beta iota zeta;
         destruct (0 + (k - n)) as [|f] eqn:Hf; [lia|];
         rewrite Hex; cbv beta iota zeta;
         rewrite mk_dec_signed by done; subst n; repeat f_equal; lia).
    + (* zeros after the point, then the digits *)
      destruct (Z.ltb_spec (-6) (Z.of_nat k + e)) as [_|?]; [|lia].
      destruct (Z.leb_spec (Z.of_nat k + e) 0) as [_|?]; [|lia]. cbn [andb].
      set (j := Z.to_nat (- (Z.of_nat k + e))).
      unfold number_body, to_number. rewrite !string_app_assoc.
      change ("0." +:+ zeros j +:+ s +:+ rest)
        with (String "0" (String "." (zeros j +:+ s +:+ rest))).
      cbn [scan_digits Ascii.is_nat]. cbv beta iota zeta.
      cbn [Nat.ltb Nat.leb andb].
      rewrite <- string_app_assoc.
      rewrite scan_digits_app; [|by rewrite all_digits_app, all_digits_zeros|done].
      rewrite digits_value_app, digits_value_zeros by apply all_digits_zeros.
      rewrite string_length_app, length_zeros. fold k.
      change (10 * 0 + Z.of_nat 0)%Z with 0%Z. rewrite Z.mul_0_l, Hval.
      cbv beta iota zeta.
      destruct (0 + (j + k)) as [|f] eqn:Hf; [lia|].
      rewrite Hex. cbv beta iota zeta.
      rewrite mk_dec_signed by done. subst j. repeat f_equal. lia.
Qed.

(** ** Where a value starts *)

Lemma value_start_facts c :
  value_start c = true ->
  is_json_ws c = false /\ solid c = true
  /\ c <> "]"%char /\ c <> "}"%char /\ c <> ","%char.
Proof.
  destruct c as [[] [] [] [] [] [] [] []]; intros H; try discriminate H;
    repeat split; discriminate.
Qed.

Lemma digit_value_start c : Ascii.is_nat c <> None -> value_start c = true.
Proof. destruct c as [[] [] [] [] [] [] [] []]; intros H; try reflexivity; done. Qed.

Lemma unsigned_text_head (p : positive) (e : Z) :
  let n := (Z.of_nat (String.length (digits_of (Z.pos p))) + e)%Z in
  (-6 < n)%Z -> (n <= 21)%Z ->
  exists c t, unsigned_text (Z.pos p) e = String c t /\ Ascii.is_nat c <> None.
Proof.
  intros n Hlo Hhi. subst n.
  destruct (digits_of_head p) as (c & s' & Hs & Hc & Hc0).
  unfold unsigned_text. cbv zeta.
  set (s := digits_of (Z.pos p)) in *.
  set (k := String.length s) in *.
  assert (1 <= k) as Hk by (subst k; rewrite Hs; simpl; lia).
  destruct (Z.leb_spec (Z.of_nat k) (Z.of_nat k + e)) as [He|He];
    destruct (Z.leb_spec (Z.of_nat k + e) 21) as [_|?]; try lia; cbn [andb].
  - rewrite Hs, string_app_cons. by eexists _, _.
  - destruct (Z.ltb_spec 0 (Z.of_nat k + e)) as [Hn|Hn]; cbn [andb].
    + destruct (Z.to_nat (Z.of_nat k + e)) as [|n] eqn:Hn'; [lia|].
      rewrite Hs. cbn [String.substring]. rewrite string_app_cons. by eexists _, _.
    + destruct (Z.ltb_spec (-6) (Z.of_nat k + e)) as [_|?]; [|lia].
      destruct (Z.leb_spec (Z.of_nat k + e) 0) as [_|?]; [|lia]. cbn [andb].
      exists "0"%char. eexists. split; [reflexivity|done].
Qed.

Lemma number_eqb_eq (x y : number) : number_eqb x y = true -> x = y.
Proof.
  destruct x as [|a|m e], y as [|b|m' e']; simpl; try done.
  - by intros ->%Bool.eqb_prop.
  - intros [->%Z.eqb_eq ->%Z.eqb_eq]%andb_prop. done.
Qed.

(** A number that is printed plainly is read back as it is. *)
Lemma parse_number_round (x : number) (rest : string) :
  plain_number x = true -> closed rest ->
  parse_number (number_to_string x +:+ rest) = Some (JNum x, rest).
Proof.
  destruct x as [| |m e]; [done..|]. unfold plain_number. intros Hx Hrest.
  destruct (Z.eqb_spec m 0) as [->|Hm].
  - apply Z.eqb_eq in Hx as ->.
    pose proof (scan_exponent_closed _ Hrest) as Hex.
    change (number_to_string (Dec 0 0) +:+ rest) with (String "0" rest).
    rewrite parse_number_digit by done. unfold number_body.
    cbn [scan_digits Ascii.is_nat].
    destruct rest as [|c0 r]; [reflexivity|].
    destruct Hrest as [-> | ->]; reflexivity.
  - cbv zeta in Hx. apply andb_prop in Hx as [Hx Hself].
    apply number_eqb_eq in Hself.
    apply andb_prop in Hx as [Hx Hhi]. apply andb_prop in Hx as [Hmod Hlo].
    apply negb_true_iff, Z.eqb_neq in Hmod. apply Z.ltb_lt in Hlo. apply Z.leb_le in Hhi.
    rewrite (number_to_string_sign _ _ Hm).
    destruct m as [|p|p]; [done| |].
    + change (Z.pos p <? 0)%Z with false. cbv iota. rewrite string_app_nil_l.
      change (Z.abs (Z.pos p)) with (Z.pos p) in *.
      destruct (unsigned_text_head p e Hlo Hhi) as (c & t & Ht & Hc).
      rewrite Ht, string_app_cons, parse_number_digit by done.
      rewrite <- string_app_cons, <- Ht.
      rewrite (number_body_unsigned p e false) by done.
      cbv iota. by rewrite Hself.
    + change (Z.neg p <? 0)%Z with true. cbv iota.
      change (Z.abs (Z.neg p)) with (Z.pos p) in *.
      change ("-" +:+ unsigned_text (Z.pos p) e) with (String "-" (unsigned_text (Z.pos p) e)).
      rewrite string_app_cons, parse_number_neg.
      rewrite (number_body_unsigned p e true); [cbv iota; by rewrite Hself| |done..].
      intros H. apply Hmod. change (Z.neg p) with (- Z.pos p)%Z.
      apply Z.mod_divide in H; [|lia]. apply Z.mod_divide; [lia|].
      by apply Z.divide_opp_r.
Qed.

Lemma number_to_string_head (x : number) :
  plain_number x = true ->
  exists c t, number_to_string x = String c t /\ value_start c = true.
Proof.
  destruct x as [| |m e]; [done..|]. unfold plain_number. intros Hx.
  destruct (Z.eqb_spec m 0) as [->|Hm].
  - by exists "0"%char, "".
  - cbv zeta in Hx. apply andb_prop in Hx as [Hx _].
    apply andb_prop in Hx as [Hx Hhi]. apply andb_prop in Hx as [Hmod Hlo].
    apply Z.ltb_lt in Hlo. apply Z.leb_le in Hhi.
    rewrite (number_to_string_sign _ _ Hm).
    destruct m as [|p|p]; [done| |].
    + change (Z.abs (Z.pos p)) with (Z.pos p) in *.
      destruct (unsigned_text_head p e Hlo Hhi) as (c & t & Ht & Hc).
      exists c, t. split; [by rewrite Ht|by apply digit_value_start].
    + by exists "-"%char, (unsigned_text (Z.abs (Z.neg p)) e).
Qed.

(** At a digit or a minus sign [parse_value] reads a number. *)
Lemma parse_value_number (c : ascii) (s : string) (f : nat) :
  Ascii.is_nat c <> None \/ c = "-"%char ->
  parse_value (S f) (String c s) = parse_number (String c s).
Proof.
  intros Hc.
  destruct c as [[] [] [] [] [] [] [] []]; try reflexivity;
    destruct Hc as [Hc|Hc]; try discriminate Hc; by destruct Hc.
Qed.

(** ** Values *)

(** Induction on a value, with the items and the fields as premises *)
Lemma jsval_induction (P : jsval -> Prop) :
  P JUndefined -> P JNull -> (forall b, P (JBool b)) -> (forall x, P (JNum x)) ->
  (forall s, P (JStr s)) ->
  (forall l, Forall P l -> P (JArr l)) ->
  (forall fs, Forall (fun kv => P kv.2) fs -> P (JObj fs)) ->
  forall v, P v.
Proof.
  intros Hu Hn Hb Hx Hs Ha Ho.
  fix IH 1. intros [| |b|x|s|l|fs]; [done|done|apply Hb|apply Hx|apply Hs| |].
  - apply Ha. induction l as [|x l IHl]; constructor; [apply IH|apply IHl].
  - apply Ho. induction fs as [|[k x] fs IHfs]; constructor; [apply IH|apply IHfs].
Qed.

(** The text of a sequence and of an object, part by part *)
Lemma serialize_sequence (indent : string) (l : list jsval) :
  serialize indent (JArr l)
  = let inner := indent +:+ "  " in
    Some match l with
         | [] => "[]"
         | _ => "[" +:+ nl +:+ inner +:+
                join ("," +:+ nl +:+ inner)
                     (map (fun x => default "null" (serialize inner x)) l)
                +:+ nl +:+ indent +:+ "]"
         end.
Proof.
  cbn [serialize]. cbv zeta.
  assert ((fix items (l0 : list jsval) : list string :=
             match l0 with
             | [] => []
             | x :: l' => default "null" (serialize (indent +:+ "  ") x) :: items l'
             end) l
          = map (fun x => default "null" (serialize (indent +:+ "  ") x)) l) as ->.
  { induction l as [|x l IH]; [done|]. cbn [map]. by rewrite IH. }
  by destruct l.
Qed.

Lemma serialize_object (indent : string) (fs : list (string * jsval)) :
  Forall (fun kv => serialize (indent +:+ "  ") kv.2 <> None) fs ->
  serialize indent (JObj fs)
  = let inner := indent +:+ "  " in
    Some match fs with
         | [] => "{}"
         | _ => "{" +:+ nl +:+ inner +:+
                join ("," +:+ nl +:+ inner) (map (member_text inner) fs)
                +:+ nl +:+ indent +:+ "}"
         end.
Proof.
  intros Hfs. cbn [serialize]. cbv zeta.
  assert ((fix props (fs0 : list (string * jsval)) : list string :=
             match fs0 with
             | [] => []
             | (k, x) :: fs' =>
                 match serialize (indent +:+ "  ") x with
                 | Some t => (quote k +:+ ": " +:+ t) :: props fs'
                 | None => props fs'
                 end
             end) fs
          = map (member_text (indent +:+ "  ")) fs) as ->.
  { induction Hfs as [|[k x] fs Hx _ IH]; [done|]. cbn [map]. rewrite IH.
    unfold member_text. simpl in *. by destruct (serialize (indent +:+ "  ") x). }
  by destruct fs.
Qed.

(** ** White space and the first character *)

Lemma blank_app s t : blank (s +:+ t) = blank s && blank t.
Proof.
  induction s as [|c s IH]; [done|]. rewrite string_app_cons. simpl.
  by rewrite IH, andb_assoc.
Qed.

Lemma skip_ws_blank ws s : blank ws = true -> skip_ws (ws +:+ s) = skip_ws s.
Proof.
  induction ws as [|c ws IH]; [done|]. cbn [blank]. intros [Hc Hws]%andb_prop.
  apply Ascii.eqb_eq in Hc as ->. rewrite string_app_cons. simpl. by apply IH.
Qed.

Lemma skip_ws_line inner s :
  blank inner = true -> skip_ws (nl +:+ inner +:+ s) = skip_ws s.
Proof.
  intros H. unfold nl. rewrite string_app_cons, string_app_nil_l. simpl.
  by apply skip_ws_blank.
Qed.

Lemma skip_ws_start c s : is_json_ws c = false -> skip_ws (String c s) = String c s.
Proof. intros H. simpl. by rewrite H. Qed.

Lemma parse_value_skip fuel s s' :
  skip_ws s = skip_ws s' -> parse_value fuel s = parse_value fuel s'.
Proof. intros H. destruct fuel as [|f]; [done|]. simpl. by rewrite H. Qed.

Lemma not_bracket {A} (c : ascii) (s : string) (F : string -> A) (G : A) :
  c <> "]"%char ->
  match String c s with String "]" r' => F r' | _ => G end = G.
Proof. intros Hc. destruct c as [[] [] [] [] [] [] [] []]; try reflexivity; done. Qed.

Lemma not_brace {A} (c : ascii) (s : string) (F : string -> A) (G : A) :
  c <> "}"%char ->
  match String c s with String "}" r' => F r' | _ => G end = G.
Proof. intros Hc. destruct c as [[] [] [] [] [] [] [] []]; try reflexivity; done. Qed.

Lemma join_two sep x y (l : list string) :
  join sep (x :: y :: l) = x +:+ sep +:+ join sep (y :: l).
Proof. reflexivity. Qed.

Lemma parse_value_null (fuel : nat) rest :
  1 <= fuel -> parse_value fuel ("null" +:+ rest) = Some (JNull, rest).
Proof. destruct fuel; [lia|]. reflexivity. Qed.

Lemma parse_value_bool (fuel : nat) (b : bool) rest :
  1 <= fuel ->
  parse_value fuel ((if b then "true" else "false") +:+ rest) = Some (JBool b, rest).
Proof. destruct fuel; [lia|]. by destruct b. Qed.

Lemma parse_value_text (fuel : nat) s rest :
  1 <= fuel -> parse_value fuel (quote s +:+ rest) = Some (JStr s, rest).
Proof.
  destruct fuel as [|f]; [lia|]. intros _. unfold quote.
  rewrite string_app_cons, string_app_assoc, string_app_cons, string_app_nil_l.
  cbn [parse_value skip_ws is_json_ws]. cbv beta iota.
  change (Ascii.eqb "034" "[") with false. change (Ascii.eqb "034" "{") with false.
  change (Ascii.eqb "034" "034") with true. cbv iota.
  by rewrite parse_string_escape.
Qed.

(** ** One step of the parser *)

Lemma parse_elements_eq f s acc :
  parse_elements (S f) s acc
  = match parse_value f s with
    | Some (v, r) =>
        match skip_ws r with
        | String "," r' => parse_elements f r' (v :: acc)
        | String "]" r' => Some (JArr (rev (v :: acc)), r')
        | _ => None
        end
    | None => None
    end.
Proof. reflexivity. Qed.

Lemma parse_members_eq f s acc :
  parse_members (S f) s acc
  = match skip_ws s with
    | String "034" r =>
        match parse_string r with
        | Some (k, r1) =>
            match skip_ws r1 with
            | String ":" r2 =>
                match parse_value f r2 with
                | Some (v, r3) =>
                    match skip_ws r3 with
                    | String "," r' => parse_members f r' (obj_set k v acc)
                    | String "}" r' => Some (JObj (obj_set k v acc), r')
                    | _ => None
                    end
                | None => None
                end
            | _ => None
            end
        | None => None
        end
    | _ => None
    end.
Proof. reflexivity. Qed.

Lemma parse_value_eq f s :
  parse_value (S f) s
  = match skip_ws s with
    | EmptyString => None
    | String c r as t =>
        if Ascii.eqb c "[" then
          match skip_ws r with
          | String "]" r' => Some (JArr [], r')
          | _ => parse_elements f r []
          end
        else if Ascii.eqb c "{" then
          match skip_ws r with
          | String "}" r' => Some (JObj [], r')
          | _ => parse_members f r []
          end
        else if Ascii.eqb c "034" then
          match parse_string r with
          | Some (str, r') => Some (JStr str, r')
          | None => None
          end
        else if Ascii.eqb c "t" then
          (fun r' => (JBool true, r')) <$> strip_prefix "true" t
        else if Ascii.eqb c "f" then
          (fun r' => (JBool false, r')) <$> strip_prefix "false" t
        else if Ascii.eqb c "n" then
          (fun r' => (JNull, r')) <$> strip_prefix "null" t
        else parse_number t
    end.
Proof. reflexivity. Qed.

Lemma closed_line s : closed (nl +:+ s).
Proof. unfold nl. rewrite string_app_cons. by right. Qed.

Lemma closed_comma s : closed (String "," s).
Proof. by left. Qed.

(** The elements of a sequence, as they are printed, are read back. *)
Lemma parse_elements_round (ser : jsval -> string) (inner indent rest : string)
    (l : list jsval) :
  blank inner = true -> blank indent = true ->
  Forall (fun x => forall REST f, closed REST -> size x <= f ->
            exists c t, ser x = String c t /\ value_start c = true
                        /\ parse_value f (String c t +:+ REST) = Some (x, REST)) l ->
  l <> [] ->
  forall fuel acc,
    list_sum (map (fun x => S (size x)) l) <= fuel ->
    parse_elements fuel
      (nl +:+ inner +:+
       (join ("," +:+ nl +:+ inner) (map ser l) +:+ nl +:+ indent +:+ String "]" rest))
      acc
    = Some (JArr (rev acc ++ l), rest).
Proof.
  intros Hinner Hindent Hl. induction Hl as [|x l Hx Hl IH]; [done|].
  intros _ fuel acc Hfuel. simpl in Hfuel.
  destruct fuel as [|f]; [lia|].
  rewrite parse_elements_eq.
  rewrite (parse_value_skip f _ _ (skip_ws_line inner _ Hinner)).
  destruct l as [|y l'].
  - destruct (Hx (nl +:+ indent +:+ String "]" rest) f) as (c & t & Hser & Hc & Hparse).
    { apply closed_line. } { simpl in Hfuel. lia. }
    cbn [map join]. rewrite Hser, Hparse.
    rewrite (skip_ws_line indent _ Hindent). cbn [skip_ws is_json_ws]. cbv beta iota.
    simpl rev. done.
  - set (tail := join ("," +:+ nl +:+ inner) (map ser (y :: l'))
                 +:+ nl +:+ indent +:+ String "]" rest) in *.
    destruct (Hx (String "," (nl +:+ inner +:+ tail)) f) as (c & t & Hser & Hc & Hparse).
    { apply closed_comma. } { lia. }
    change (map ser (x :: y :: l')) with (ser x :: map ser (y :: l')).
    cbn [map] in *. rewrite join_two, !string_app_assoc.
    change ("," +:+ nl +:+ inner +:+ ?X) with (String "," (nl +:+ inner +:+ X)).
    rewrite Hser. fold tail. 
    rewrite Hparse. cbn [skip_ws is_json_ws]. cbv beta iota.
    rewrite IH; [|done|simpl in Hfuel |- *; lia].
    simpl rev. by rewrite <- app_assoc.
Qed.

Lemma quote_app k s : quote k +:+ s = String "034" (escape k +:+ String "034" s).
Proof.
  unfold quote. by rewrite string_app_cons, string_app_assoc, string_app_cons,
    string_app_nil_l.
Qed.

Lemma colon_app s : ": " +:+ s = String ":" (String " " s).
Proof. reflexivity. Qed.

(** The members of an object, as they are printed, are read back. *)
Lemma parse_members_round (ser : jsval -> string) (inner indent rest : string)
    (fs : list (string * jsval)) :
  blank inner = true -> blank indent = true ->
  Forall (fun kv : string * jsval =>
            forall REST f, closed REST -> size kv.2 <= f ->
            exists c t, ser kv.2 = String c t /\ value_start c = true
                        /\ parse_value f (String c t +:+ REST) = Some (kv.2, REST)) fs ->
  fs <> [] ->
  forall fuel acc,
    list_sum (map (fun kv : string * jsval => S (size kv.2)) fs) <= fuel ->
    parse_members fuel
      (nl +:+ inner +:+
       (join ("," +:+ nl +:+ inner)
             (map (fun kv : string * jsval => quote kv.1 +:+ ": " +:+ ser kv.2) fs)
        +:+ nl +:+ indent +:+ String "}" rest))
      acc
    = Some (JObj (assign acc fs), rest).
Proof.
  intros Hinner Hindent Hfs. induction Hfs as [|[k x] fs Hx Hfs IH]; [done|].
  intros _ fuel acc Hfuel. simpl in Hfuel, Hx.
  destruct fuel as [|f]; [lia|].
  rewrite parse_members_eq, (skip_ws_line inner _ Hinner).
  destruct fs as [|[k' y] fs'].
  - destruct (Hx (nl +:+ indent +:+ String "}" rest) f) as (c & t & Hser & Hc & Hparse).
    { apply closed_line. } { simpl in Hfuel. lia. }
    cbn [map join fst snd]. rewrite !string_app_assoc, quote_app, colon_app.
    cbn [skip_ws is_json_ws]. cbv beta iota.
    rewrite parse_string_escape. cbn [skip_ws is_json_ws]. cbv beta iota.
    rewrite (parse_value_skip f _ (ser x +:+ nl +:+ indent +:+ String "}" rest))
      by reflexivity.
    rewrite Hser, Hparse.
    rewrite (skip_ws_line indent _ Hindent). cbn [skip_ws is_json_ws]. cbv beta iota.
    done.
  - set (tail := join ("," +:+ nl +:+ inner)
                   (map (fun kv : string * jsval => quote kv.1 +:+ ": " +:+ ser kv.2)
                        ((k', y) :: fs'))
                 +:+ nl +:+ indent +:+ String "}" rest) in *.
    destruct (Hx (String "," (nl +:+ inner +:+ tail)) f) as (c & t & Hser & Hc & Hparse).
    { apply closed_comma. } { lia. }
    change (map ?g ((k, x) :: (k', y) :: fs')) with (g (k, x) :: map g ((k', y) :: fs')).
    cbn [map fst snd] in *. rewrite join_two, !string_app_assoc.
    change ("," +:+ nl +:+ inner +:+ ?X) with (String "," (nl +:+ inner +:+ X)).
    fold tail. rewrite quote_app, colon_app.
    cbn [skip_ws is_json_ws]. cbv beta iota.
    rewrite parse_string_escape. cbn [skip_ws is_json_ws]. cbv beta iota.
    rewrite (parse_value_skip f _ (ser x +:+ String "," (nl +:+ inner +:+ tail)))
      by reflexivity.
    rewrite Hser, Hparse. cbn [skip_ws is_json_ws]. cbv beta iota.
    rewrite IH; [done|done|simpl in Hfuel |- *; lia].
Qed.

(** ** The round trip *)

Lemma number_to_string_start (x : number) :
  plain_number x = true ->
  exists c t, number_to_string x = String c t
              /\ (Ascii.is_nat c <> None \/ c = "-"%char).
Proof.
  destruct x as [| |m e]; [done..|]. unfold plain_number. intros Hx.
  destruct (Z.eqb_spec m 0) as [->|Hm].
  - exists "0"%char, "". split; [done|by left].
  - cbv zeta in Hx. apply andb_prop in Hx as [Hx _].
    apply andb_prop in Hx as [Hx Hhi]. apply andb_prop in Hx as [Hmod Hlo].
    apply Z.ltb_lt in Hlo. apply Z.leb_le in Hhi.
    rewrite (number_to_string_sign _ _ Hm).
    destruct m as [|p|p]; [done| |].
    + change (Z.abs (Z.pos p)) with (Z.pos p) in *.
      destruct (unsigned_text_head p e Hlo Hhi) as (c & t & Ht & Hc).
      exists c, t. split; [by rewrite Ht|by left].
    + exists "-"%char, (unsigned_text (Z.abs (Z.neg p)) e). split; [done|by right].
Qed.

Lemma start_of_number c :
  Ascii.is_nat c <> None \/ c = "-"%char -> value_start c = true.
Proof. intros [H| ->]; [by apply digit_value_start|done]. Qed.

(** Every storable value is printed and read back. *)
Lemma storable_round_trips (v : jsval) : round_trips v.
Proof.
  induction v as [| |b|x|s|l IH|fs IH] using jsval_induction;
    intros Hv indent rest fuel Hindent Hrest Hfuel.
  - done.
  - exists "n"%char, "ull". split; [done|]. split; [done|].
    by apply (parse_value_null fuel rest).
  - destruct b.
    + exists "t"%char, "rue". split; [done|]. split; [done|].
      by apply (parse_value_bool fuel true rest).
    + exists "f"%char, "alse". split; [done|]. split; [done|].
      by apply (parse_value_bool fuel false rest).
  - simpl in Hv. destruct (number_to_string_start x Hv) as (c & t & Ht & Hc).
    exists c, t. split; [|split].
    + destruct x as [| |m e]; [done..|]. cbn [serialize]. by rewrite Ht.
    + by apply start_of_number.
    + simpl in Hfuel. destruct fuel as [|f]; [lia|].
      rewrite string_app_cons, parse_value_number by done.
      rewrite <- string_app_cons, <- Ht. by apply parse_number_round.
  - exists "034"%char, (escape s +:+ String "034" ""). split; [done|]. split; [done|].
    apply (parse_value_text fuel s rest). simpl in Hfuel. lia.
  - rewrite serialize_sequence. cbv zeta. simpl in Hv, Hfuel.
    destruct fuel as [|f]; [lia|].
    destruct l as [|x l].
    { exists "["%char, "]". split; [done|]. split; [done|]. reflexivity. }
    eexists "["%char, _. split; [reflexivity|]. split; [done|].
    set (inner := indent +:+ "  ").
    set (ser := fun x => default "null" (serialize inner x)).
    assert (blank inner = true) as Hinner.
    { subst inner. by rewrite blank_app, Hindent. }
    assert (Forall (fun x => forall REST f, closed REST -> size x <= f ->
              exists c t, ser x = String c t /\ value_start c = true
                          /\ parse_value f (String c t +:+ REST) = Some (x, REST))
              (x :: l)) as Helems.
    { apply Forall_forall. intros y Hy REST f' HREST Hf'.
      rewrite Forall_forall in IH. 
      assert (storable y = true) as Hsy.
      { rewrite forallb_forall in Hv. apply Hv. by apply list_elem_of_In. }
      destruct (IH y Hy Hsy inner REST f' Hinner HREST Hf') as (c & t & Hser & Hc & Hp).
      exists c, t. subst ser. cbv beta. by rewrite Hser. }
    destruct (Forall_inv Helems "" (size x) I (le_n _)) as (c & t & Hser & Hc & _).
    destruct (value_start_facts c Hc) as (Hws & _ & Hnb & _).
    assert (exists u, join ("," +:+ nl +:+ inner) (map ser (x :: l))
                      +:+ nl +:+ indent +:+ String "]" rest = String c u) as [u Hu].
    { cbn [map]. rewrite Hser. destruct (map ser l); cbn [join];
        rewrite ?string_app_assoc, string_app_cons; by eexists. }
    rewrite string_app_cons, !string_app_assoc.
    change ("]" +:+ rest) with (String "]" rest).
    rewrite parse_value_eq. cbn [skip_ws is_json_ws]. cbv beta iota.
    change (Ascii.eqb "[" "[") with true. cbv iota.
    rewrite (skip_ws_line inner _ Hinner), Hu, (skip_ws_start _ _ Hws).
    rewrite (not_bracket c u (fun r' => Some (JArr [], r')) _ Hnb), <- Hu.
    rewrite (parse_elements_round ser inner indent rest (x :: l) Hinner Hindent Helems);
      [done|done|lia].
  - simpl in Hv, Hfuel. apply andb_prop in Hv as [Hnd Hv].
    apply andb_prop in Hnd as [Hnd Hord].
    apply bool_decide_eq_true in Hnd.
    destruct fuel as [|f]; [lia|].
    set (inner := indent +:+ "  ").
    set (ser := fun x => default "null" (serialize inner x)).
    assert (blank inner = true) as Hinner.
    { subst inner. by rewrite blank_app, Hindent. }
    assert (Forall (fun kv : string * jsval =>
              forall REST f, closed REST -> size kv.2 <= f ->
              exists c t, ser kv.2 = String c t /\ value_start c = true
                          /\ parse_value f (String c t +:+ REST) = Some (kv.2, REST))
              fs) as Hmembers.
    { apply Forall_forall. intros kv Hkv REST f' HREST Hf'.
      rewrite Forall_forall in IH.
      assert (storable kv.2 = true) as Hsy.
      { rewrite forallb_forall in Hv.
        specialize (Hv kv ltac:(by apply list_elem_of_In)).
        by apply andb_prop in Hv as [_ Hv]. }
      destruct (IH kv Hkv Hsy inner REST f' Hinner HREST Hf') as (c & t & Hser & Hc & Hp).
      exists c, t. subst ser. cbv beta. by rewrite Hser. }
    rewrite serialize_object.
    2:{ apply Forall_forall. intros kv Hkv. rewrite Forall_forall in IH.
        assert (storable kv.2 = true) as Hsy.
        { rewrite forallb_forall in Hv.
          specialize (Hv kv ltac:(by apply list_elem_of_In)).
          by apply andb_prop in Hv as [_ Hv]. }
        destruct (IH kv Hkv Hsy inner "" (size kv.2) Hinner I (le_n _))
          as (c & t & Hser & _).
        fold inner. by rewrite Hser. }
    cbv zeta. fold inner.
    destruct fs as [|[k x] fs].
    { exists "{"%char, "}". split; [done|]. split; [done|]. reflexivity. }
    eexists "{"%char, _. split; [reflexivity|]. split; [done|].
    assert (exists u, join ("," +:+ nl +:+ inner) (map (member_text inner) ((k, x) :: fs))
                      +:+ nl +:+ indent +:+ String "}" rest = String "034" u) as [u Hu].
    { cbn [map]. unfold member_text at 1. cbn [fst snd].
      destruct (map (member_text inner) fs); cbn [join];
        rewrite ?string_app_assoc, quote_app; by eexists. }
    rewrite string_app_cons, !string_app_assoc.
    change ("}" +:+ rest) with (String "}" rest).
    rewrite parse_value_eq. cbn [skip_ws is_json_ws]. cbv beta iota.
    change (Ascii.eqb "{" "[") with false. change (Ascii.eqb "{" "{") with true.
    cbv iota.
    rewrite (skip_ws_line inner _ Hinner), Hu. cbn [skip_ws is_json_ws]. cbv beta iota.
    rewrite <- Hu.
    change (map (member_text inner) ((k, x) :: fs))
      with (map (fun kv : string * jsval => quote kv.1 +:+ ": " +:+ ser kv.2)
                ((k, x) :: fs)).
    rewrite (parse_members_round ser inner indent rest ((k, x) :: fs) Hinner Hindent
               Hmembers); [|done|lia].
    by rewrite assign_fresh.
Qed.

(** ** The fuel [parse] gives is enough *)

Lemma storable_serialize (v : jsval) (indent : string) :
  storable v = true -> blank indent = true ->
  exists c t, serialize indent v = Some (String c t) /\ value_start c = true.
Proof.
  intros Hv Hindent.
  destruct (storable_round_trips v Hv indent "" (size v) Hindent I (le_n _))
    as (c & t & Hser & Hc & _).
  by exists c, t.
Qed.

Lemma list_sum_le_join {A} (f : A -> nat) (g : A -> string) (sep : string)
    (l : list A) :
  1 <= String.length sep ->
  Forall (fun x => f x <= String.length (g x)) l ->
  list_sum (map (fun x => S (f x)) l) <= S (String.length (join sep (map g l))).
Proof.
  intros Hsep. induction 1 as [|x l Hx Hl IH]; [simpl; lia|].
  destruct l as [|y l'].
  - simpl. lia.
  - change (map g (x :: y :: l')) with (g x :: g y :: map g l').
    rewrite join_two, !string_length_app.
    change (g y :: map g l') with (map g (y :: l')).
    simpl in IH |- *. lia.
Qed.

(** A value has no more parts than its text has characters. *)
Lemma size_le_length (v : jsval) :
  storable v = true ->
  forall indent t,
    blank indent = true -> serialize indent v = Some t -> size v <= String.length t.
Proof.
  induction v as [| |b|x|s|l IH|fs IH] using jsval_induction;
    intros Hv indent t Hindent Ht.
  - done.
  - injection Ht as <-. simpl. lia.
  - destruct b; injection Ht as <-; simpl; lia.
  - destruct (storable_serialize _ indent Hv Hindent) as (c & t' & Hser & _).
    rewrite Hser in Ht. injection Ht as <-. simpl. lia.
  - injection Ht as <-. simpl. lia.
  - rewrite serialize_sequence in Ht. cbv zeta in Ht. injection Ht as <-.
    assert (forall y, y ∈ l -> storable y = true) as Hst.
    { intros y Hy. simpl in Hv. rewrite forallb_forall in Hv. apply Hv.
      by apply list_elem_of_In. }
    destruct l as [|x l]; [simpl; lia|].
    set (inner := indent +:+ "  ").
    assert (blank inner = true) as Hinner.
    { subst inner. by rewrite blank_app, Hindent. }
    pose proof (list_sum_le_join size (fun x => default "null" (serialize inner x))
                  ("," +:+ nl +:+ inner) (x :: l)) as Hsum.
    rewrite !string_length_app. cbn [size].
    change (String.length "[") with 1. change (String.length "]") with 1.
    change (String.length nl) with 1.
    assert (list_sum (map (fun x => S (size x)) (x :: l))
            <= S (String.length (join ("," +:+ nl +:+ inner)
                    (map (fun x => default "null" (serialize inner x)) (x :: l)))))
      as Hle.
    { apply Hsum; [rewrite string_length_app; simpl; lia|].
      apply Forall_forall. intros y Hy. rewrite Forall_forall in IH.
      destruct (storable_serialize y inner (Hst y Hy) Hinner) as (c & t' & Hser & _).
      rewrite Hser. by apply (IH y Hy (Hst y Hy) inner). }
    fold inner. lia.
  - simpl in Hv. apply andb_prop in Hv as [_ Hv].
    set (inner := indent +:+ "  ") in *.
    assert (blank inner = true) as Hinner.
    { subst inner. by rewrite blank_app, Hindent. }
    assert (forall kv, kv ∈ fs -> storable kv.2 = true) as Hst.
    { intros kv Hkv. rewrite forallb_forall in Hv.
      specialize (Hv kv ltac:(by apply list_elem_of_In)).
      by apply andb_prop in Hv as [_ Hv]. }
    rewrite serialize_object in Ht.
    2:{ apply Forall_forall. intros kv Hkv.
        destruct (storable_serialize kv.2 inner (Hst kv Hkv) Hinner) as (c & t' & Hser & _).
        fold inner. by rewrite Hser. }
    cbv zeta in Ht. injection Ht as <-.
    destruct fs as [|kv fs]; [simpl; lia|].
    pose proof (list_sum_le_join (fun kv : string * jsval => size kv.2)
                  (member_text inner) ("," +:+ nl +:+ inner) (kv :: fs)) as Hsum.
    rewrite !string_length_app. cbn [size].
    change (String.length "{") with 1. change (String.length "}") with 1.
    change (String.length nl) with 1.
    assert (list_sum (map (fun kv : string * jsval => S (size kv.2)) (kv :: fs))
            <= S (String.length (join ("," +:+ nl +:+ inner)
                    (map (member_text inner) (kv :: fs))))) as Hle.
    { apply Hsum; [rewrite string_length_app; simpl; lia|].
      apply Forall_forall. intros y Hy. rewrite Forall_forall in IH.
      destruct (storable_serialize y.2 inner (Hst y Hy) Hinner) as (c & t' & Hser & _).
      unfold member_text. rewrite Hser, !string_length_app. 
      pose proof (IH y Hy (Hst y Hy) inner _ Hinner Hser) as H. simpl in H |- *. lia. }
    fold inner. lia.
Qed.

(** [JSON.parse] undoes [JSON.stringify] on a storable value. *)
Lemma parse_stringify (v : jsval) : storable v = true -> parse (stringify v) = Some v.
Proof.
  intros Hv. unfold parse, stringify.
  destruct (storable_serialize v "" Hv eq_refl) as (c & t & Hser & _).
  pose proof (size_le_length v Hv "" _ eq_refl Hser) as Hsize.
  rewrite Hser. change (default "undefined" (Some (String c t))) with (String c t).
  destruct (storable_round_trips v Hv "" "" (2 * String.length (String c t) + 2)
              eq_refl I ltac:(lia)) as (c' & t' & Hser' & _ & Hparse).
  rewrite Hser in Hser'. injection Hser' as <- <-.
  rewrite string_app_nil_r in Hparse. by rewrite Hparse.
Qed.

(** ** The clean-up passes over the text of a storable value *)

Section Inert.
Variable d : ascii.
Hypothesis d_solid : solid d = true.

Lemma inert_nil : inert d "".
Proof. by intros b. Qed.

Lemma inert_app a b : inert d a -> inert d b -> inert d (a +:+ b).
Proof. intros Ha Hb c. by rewrite string_app_assoc, Ha, Hb. Qed.

Lemma inert_cons c t : Ascii.eqb c "," = false -> inert d t -> inert d (String c t).
Proof.
  intros Hc Ht b. rewrite string_app_cons. cbn [comma_before]. rewrite Hc. simpl.
  apply Ht.
Qed.

Lemma inert_no_comma s : no_comma s = true -> inert d s.
Proof.
  induction s as [|c s IH]; [intros _; apply inert_nil|].
  cbn [no_comma]. intros [Hc Hs]%andb_prop. apply negb_true_iff in Hc.
  by apply inert_cons, IH.
Qed.

Lemma match_spaces_then_solid ws c t :
  all_space ws = true -> solid c = true -> c <> d ->
  match_spaces_then d (ws +:+ String c t) = None.
Proof.
  intros Hws Hc Hcd. apply match_spaces_then_other; [done..|].
  by destruct (Ascii.eqb_spec c d).
Qed.

(** A separator in front of a value *)
Lemma inert_separator ws c t :
  all_space ws = true -> solid c = true -> c <> d ->
  inert d (String c t) -> inert d (String "," (ws +:+ String c t)).
Proof.
  intros Hws Hc Hcd Ht b. rewrite string_app_cons, string_app_assoc, string_app_cons.
  cbn [comma_before]. change (Ascii.eqb "," ",") with true. cbn [andb].
  rewrite (match_spaces_then_solid ws c (t +:+ b) Hws Hc Hcd). cbn [orb].
  rewrite <- string_app_cons.
  rewrite (inert_no_comma ws (all_space_no_comma ws Hws)). apply Ht.
Qed.

Lemma match_spaces_then_stop e q b :
  match_spaces_then d e = None -> solid q = true -> q <> d ->
  match_spaces_then d (e +:+ String q b) = None.
Proof.
  intros He Hq Hqd. rewrite match_spaces_then_app; [done|done|].
  right. by destruct (Ascii.eqb_spec q d).
Qed.

Lemma comma_before_stop e q b :
  comma_before d e = false -> solid q = true -> q <> d ->
  Ascii.eqb q "," = false ->
  comma_before d (e +:+ String q b) = comma_before d b.
Proof.
  intros He Hq Hqd Hqc. induction e as [|a e IH].
  - rewrite string_app_nil_l. cbn [comma_before]. by rewrite Hqc.
  - rewrite string_app_cons. cbn [comma_before] in *.
    apply orb_false_elim in He as [Ha He]. rewrite (IH He).
    destruct (Ascii.eqb a ","); [|done]. cbn [andb] in *.
    destruct (match_spaces_then d e) eqn:Hm; [done|].
    by rewrite (match_spaces_then_stop e q b Hm Hq Hqd).
Qed.

(** A string literal whose text the clean-up does not alter *)
Lemma inert_quote s : comma_before d (escape s) = false -> d <> "034"%char ->
  inert d (quote s).
Proof.
  intros Hs Hd b. rewrite quote_app. cbn [comma_before].
  change (Ascii.eqb "034" ",") with false. cbn [andb orb].
  apply comma_before_stop; [done|done|congruence|done].
Qed.

End Inert.

(** Texts without a comma *)
Lemma no_comma_app a b : no_comma (a +:+ b) = no_comma a && no_comma b.
Proof.
  induction a as [|c a IH]; [done|]. rewrite string_app_cons. cbn [no_comma].
  by rewrite IH, andb_assoc.
Qed.

Lemma digit_not_comma c : Ascii.is_nat c <> None -> Ascii.eqb c "," = false.
Proof. destruct c as [[] [] [] [] [] [] [] []]; intros H; try reflexivity; done. Qed.

Lemma all_digits_no_comma s : all_digits s = true -> no_comma s = true.
Proof.
  induction s as [|c s IH]; [done|]. cbn [all_digits no_comma].
  destruct (Ascii.is_nat c) eqn:Hc; [|done]. intros Hs.
  rewrite digit_not_comma by congruence. by rewrite IH.
Qed.

Lemma blank_all_space s : blank s = true -> all_space s = true.
Proof.
  intros H. apply all_space_spaces. induction s as [|c s IH]; [constructor|].
  cbn [blank] in H. apply andb_prop in H as [Hc Hs].
  apply Ascii.eqb_eq in Hc as ->. apply spaces_one; [done|by apply IH].
Qed.

Lemma unsigned_text_no_comma (p : positive) (e : Z) :
  let n := (Z.of_nat (String.length (digits_of (Z.pos p))) + e)%Z in
  (-6 < n)%Z -> (n <= 21)%Z -> no_comma (unsigned_text (Z.pos p) e) = true.
Proof.
  intros n Hlo Hhi. subst n.
  pose proof (digits_of_all p) as Hall.
  unfold unsigned_text. cbv zeta.
  set (s := digits_of (Z.pos p)) in *.
  set (k := String.length s) in *.
  destruct (Z.leb_spec (Z.of_nat k) (Z.of_nat k + e)) as [He|He];
    destruct (Z.leb_spec (Z.of_nat k + e) 21) as [_|?]; try lia; cbn [andb].
  - rewrite no_comma_app, (all_digits_no_comma _ Hall).
    apply all_digits_no_comma, all_digits_zeros.
  - destruct (Z.ltb_spec 0 (Z.of_nat k + e)) as [Hn|Hn]; cbn [andb].
    + set (n := Z.to_nat (Z.of_nat k + e)).
      destruct (substring_split n s ltac:(subst n k; lia)) as [Hsplit Hlen].
      rewrite <- Hsplit, all_digits_app in Hall. apply andb_prop in Hall as [H1 H2].
      rewrite !no_comma_app, (all_digits_no_comma _ H1), (all_digits_no_comma _ H2).
      done.
    + destruct (Z.ltb_spec (-6) (Z.of_nat k + e)) as [_|?]; [|lia].
      destruct (Z.leb_spec (Z.of_nat k + e) 0) as [_|?]; [|lia]. cbn [andb].
      rewrite !no_comma_app, (all_digits_no_comma _ Hall),
        (all_digits_no_comma _ (all_digits_zeros _)). done.
Qed.

Lemma number_to_string_no_comma (x : number) :
  plain_number x = true -> no_comma (number_to_string x) = true.
Proof.
  destruct x as [| |m e]; [done..|]. unfold plain_number. intros Hx.
  destruct (Z.eqb_spec m 0) as [->|Hm]; [done|].
  cbv zeta in Hx. apply andb_prop in Hx as [Hx _].
    apply andb_prop in Hx as [Hx Hhi]. apply andb_prop in Hx as [Hmod Hlo].
  apply Z.ltb_lt in Hlo. apply Z.leb_le in Hhi.
  rewrite (number_to_string_sign _ _ Hm), no_comma_app.
  destruct m as [|p|p]; [done| |];
    change (Z.abs _) with (Z.pos p) in *;
    rewrite (unsigned_text_no_comma p e Hlo Hhi); done.
Qed.

Lemma join_head sep c t (l : list string) :
  exists u, join sep (String c t :: l) = String c u.
Proof. destruct l; cbn [join]; rewrite ?string_app_cons; by eexists. Qed.

Section InertValues.
Variable d : ascii.
Hypothesis d_closer : d = "]"%char \/ d = "}"%char.

Lemma closer_solid : solid d = true.
Proof. by destruct d_closer as [-> | ->]. Qed.

Lemma closer_not_quote : d <> "034"%char.
Proof. by destruct d_closer as [-> | ->]. Qed.

Lemma start_not_d c : value_start c = true -> c <> d.
Proof.
  intros Hc. destruct (value_start_facts c Hc) as (_ & _ & H1 & H2 & _).
  by destruct d_closer as [-> | ->].
Qed.

Lemma plain_text_d s : plain_text s = true -> comma_before d (escape s) = false.
Proof.
  unfold plain_text. intros [H1 H2]%andb_prop.
  apply negb_true_iff in H1, H2. by destruct d_closer as [-> | ->].
Qed.

(** Parts that are inert and start like a value, joined by separators *)
Lemma inert_join (ws : string) (parts : list string) :
  all_space ws = true ->
  Forall (fun p => inert d p
                   /\ exists c t, p = String c t /\ value_start c = true) parts ->
  inert d (join ("," +:+ ws) parts).
Proof.
  intros Hws. induction 1 as [|p parts [Hp _] Hparts IH]; [apply inert_nil|].
  destruct parts as [|q parts']; [done|].
  rewrite join_two. apply inert_app; [done|].
  destruct (Forall_inv Hparts) as [_ (c & t & -> & Hc)].
  destruct (join_head ("," +:+ ws) c t parts') as [u Hu].
  rewrite Hu in *. rewrite string_app_assoc.
  change ("," +:+ ws +:+ String c u) with (String "," (ws +:+ String c u)).
  destruct (value_start_facts c Hc) as (_ & Hsp & _).
  apply inert_separator; first [done|apply closer_solid|by apply start_not_d].
Qed.

Lemma all_space_line (indent : string) :
  blank indent = true -> all_space (nl +:+ indent) = true.
Proof.
  intros H. unfold nl. rewrite string_app_cons, string_app_nil_l.
  apply all_space_spaces, spaces_one; [done|].
  by apply all_space_spaces, blank_all_space.
Qed.

Lemma inert_blank (indent : string) : blank indent = true -> inert d indent.
Proof. intros H. by apply inert_no_comma, all_space_no_comma, blank_all_space. Qed.

(** The text of a storable value is inert. *)
Lemma serialize_inert (v : jsval) :
  storable v = true ->
  forall indent t, blank indent = true -> serialize indent v = Some t -> inert d t.
Proof.
  induction v as [| |b|x|s|l IH|fs IH] using jsval_induction;
    intros Hv indent t Hindent Ht.
  - done.
  - injection Ht as <-. by apply inert_no_comma.
  - destruct b; injection Ht as <-; by apply inert_no_comma.
  - simpl in Hv. destruct x as [| |m e]; [done..|].
    change (serialize indent (JNum (Dec m e)))
      with (Some (number_to_string (Dec m e))) in Ht.
    injection Ht as <-. apply inert_no_comma.
    exact (number_to_string_no_comma (Dec m e) Hv).
  - injection Ht as <-. simpl in Hv.
    apply inert_quote; [by apply plain_text_d|apply closer_not_quote].
  - rewrite serialize_sequence in Ht. cbv zeta in Ht. injection Ht as <-.
    assert (forall y, y ∈ l -> storable y = true) as Hst.
    { intros y Hy. simpl in Hv. rewrite forallb_forall in Hv. apply Hv.
      by apply list_elem_of_In. }
    destruct l as [|x l]; [by apply inert_no_comma|].
    set (inner := indent +:+ "  ").
    assert (blank inner = true) as Hinner.
    { subst inner. by rewrite blank_app, Hindent. }
    apply (inert_cons d "["); [done|].
    apply inert_app; [by apply inert_no_comma|].
    apply inert_app; [by apply inert_blank|].
    apply inert_app; [|apply inert_app; [by apply inert_no_comma|];
                       apply inert_app; [by apply inert_blank|by apply inert_no_comma]].
    apply (inert_join (nl +:+ inner)); [by apply all_space_line|].
    apply Forall_map, Forall_forall. intros y Hy. rewrite Forall_forall in IH.
    destruct (storable_serialize y inner (Hst y Hy) Hinner) as (c & t' & Hser & Hc).
    rewrite Hser. split; [by apply (IH y Hy (Hst y Hy) inner)|by exists c, t'].
  - simpl in Hv. apply andb_prop in Hv as [_ Hv].
    set (inner := indent +:+ "  ") in *.
    assert (blank inner = true) as Hinner.
    { subst inner. by rewrite blank_app, Hindent. }
    assert (forall kv, kv ∈ fs -> plain_text kv.1 = true /\ storable kv.2 = true) as Hst.
    { intros kv Hkv. rewrite forallb_forall in Hv.
      specialize (Hv kv ltac:(by apply list_elem_of_In)).
      by apply andb_prop in Hv. }
    rewrite serialize_object in Ht.
    2:{ apply Forall_forall. intros kv Hkv.
        destruct (storable_serialize kv.2 inner (proj2 (Hst kv Hkv)) Hinner)
          as (c & t' & Hser & _).
        fold inner. by rewrite Hser. }
    cbv zeta in Ht. injection Ht as <-.
    destruct fs as [|kv fs]; [by apply inert_no_comma|].
    fold inner.
    apply (inert_cons d "{"); [done|].
    apply inert_app; [by apply inert_no_comma|].
    apply inert_app; [by apply inert_blank|].
    apply inert_app; [|apply inert_app; [by apply inert_no_comma|];
                       apply inert_app; [by apply inert_blank|by apply inert_no_comma]].
    apply (inert_join (nl +:+ inner)); [by apply all_space_line|].
    apply Forall_map, Forall_forall. intros y Hy. rewrite Forall_forall in IH.
    destruct (Hst y Hy) as [Hk Hy2].
    destruct (storable_serialize y.2 inner Hy2 Hinner) as (c & t' & Hser & Hc).
    unfold member_text. rewrite Hser. split.
    + apply inert_app; [|apply inert_app].
      * apply inert_quote; [by apply plain_text_d|apply closer_not_quote].
      * by apply inert_no_comma.
      * by apply (IH y Hy Hy2 inner).
    + rewrite quote_app. by eexists _, _.
Qed.

End InertValues.

(** The clean-up leaves the text of a storable value as it is. *)
Lemma cleanedJson_stringify (v : jsval) :
  storable v = true -> cleanedJson (stringify v) = stringify v.
Proof.
  intros Hv. unfold stringify.
  destruct (storable_serialize v "" Hv eq_refl) as (c & t & Hser & _).
  rewrite Hser. change (default "undefined" (Some (String c t))) with (String c t).
  assert (forall d, d = "]"%char \/ d = "}"%char ->
                    comma_before d (String c t) = false) as Hclean.
  { intros d Hd. pose proof (serialize_inert d Hd v Hv "" _ eq_refl Hser "") as H.
    by rewrite string_app_nil_r in H. }
  unfold cleanedJson, replace_comma_before.
  rewrite (replace_scan_fixes "]" _ (Hclean "]"%char (or_introl eq_refl))).
  by rewrite (replace_scan_fixes "}" _ (Hclean "}"%char (or_intror eq_refl))).
Qed.

(** What is written for a storable sequence is read back as that sequence. *)
Lemma read_value_written (l : list jsval) :
  forallb storable l = true -> read_value (content_of (JArr l)) = JArr l.
Proof.
  intros Hl. unfold read_value, content_of.
  destruct (stringify_sequence l) as [t Ht]. rewrite Ht.
  rewrite jsonStr_of_frame by done. rewrite <- Ht.
  by rewrite (cleanedJson_stringify (JArr l) Hl), (parse_stringify (JArr l) Hl).
Qed.

(** X24. Write, then read. After a write of a storable sequence that
    goes through, the next read returns that sequence: the same records,
    in the same order, with the same fields. *)
Theorem written_sequence_is_read_back (l : list jsval) (w : World) :
  forallb storable l = true ->
  let w' := (run (writeProductsToConstant (JArr l)) [] w).1.2 in
  file w' = Some (content_of (JArr l))
  /\ run readProductsFromConstant [] w' = (Ok (JArr l), w', [Ev ReadFile]).
Proof.
  intros Hl. rewrite run_write. cbn [fst snd after_write head default].
  split; [done|]. rewrite run_read. cbn [head default]. unfold read_result.
  cbn [file set_file]. by rewrite (read_value_written l Hl).
Qed.

Lemma written_sequence_is_read_back_witness :
  run readProductsFromConstant []
      (run (writeProductsToConstant (JArr [product_a])) [] (world_of_file None)).1.2
  = (Ok (JArr [product_a]),
     (run (writeProductsToConstant (JArr [product_a])) [] (world_of_file None)).1.2,
     [Ev ReadFile]).
Proof.
  assert (forallb storable [product_a] = true) as Hl by (vm_compute; reflexivity).
  pose proof (written_sequence_is_read_back [product_a] (world_of_file None) Hl)
    as [_ H].
  exact H.
Defined.

Lemma read_result_written (l : list jsval) (w : World) :
  forallb storable l = true ->
  read_result None (set_file (Some (content_of (JArr l))) w) = JArr l.
Proof. intros Hl. unfold read_result. cbn [file set_file]. by apply read_value_written. Qed.

Lemma run_listProducts_anonymous (l : list jsval) (w : World) :
  read_result None w = JArr l ->
  run (listProducts NoToken) [] w
  = (Ok (RJson 200 (JArr (map (fun p => with_wishlisted p false) l))), w,
     [Ev ReadFile]).
Proof.
  intros Hread. unfold listProducts. simpl.
  rewrite run_try_catch, run_bind, run_read. simpl.
  unfold read_result in Hread. rewrite Hread.
  rewrite run_bind, run_lift. unfold array_method. done.
Qed.

(** X25. Add, then list. After an Add that goes through on a catalog of
    storable records, with a new record that is storable, the next listing
    shows the new product first and every product that was there before,
    in the order they had. *)
Theorem added_product_is_listed (u : Identity) (fs : list (string * jsval))
    (productId : string) (l : list jsval) (w : World) :
  user_role u = "admin" ->
  valid_add fs ->
  read_result None w = JArr l ->
  put_accepted productId fs w ->
  storable (new_record productId fs) = true ->
  forallb storable l = true ->
  let w' := (run (addProduct (Token u) (JObj fs) productId) [] w).1.2 in
  run (listProducts NoToken) [] w'
  = (Ok (RJson 200 (JArr (map (fun p => with_wishlisted p false)
                              (new_record productId fs :: l)))),
     w', [Ev ReadFile]).
Proof.
  intros Hrole Hv Hread Hput Hnew Hl.
  rewrite (run_addProduct_ok u fs productId l w Hrole Hv Hread Hput).
  cbn [fst snd]. apply run_listProducts_anonymous, read_result_written.
  cbn [forallb]. by rewrite Hnew, Hl.
Qed.

Lemma added_product_is_listed_witness :
  let fs := [ ("title", JStr "Beta"); ("description", JStr "A dashboard");
              ("images", JArr [JStr "b.png"]); ("price", JNum (Dec 25 0));
              ("category", JStr "web") ] in
  (run (listProducts NoToken) []
       (run (addProduct admin (JObj fs) "id-b") [] world_a).1.2).1.1
  = Ok (RJson 200 (JArr [with_wishlisted (new_record "id-b" fs) false;
                         with_wishlisted product_a false])).
Proof.
  intros fs.
  assert (storable (new_record "id-b" fs) = true) as Hnew by (vm_compute; reflexivity).
  assert (forallb storable [product_a] = true) as Hl by (vm_compute; reflexivity).
  pose proof (added_product_is_listed
                {| user_id := "64b7f1c2a9e4d3001f2e8a10"; user_role := "admin" |}
                fs "id-b" [product_a] world_a eq_refl eq_refl read_world_a
                ltac:(intros H; discriminate H) Hnew Hl) as H.
  cbv zeta in H. change (Token _) with admin in H. by rewrite H.
Defined.

Lemma storable_without id l :
  forallb storable l = true -> forallb storable (without id l) = true.
Proof.
  rewrite !forallb_forall. intros Hl p Hp. apply Hl.
  unfold without in Hp. by apply filter_In in Hp as [Hp _].
Qed.

Lemma storable_object_record p :
  storable p = true -> is_plain_object p = true -> object_record p.
Proof.
  destruct p as [| | | | | |fs]; try done. simpl.
  intros [[Hnd _]%andb_prop _]%andb_prop _. by apply bool_decide_eq_true in Hnd.
Qed.

(** X26. Delete, then list. After a Delete that goes through on a
    catalog of storable records, no product of the next listing carries
    the deleted id, and every other product is still listed, in the order
    it had. *)
Theorem deleted_product_is_not_listed (u : Identity) (id : string)
    (l : list jsval) (w : World) :
  user_role u = "admin" ->
  read_result None w = JArr l ->
  forallb storable l = true ->
  Forall (fun p => is_plain_object p = true) l ->
  let w' := (run (deleteProduct (Token u) id) [] w).1.2 in
  run (listProducts NoToken) [] w'
  = (Ok (RJson 200 (JArr (map (fun p => with_wishlisted p false) (without id l)))),
     w', [Ev ReadFile])
  /\ Forall (fun doc => get doc "id" <> Ok (JStr id))
            (map (fun p => with_wishlisted p false) (without id l)).
Proof.
  intros Hrole Hread Hl Hobj.
  assert (Forall (fun p => p <> JNull /\ p <> JUndefined) l) as Hrec.
  { eapply Forall_impl; [exact Hobj|]. intros p Hp. by destruct p. }
  rewrite (run_deleteProduct_ok u id l w Hrole Hread Hrec). cbn [fst snd]. split.
  - apply run_listProducts_anonymous.
    change (read_result None
              (set_file (Some (content_of (JArr (without id l))))
                        (set_productFiles (delete id (productFiles w)) w)))
      with (read_value (content_of (JArr (without id l)))).
    apply read_value_written. by apply storable_without.
  - apply Forall_map, Forall_forall. intros p Hp.
    apply elem_of_without in Hp as [Hin Hid].
    assert (object_record p) as Hp.
    { apply storable_object_record.
      - rewrite forallb_forall in Hl. apply Hl. by apply list_elem_of_In.
      - by apply (proj1 (Forall_forall _ _) Hobj). }
    rewrite (get_with_wishlisted_other p false "id" Hp) by discriminate.
    intros Hget. apply Hid. unfold get_opt. by rewrite Hget.
Qed.

Lemma deleted_product_is_not_listed_witness :
  run (listProducts NoToken) [] (run (deleteProduct admin "id-a") [] world_a).1.2
  = (Ok (RJson 200 (JArr [])), (run (deleteProduct admin "id-a") [] world_a).1.2,
     [Ev ReadFile]).
Proof.
  assert (forallb storable [product_a] = true) as Hl by (vm_compute; reflexivity).
  pose proof (deleted_product_is_not_listed
                {| user_id := "64b7f1c2a9e4d3001f2e8a10"; user_role := "admin" |}
                "id-a" [product_a] world_a eq_refl read_world_a Hl
                ltac:(repeat constructor)) as [H _].
  exact H.
Defined.

(** X27. Update, then list. After an Update that goes through and writes
    a storable sequence, the next listing shows as many products as
    before, in the same order: the updated record, which carries the id,
    at the place of the old one, and every other product as it was. *)
Theorem updated_product_is_listed (u : Identity) (id : string)
    (fs : list (string * jsval)) (l : list jsval) (i : nat) (w : World) :
  user_role u = "admin" ->
  read_result None w = JArr l ->
  findIndex id l = Ok (Some i) ->
  payload_accepted fs ->
  let updated := updated_of id (default JUndefined (l !! i)) (merged_fields fs) in
  forallb storable (<[i := updated]> l) = true ->
  let w' := (run (updateProduct (Token u) id (JObj fs)) [] w).1.2 in
  run (listProducts NoToken) [] w'
  = (Ok (RJson 200 (JArr (map (fun p => with_wishlisted p false)
                              (<[i := updated]> l)))),
     w', [Ev ReadFile])
  /\ get updated "id" = Ok (JStr id).
Proof.
  intros Hrole Hread Hfind Hcast updated Hl.
  rewrite (run_updateProduct_ok u id fs l i w Hrole Hread Hfind Hcast).
  cbn [fst snd]. split; [|apply get_updated_id].
  apply run_listProducts_anonymous.
  change (read_result None (set_file (Some ?c) ?x)) with (read_value c).
  by apply read_value_written.
Qed.

Lemma updated_product_is_listed_witness :
  let updated := updated_of "id-a" product_a [("title", JStr "Alpha 2")] in
  (run (listProducts NoToken) []
       (run (updateProduct admin "id-a" (JObj [("title", JStr "Alpha 2")])) []
            world_a).1.2).1.1
  = Ok (RJson 200 (JArr [with_wishlisted updated false])).
Proof.
  intros updated.
  assert (forallb storable [updated] = true) as Hl by (vm_compute; reflexivity).
  pose proof (updated_product_is_listed
                {| user_id := "64b7f1c2a9e4d3001f2e8a10"; user_role := "admin" |}
                "id-a" [("title", JStr "Alpha 2")] [product_a] 0 world_a
                eq_refl read_world_a eq_refl ltac:(intros H; discriminate H) Hl)
    as [H _].
  change (Token _) with admin in H. by rewrite H.
Defined.

(** A text that is not plain is not read back: the clean-up removes the
    comma that a closing bracket follows, inside the string literal. *)
Example comma_in_text_is_lost :
  read_value (content_of (JArr [JObj [("title", JStr "a, ]")]]))
  = JArr [JObj [("title", JStr "a]")]].
Proof. vm_compute. reflexivity. Qed.
